(** * MCP-Maker: the RPG Maker MZ database server

    A shallow embedding of the server's file layer ([FileHandler]), of the
    tool handlers that read and mutate the JSON database (items, skills,
    states, weapons, enemies, armors, actors, classes, maps, limits,
    plugins, resources) and of the write path they call into
    ([SafeWriter]), followed by the properties of the persistence layer:
    backup before overwrite, the version counter, append on create,
    rejection without a write, the listing rule, the map dual write and
    the plugin header; and then by further properties of the tools: what
    a listing shows after a create or an update, the limits, the names
    of map files, the folders that are scanned, and what a request
    leaves alone.

    Conventions of the embedding.
    - A TypeScript interface is a record; [number] fields that the schemas
      constrain with [.int()] are [Z], the two that receive a percentage
      divided by 100 are [Qc] (floating point rounding is not modelled).
    - A JavaScript string is a [string]; a character is one code unit
      below 256.
    - An [async] function that may throw is a computation in the monad [M]:
      it threads the disk and returns a value or a thrown exception.
    - [T | null] is [option T]; an array is a [list].
    - The disk maps an absolute path to the parsed content of the file.
      A mutating system call fails when the next entry of a list of
      outcomes carried by the disk says so; a failed call changes
      nothing.
    - The folders are not part of the disk: what [readdir] answers for a
      path is a parameter of the tools that list a folder.

    The file has two parts: the model, one module for each source file,
    and then the properties. *)

From Stdlib Require Import ZArith Ascii Qcanon.
From stdpp Require Import base option list gmap strings pretty numbers.

Local Open Scope Z_scope.

(* ================================================================== *)
(** * utils/types.ts *)
(* ================================================================== *)

Module Types.

Record RPGEffect := {
  eff_code : Z;
  eff_dataId : Z;
  eff_value1 : Qc;
  eff_value2 : Z
}.

Record RPGDamage := {
  dmg_type : Z;
  dmg_elementId : Z;
  dmg_formula : string;
  dmg_variance : Z;
  dmg_critical : bool
}.

Record RPGTrait := {
  trait_code : Z;
  trait_dataId : Z;
  trait_value : Qc
}.

Record RPGItem := {
  item_id : Z;
  item_name : string;
  item_description : string;
  item_iconIndex : Z;
  item_price : Z;
  item_itypeId : Z;
  item_consumable : bool;
  item_scope : Z;
  item_occasion : Z;
  item_animationId : Z;
  item_damage : RPGDamage;
  item_effects : list RPGEffect;
  item_hitType : Z;
  item_repeats : Z;
  item_speed : Z;
  item_successRate : Z;
  item_tpGain : Z;
  item_note : string
}.

Record RPGActor := {
  actor_id : Z;
  actor_name : string;
  actor_nickname : string;
  actor_classId : Z;
  actor_initialLevel : Z;
  actor_maxLevel : Z;
  actor_characterName : string;
  actor_characterIndex : Z;
  actor_faceName : string;
  actor_faceIndex : Z;
  actor_battlerName : string;
  actor_equips : list Z;
  actor_profile : string;
  actor_note : string
}.

Record Learning := {
  learn_level : Z;
  learn_skillId : Z;
  learn_note : string
}.

Record RPGClass := {
  class_id : Z;
  class_name : string;
  class_expParams : list Z;
  class_params : list (list Z);
  class_learnings : list Learning;
  class_traits : list RPGTrait;
  class_note : string
}.

Record RPGSkill := {
  skill_id : Z;
  skill_name : string;
  skill_description : string;
  skill_iconIndex : Z;
  skill_stypeId : Z;
  skill_scope : Z;
  skill_occasion : Z;
  skill_mpCost : Z;
  skill_tpCost : Z;
  skill_damage : RPGDamage;
  skill_effects : list RPGEffect;
  skill_requiredWtypeId1 : Z;
  skill_requiredWtypeId2 : Z;
  skill_speed : Z;
  skill_successRate : Z;
  skill_repeats : Z;
  skill_tpGain : Z;
  skill_hitType : Z;
  skill_animationId : Z;
  skill_message1 : string;
  skill_message2 : string;
  skill_note : string
}.

Record RPGWeapon := {
  weapon_id : Z;
  weapon_name : string;
  weapon_description : string;
  weapon_iconIndex : Z;
  weapon_price : Z;
  weapon_wtypeId : Z;
  weapon_etypeId : Z;
  weapon_params : list Z;
  weapon_traits : list RPGTrait;
  weapon_animationId : Z;
  weapon_note : string
}.

Record RPGArmor := {
  armor_id : Z;
  armor_name : string;
  armor_description : string;
  armor_iconIndex : Z;
  armor_price : Z;
  armor_atypeId : Z;
  armor_etypeId : Z;
  armor_params : list Z;
  armor_traits : list RPGTrait;
  armor_note : string
}.

Record DropItem := {
  drop_kind : Z;
  drop_dataId : Z;
  drop_denominator : Z
}.

Record EnemyAction := {
  act_conditionParam1 : Z;
  act_conditionParam2 : Z;
  act_conditionType : Z;
  act_rating : Z;
  act_skillId : Z
}.

Record RPGEnemy := {
  enemy_id : Z;
  enemy_name : string;
  enemy_battlerName : string;
  enemy_battlerHue : Z;
  enemy_params : list Z;
  enemy_exp : Z;
  enemy_gold : Z;
  enemy_dropItems : list DropItem;
  enemy_actions : list EnemyAction;
  enemy_traits : list RPGTrait;
  enemy_note : string
}.

Record RPGState := {
  state_id : Z;
  state_name : string;
  state_iconIndex : Z;
  state_restriction : Z;
  state_priority : Z;
  state_motion : Z;
  state_overlay : Z;
  state_removeAtBattleEnd : bool;
  state_removeByRestriction : bool;
  state_autoRemovalTiming : Z;
  state_minTurns : Z;
  state_maxTurns : Z;
  state_removeByDamage : bool;
  state_chanceByDamage : Z;
  state_removeByWalking : bool;
  state_stepsToRemove : Z;
  state_message1 : string;
  state_message2 : string;
  state_message3 : string;
  state_message4 : string;
  state_traits : list RPGTrait;
  state_note : string
}.

Record RPGMapInfo := {
  mapinfo_id : Z;
  mapinfo_name : string;
  mapinfo_parentId : Z;
  mapinfo_expanded : bool;
  mapinfo_scrollX : Z;
  mapinfo_scrollY : Z;
  mapinfo_order : Z
}.

Record AudioFile := {
  audio_name : string;
  audio_pan : Z;
  audio_pitch : Z;
  audio_volume : Z
}.

Record Encounter := {
  enc_regionSet : list Z;
  enc_troopId : Z;
  enc_weight : Z
}.

(** An event of a map. No tool looks inside event pages; they are kept
    as their serialised text. *)
Record RPGEvent := {
  event_id : Z;
  event_name : string;
  event_x : Z;
  event_y : Z;
  event_pages : list string;
  event_note : string
}.

Record RPGMap := {
  map_displayName : string;
  map_tilesetId : Z;
  map_width : Z;
  map_height : Z;
  map_scrollType : Z;
  map_specifyBattleback : bool;
  map_battleback1Name : string;
  map_battleback2Name : string;
  map_autoplayBgm : bool;
  map_bgm : AudioFile;
  map_autoplayBgs : bool;
  map_bgs : AudioFile;
  map_disableDashing : bool;
  map_encounterList : list Encounter;
  map_encounterStep : Z;
  map_parallaxName : string;
  map_parallaxLoopX : bool;
  map_parallaxLoopY : bool;
  map_parallaxSx : Z;
  map_parallaxSy : Z;
  map_parallaxShow : bool;
  map_data : list Z;
  map_events : list (option RPGEvent);
  map_note : string
}.

Record PluginConfig := {
  plugin_name : string;
  plugin_status : bool;
  plugin_description : string;
  plugin_parameters : list (string * string)
}.

(** The interface lists eight fields and "many more"; the rest of the
    system file is carried along untouched in [sys_rest]. *)
Record RPGSystem := {
  sys_gameTitle : string;
  sys_versionId : Z;
  sys_locale : string;
  sys_partyMembers : list Z;
  sys_currencyUnit : string;
  sys_startMapId : Z;
  sys_startX : Z;
  sys_startY : Z;
  sys_rest : string
}.

Module ItemType.
Definition Regular : Z := 1.
Definition KeyItem : Z := 2.
Definition HiddenA : Z := 3.
Definition HiddenB : Z := 4.
End ItemType.

Module Scope.
Definition None : Z := 0.
Definition OneEnemy : Z := 1.
Definition AllEnemies : Z := 2.
Definition OneRandomEnemy : Z := 3.
Definition TwoRandomEnemies : Z := 4.
Definition ThreeRandomEnemies : Z := 5.
Definition FourRandomEnemies : Z := 6.
Definition OneAlly : Z := 7.
Definition AllAllies : Z := 8.
Definition OneAllyDead : Z := 9.
Definition AllAlliesDead : Z := 10.
Definition User : Z := 11.
End Scope.

Module Occasion.
Definition Always : Z := 0.
Definition Battle : Z := 1.
Definition Menu : Z := 2.
Definition Never : Z := 3.
End Occasion.

Module EffectCode.
Definition RecoverHP : Z := 11.
Definition RecoverMP : Z := 12.
Definition GainTP : Z := 13.
Definition AddState : Z := 21.
Definition RemoveState : Z := 22.
Definition AddBuff : Z := 31.
Definition AddDebuff : Z := 32.
Definition RemoveBuff : Z := 33.
Definition RemoveDebuff : Z := 34.
Definition SpecialEffect : Z := 41.
Definition Grow : Z := 42.
Definition LearnSkill : Z := 43.
Definition CommonEvent : Z := 44.
End EffectCode.

Module DamageType.
Definition None : Z := 0.
Definition HPDamage : Z := 1.
Definition MPDamage : Z := 2.
Definition HPRecover : Z := 3.
Definition MPRecover : Z := 4.
Definition HPDrain : Z := 5.
Definition MPDrain : Z := 6.
End DamageType.

Module ScrollType.
Definition NoLoop : Z := 0.
Definition LoopVertical : Z := 1.
Definition LoopHorizontal : Z := 2.
Definition LoopBoth : Z := 3.
End ScrollType.

End Types.
Export Types.

(* ================================================================== *)
(** * The disk, exceptions and computations *)
(* ================================================================== *)

Module Runtime.

(** An element of a database array, as [JSON.parse] returns it: a record
    of one of the shapes of [Types], or a value of a shape no tool
    looks into (animations, tilesets, troops, common events), kept as its
    text. *)
Inductive entity :=
| EItem (r : RPGItem)
| ESkill (r : RPGSkill)
| EState (r : RPGState)
| EWeapon (r : RPGWeapon)
| EArmor (r : RPGArmor)
| EActor (r : RPGActor)
| EClass (r : RPGClass)
| EEnemy (r : RPGEnemy)
| EMapInfo (r : RPGMapInfo)
| EOther (raw : string).

(** The content of a file. A JSON file is held as the value it parses
    to; [DText] is a file that is not JSON (a plugin script, or a
    database file that [JSON.parse] rejects). [JSON.stringify] followed by
    [JSON.parse] is the identity on the values the tools write, so the
    serialised text itself is not modelled. *)
Inductive doc :=
| DArray (l : list (option entity))
| DMap (m : RPGMap)
| DSystem (s : RPGSystem)
| DText (s : string).

Inductive exn :=
| ENOENT (path : string)       (* no such file *)
| EIO (path : string)          (* the operating system refused the operation *)
| SyntaxError (path : string)  (* JSON.parse on a file that is not JSON *)
| ShapeError (path : string)   (* a JSON file of another shape than the declared type *)
| RangeError                   (* new Array(n) with n not an array length *)
| TypeError.                   (* a property of null or undefined is written *)

Inductive res (A : Type) :=
| Ok (a : A)
| Throw (e : exn).
Arguments Ok {A} a.
Arguments Throw {A} e.

(** The disk: the files by absolute path, and the outcome of the coming
    mutating system calls ([true]: the call fails and changes nothing).
    Once the list is used up every call goes through. *)
Record World := {
  files : gmap string doc;
  faults : list bool
}.

Definition M (A : Type) : Type := World → World * res A.

Definition ret {A} (a : A) : M A := λ w, (w, Ok a).
Definition throw {A} (e : exn) : M A := λ w, (w, Throw e).
Definition bind {A B} (m : M A) (k : A → M B) : M B :=
  λ w, match m w with
       | (w1, Ok a) => k a w1
       | (w1, Throw e) => (w1, Throw e)
       end.
(** [try { m } catch (e) { h e }] *)
Definition try_catch {A} (m : M A) (h : exn → M A) : M A :=
  λ w, match m w with
       | (w1, Ok a) => (w1, Ok a)
       | (w1, Throw e) => h e w1
       end.

Notation "x <- m ;; k" := (bind m (λ x, k))
  (at level 100, m at next level, right associativity,
   format "'[v' x  <-  m  ;;  '/' k ']'").
Notation "m ;;; k" := (bind m (λ _, k))
  (at level 100, right associativity,
   format "'[v' m  ;;;  '/' k ']'").

(** ** node:fs/promises *)

Definition next_fault : M bool := λ w,
  match faults w with
  | [] => (w, Ok false)
  | b :: bs => ({| files := files w; faults := bs |}, Ok b)
  end.

Definition fs_readFile (p : string) : M doc := λ w,
  match files w !! p with
  | Some d => (w, Ok d)
  | None => (w, Throw (ENOENT p))
  end.

Definition fs_access (p : string) : M unit := λ w,
  match files w !! p with
  | Some _ => (w, Ok ())
  | None => (w, Throw (ENOENT p))
  end.

Definition fs_mkdir (dir : string) : M unit :=
  b <- next_fault ;;
  if b : bool then throw (EIO dir) else ret ().

Definition fs_writeFile (p : string) (d : doc) : M unit :=
  b <- next_fault ;;
  if b : bool then throw (EIO p)
  else λ w, ({| files := <[p := d]> (files w); faults := faults w |}, Ok ()).

Definition fs_copyFile (src dst : string) : M unit :=
  b <- next_fault ;;
  if b : bool then throw (EIO dst)
  else λ w, match files w !! src with
            | Some d => ({| files := <[dst := d]> (files w); faults := faults w |}, Ok ())
            | None => (w, Throw (ENOENT src))
            end.

(** ** node:path (POSIX flavour, on paths without [.] and [..] segments) *)

Definition path_isAbsolute (p : string) : bool :=
  match p with
  | String "/" _ => true
  | _ => false
  end.

Definition path_join (a b : string) : string := a +:+ "/" +:+ b.

Fixpoint dirname_go (p : string) : option string :=
  match p with
  | EmptyString => None
  | String c r =>
      match dirname_go r with
      | Some d => Some (String c d)
      | None => if decide (c = "/"%char) then Some EmptyString else None
      end
  end.

Definition path_dirname (p : string) : string :=
  match dirname_go p with
  | Some EmptyString => "/"
  | Some d => d
  | None => "."
  end.

(** ** Typed views of a parsed file: the [T] of [readJson<T>] *)

Class Json (T : Type) := {
  to_doc : T → doc;
  of_doc : doc → option T
}.

Definition JSON_parse {T} `{Json T} (p : string) (d : doc) : M T :=
  match d with
  | DText _ => throw (SyntaxError p)
  | _ => match of_doc d with
         | Some x => ret x
         | None => throw (ShapeError p)
         end
  end.

(** ** Tool results *)

(** A JSON value built for a listing. *)
#[local] Unset Elimination Schemes.
Inductive json :=
| JNull
| JBool (b : bool)
| JNum (n : Z)
| JStr (s : string)
| JArr (l : list json)
| JObj (fields : list (string * json)).
#[local] Set Elimination Schemes.

(** The [text] of a result: a literal or template string, the
    serialisation [JSON.stringify(j, null, 2)] of a value, or the
    rendering of a caught exception in [`Error: ${error}`]. *)
Inductive text :=
| Plain (s : string)
| Stringified (j : json)
| Caught (e : exn).

Record ToolResult := {
  content : text;
  isError : bool
}.

Definition success (t : text) : ToolResult := {| content := t; isError := false |}.
Definition failure (t : text) : ToolResult := {| content := t; isError := true |}.

(** The handler pattern [async (args) => { try { ... } catch (error) {
    return { content: [...`Error: ${error}`], isError: true } } }]. *)
Definition handler (body : M ToolResult) : World → World * ToolResult :=
  λ w, match body w with
       | (w1, Ok r) => (w1, r)
       | (w1, Throw e) => (w1, failure (Caught e))
       end.

(** ** Names of map files *)

(** [s.padStart(3, "0")] *)
Definition padStart3 (s : string) : string :=
match String.length s with
| 0%nat => "000" +:+ s
| 1%nat => "00" +:+ s
| 2%nat => "0" +:+ s
| _ => s
end.

(** [`Map${String(id).padStart(3, "0")}.json`], the expression of
  update_map in tools/mapTools.ts. *)
Definition mapFilename (id : Z) : string :=
"Map" +:+ padStart3 (pretty id) +:+ ".json".

(** ** Directory listings: [fs.readdir(path, { withFileTypes: true })] *)

(** What a [Dirent] answers to [isFile()] and [isDirectory()]; a link or
    a device answers false to both. *)
Inductive direntKind := IsFile | IsDirectory | IsOther.

Record Dirent := {
  dirent_name : string;
  dirent_kind : direntKind
}.

Definition isFile (e : Dirent) : bool :=
  match dirent_kind e with IsFile => true | _ => false end.

Definition isDirectory (e : Dirent) : bool :=
  match dirent_kind e with IsDirectory => true | _ => false end.

(** [World] holds the files the tools read and write, not the
    directories. What [readdir] answers on a disk, the entries or the
    exception, is a parameter of the functions that list; it reads and
    changes nothing. *)
Definition Readdir : Type := string → World → res (list Dirent).

Definition fs_readdir (readdir : Readdir) (p : string) : M (list Dirent) :=
  λ w, (w, readdir p w).

(** ** Methods of String *)

(** [s.startsWith(p)] *)
Fixpoint startsWith (s p : string) {struct p} : bool :=
  match p, s with
  | EmptyString, _ => true
  | String a p', String b s' => bool_decide (a = b) && startsWith s' p'
  | String _ _, EmptyString => false
  end.

(** [s.endsWith(p)] *)
Fixpoint endsWith (s p : string) : bool :=
  bool_decide (s = p) ||
  match s with
  | String _ s' => endsWith s' p
  | EmptyString => false
  end.

(** [s] without its first [n] code units *)
Fixpoint skip (n : nat) (s : string) : string :=
  match n, s with
  | S n', String _ s' => skip n' s'
  | _, _ => s
  end.

(** [s.replace(p, r)] for a string [p] and a replacement [r] without [$]:
    the first occurrence of [p] in [s], if there is one, becomes [r]. *)
Fixpoint replace (s p r : string) : string :=
  if startsWith s p then r +:+ skip (String.length p) s
  else match s with
       | String c s' => String c (replace s' p r)
       | EmptyString => EmptyString
       end.

(** ** Loops *)

(** [for (const a of l) { ... await body(a) ... }], collecting what the
    iterations produce. *)
Fixpoint for_of {A B} (l : list A) (body : A → M B) : M (list B) :=
  match l with
  | [] => ret []
  | a :: l' =>
      b <- body a ;;
      bs <- for_of l' body ;;
      ret (b :: bs)
  end.

End Runtime.
Export Runtime.

(* ================================================================== *)
(** * utils/fileHandler.ts *)
(* ================================================================== *)

Module FileHandler.

Record t := {
  projectPath : string;
  enginePath : option string
}.

Section Methods.
Variable this : t.

(** Resolve path relative to project or engine *)
Definition resolvePath (filePath : string) : string :=
  if path_isAbsolute filePath then filePath
  else path_join (projectPath this) filePath.

(** Read and parse a JSON file *)
Definition readJson {T} `{Json T} (filePath : string) : M T :=
  let fullPath := resolvePath filePath in
  content <- fs_readFile fullPath ;;
  JSON_parse fullPath content.

(** Write JSON to file with pretty formatting *)
Definition writeJson {T} `{Json T} (filePath : string) (data : T) : M unit :=
  let fullPath := resolvePath filePath in
  fs_mkdir (path_dirname fullPath) ;;;
  fs_writeFile fullPath (to_doc data).


(** Check if file exists *)
Definition exists_ (filePath : string) : M bool :=
  try_catch
    (let fullPath := resolvePath filePath in
     fs_access fullPath ;;;
     ret true)
    (λ _, ret false).

(** Create backup of a file *)
Definition backup (filePath : string) : M string :=
  let fullPath := resolvePath filePath in
  let backupPath := fullPath +:+ ".bak" in
  fs_copyFile fullPath backupPath ;;;
  ret backupPath.

Definition getEnginePath : option string := enginePath this.
Definition getProjectPath : string := projectPath this.

(** [if (!this.enginePath) return null]: no path, or the empty string. *)
Definition resolveEnginePath (relativePath : string) : option string :=
  match enginePath this with
  | None => None
  | Some e => if decide (e = "") then None else Some (path_join e relativePath)
  end.
End Methods.

Section Listing.
Variable this : t.
Variable readdir : Readdir.

(** List files in directory with optional extension filter;
    [if (extension)] holds for a string that is given and not empty. *)
Definition listFiles (dirPath : string) (extension : option string) : M (list string) :=
  let fullPath := resolvePath this dirPath in
  try_catch
    (entries <- fs_readdir readdir fullPath ;;
     let files := dirent_name <$> filter (λ e, isFile e) entries in
     let files :=
       match extension with
       | Some ext => if decide (ext = "") then files else filter (λ f, endsWith f ext) files
       | None => files
       end in
     ret files)
    (λ _, ret []).

(** List directories in path *)
Definition listDirs (dirPath : string) : M (list string) :=
  let fullPath := resolvePath this dirPath in
  try_catch
    (entries <- fs_readdir readdir fullPath ;;
     ret (dirent_name <$> filter (λ e, isDirectory e) entries))
    (λ _, ret []).

End Listing.

End FileHandler.

(* ================================================================== *)
(** * Typed views of the database files *)
(* ================================================================== *)

Module Views.

(** What the tools use of every database record: it is stored as an
    [entity], and it has an [id] and a [name]. *)
Class Entity (R : Type) := {
  to_entity : R → entity;
  of_entity : entity → option R;
  ent_id : R → Z;
  ent_name : R → string
}.

#[export] Instance item_entity : Entity RPGItem := {|
  to_entity := EItem;
  of_entity e := match e with EItem r => Some r | _ => None end;
  ent_id := item_id;
  ent_name := item_name |}.

#[export] Instance skill_entity : Entity RPGSkill := {|
  to_entity := ESkill;
  of_entity e := match e with ESkill r => Some r | _ => None end;
  ent_id := skill_id;
  ent_name := skill_name |}.

#[export] Instance state_entity : Entity RPGState := {|
  to_entity := EState;
  of_entity e := match e with EState r => Some r | _ => None end;
  ent_id := state_id;
  ent_name := state_name |}.

#[export] Instance weapon_entity : Entity RPGWeapon := {|
  to_entity := EWeapon;
  of_entity e := match e with EWeapon r => Some r | _ => None end;
  ent_id := weapon_id;
  ent_name := weapon_name |}.

#[export] Instance armor_entity : Entity RPGArmor := {|
  to_entity := EArmor;
  of_entity e := match e with EArmor r => Some r | _ => None end;
  ent_id := armor_id;
  ent_name := armor_name |}.

#[export] Instance actor_entity : Entity RPGActor := {|
  to_entity := EActor;
  of_entity e := match e with EActor r => Some r | _ => None end;
  ent_id := actor_id;
  ent_name := actor_name |}.

#[export] Instance class_entity : Entity RPGClass := {|
  to_entity := EClass;
  of_entity e := match e with EClass r => Some r | _ => None end;
  ent_id := class_id;
  ent_name := class_name |}.

#[export] Instance enemy_entity : Entity RPGEnemy := {|
  to_entity := EEnemy;
  of_entity e := match e with EEnemy r => Some r | _ => None end;
  ent_id := enemy_id;
  ent_name := enemy_name |}.

#[export] Instance mapinfo_entity : Entity RPGMapInfo := {|
  to_entity := EMapInfo;
  of_entity e := match e with EMapInfo r => Some r | _ => None end;
  ent_id := mapinfo_id;
  ent_name := mapinfo_name |}.

(** [(R | null)[]]: every populated slot must hold a record of shape [R]. *)
Definition slot_to_doc {R} `{Entity R} (s : option R) : option entity := to_entity <$> s.

Definition slot_of_doc {R} `{Entity R} (s : option entity) : option (option R) :=
  match s with
  | None => Some None
  | Some e => Some <$> of_entity e
  end.

#[export] Instance array_json {R} `{Entity R} : Json (list (option R)) := {|
  to_doc l := DArray (slot_to_doc <$> l);
  of_doc d := match d with DArray l => mapM slot_of_doc l | _ => None end |}.

(** [unknown[]]: any array. *)
#[export] Instance unknown_array_json : Json (list (option entity)) := {|
  to_doc l := DArray l;
  of_doc d := match d with DArray l => Some l | _ => None end |}.

#[export] Instance map_json : Json RPGMap := {|
  to_doc m := DMap m;
  of_doc d := match d with DMap m => Some m | _ => None end |}.

#[export] Instance system_json : Json RPGSystem := {|
  to_doc s := DSystem s;
  of_doc d := match d with DSystem s => Some s | _ => None end |}.

(** [readJson<T>] of a value that the caller does not look into: the
    cast checks nothing, and every JSON value is returned. *)
#[export] Instance any_json : Json doc := {|
  to_doc d := d;
  of_doc d := Some d |}.

End Views.
Export Views.

(* ================================================================== *)
(** * utils/safeWriter.ts *)
(* ================================================================== *)

(** Modelled from the spec: the class [SafeWriter] of utils/safeWriter.ts,
    which every mutating tool calls, is not among the sources. Its entry
    points [writeToDatabase], [writeMap], [writePlugin] and
    [updatePluginsRegistry] are written here from the specification:
    backup-then-overwrite (section 4.3), the version bump and the map
    dual write (section 4.4), and the file names (section 6). They are
    built on the methods of [FileHandler], which are in the sources. *)
Module SafeWriter.

Record t := {
  fileHandler : FileHandler.t
}.

Section Methods.
Variable this : t.

(** Modelled from the spec: the write protocol of the missing SafeWriter.
    Section 4.3: "before overwriting target file T, copy T's current bytes
    to a sibling backup path T.bak (overwriting any previous backup), then
    write the new content to T. If T does not yet exist, skip the backup
    step. If the backup copy fails, abort before touching T." [write] is
    the write of the new content. *)
Definition atomicWrite (filePath : string) (write : M unit) : M unit :=
  present <- FileHandler.exists_ (fileHandler this) filePath ;;
  (if present : bool then FileHandler.backup (fileHandler this) filePath ;;; ret () else ret ()) ;;;
  write.

(** Modelled from the spec: the version bump of the missing SafeWriter.
    Section 4.4: "a read-modify-write of the system file's version counter
    (increment by 1)"; by section 4.5 ("every overwrite retains exactly
    one generation of history") this overwrite keeps a backup as every
    other. *)
Definition bumpVersion : M unit :=
  system <- FileHandler.readJson (T := RPGSystem) (fileHandler this) "data/System.json" ;;
  let system' := {|
    sys_gameTitle := sys_gameTitle system;
    sys_versionId := sys_versionId system + 1;
    sys_locale := sys_locale system;
    sys_partyMembers := sys_partyMembers system;
    sys_currencyUnit := sys_currencyUnit system;
    sys_startMapId := sys_startMapId system;
    sys_startX := sys_startX system;
    sys_startY := sys_startY system;
    sys_rest := sys_rest system |} in
  atomicWrite "data/System.json" (FileHandler.writeJson (fileHandler this) "data/System.json" system').

(** Modelled from the spec: [SafeWriter.writeToDatabase], missing from
    the sources. "Every successful write to a game-database file triggers
    [the bump]; this must happen strictly after the primary write
    succeeds". Database files live "under a data/ directory relative to
    project root". *)
Definition writeToDatabase {T} `{Json T} (filename : string) (data : T) : M unit :=
  let filePath := "data/" +:+ filename in
  atomicWrite filePath (FileHandler.writeJson (fileHandler this) filePath data) ;;;
  bumpVersion.

(** Modelled from the spec: [SafeWriter.writeMap], missing from the
    sources. "Write the map body first (it is inert until indexed), then
    append to the index, then bump the version." *)
Definition writeMap (id : Z) (body : RPGMap) (indexEntry : RPGMapInfo) : M unit :=
  let bodyPath := "data/" +:+ mapFilename id in
  atomicWrite bodyPath (FileHandler.writeJson (fileHandler this) bodyPath body) ;;;
  mapInfos <- FileHandler.readJson (T := list (option RPGMapInfo)) (fileHandler this) "data/MapInfos.json" ;;
  atomicWrite "data/MapInfos.json"
    (FileHandler.writeJson (fileHandler this) "data/MapInfos.json" (mapInfos ++ [Some indexEntry])) ;;;
  bumpVersion.



End Methods.
End SafeWriter.

(* ================================================================== *)
(** * What the tool modules share *)
(* ================================================================== *)

Module Common.

(** The double quote of the message templates. *)
Definition dq : string := String "034"%char EmptyString.

(** [${n}] for an array length or an identifier. *)
Definition show_nat (n : nat) : string := pretty (Z.of_nat n).
Definition show_pos (p : positive) : string := pretty (Z.pos p).

(** [arr.filter((i): i is R => i !== null && i.name !== "")]: the slot is
    kept when it is populated and its name is not the empty string. *)
Definition keep {R} `{Entity R} (i : option R) : option R :=
  match i with
  | Some r => if decide (ent_name r = "") then None else Some r
  | None => None
  end.

Definition named {R} `{Entity R} (arr : list (option R)) : list R := omap keep arr.

(** [arr[i]] is [undefined] ([None]) past the end, [null] ([Some None])
    on an empty slot, a record otherwise. *)
Definition is_null {R} (x : option (option R)) : bool :=
  match x with Some None => true | _ => false end.

(** [!x]: [null] and [undefined] are falsy, a record is truthy. *)
Definition falsy {R} (x : option (option R)) : bool :=
  match x with Some (Some _) => false | _ => true end.

(** [if (v !== undefined) target.field = v] *)
Definition assign {A} (v : option A) (old : A) : A := default old v.

(** A property of an object literal whose value may be [undefined]:
    [JSON.stringify] leaves such a property out. *)
Definition prop (k : string) (v : option json) : list (string * json) :=
  match v with
  | Some j => [(k, j)]
  | None => []
  end.

End Common.
Export Common.

(* ================================================================== *)
(** * tools/itemTools.ts *)
(* ================================================================== *)

Module ItemTools.

Inductive itemKind := regular | key.

(** createItemSchema, after defaults *)
Record createItemArgs := {
  ci_name : string;
  ci_description : string;
  ci_price : Z;
  ci_type : itemKind;
  ci_hpRecoveryPercent : Qc;
  ci_hpRecoveryFixed : Z;
  ci_mpRecoveryPercent : Qc;
  ci_mpRecoveryFixed : Z;
  ci_addStateId : Z;
  ci_iconIndex : Z
}.

(** The bounds that createItemSchema puts on the recovery arguments:
    [min(0).max(100)] on the percentages, [min(0)] on the others. *)
Definition createItemSchema_recovery (args : createItemArgs) : Prop :=
  (0 ≤ ci_hpRecoveryPercent args ≤ Qc_of_Z 100)%Qc ∧
  0 ≤ ci_hpRecoveryFixed args ∧
  (0 ≤ ci_mpRecoveryPercent args ≤ Qc_of_Z 100)%Qc ∧
  0 ≤ ci_mpRecoveryFixed args ∧
  0 ≤ ci_addStateId args.

(** updateItemSchema: [id] is [z.number().int().min(1)] *)
Record updateItemArgs := {
  ui_id : positive;
  ui_name : option string;
  ui_description : option string;
  ui_price : option Z;
  ui_iconIndex : option Z
}.

Definition createDefaultDamage : RPGDamage := {|
  dmg_type := DamageType.None;
  dmg_elementId := 0;
  dmg_formula := "0";
  dmg_variance := 20;
  dmg_critical := false |}.

Definition createDefaultItem (id : Z) : RPGItem := {|
  item_id := id;
  item_name := "";
  item_description := "";
  item_iconIndex := 0;
  item_price := 0;
  item_itypeId := ItemType.Regular;
  item_consumable := true;
  item_scope := Scope.OneAlly;
  item_occasion := Occasion.Always;
  item_animationId := 0;
  item_damage := createDefaultDamage;
  item_effects := [];
  item_hitType := 0;
  item_repeats := 1;
  item_speed := 0;
  item_successRate := 100;
  item_tpGain := 0;
  item_note := "" |}.

(** The three conditional [newItem.effects.push(effect)] of create_item,
    in their order. *)
Definition recoveryEffects (args : createItemArgs) : list RPGEffect :=
  (if bool_decide (0 < ci_hpRecoveryPercent args)%Qc || bool_decide (0 < ci_hpRecoveryFixed args)
   then [ {| eff_code := EffectCode.RecoverHP; eff_dataId := 0;
             eff_value1 := (ci_hpRecoveryPercent args / Qc_of_Z 100)%Qc;
             eff_value2 := ci_hpRecoveryFixed args |} ]
   else [])
  ++
  (if bool_decide (0 < ci_mpRecoveryPercent args)%Qc || bool_decide (0 < ci_mpRecoveryFixed args)
   then [ {| eff_code := EffectCode.RecoverMP; eff_dataId := 0;
             eff_value1 := (ci_mpRecoveryPercent args / Qc_of_Z 100)%Qc;
             eff_value2 := ci_mpRecoveryFixed args |} ]
   else [])
  ++
  (if bool_decide (0 < ci_addStateId args)
   then [ {| eff_code := EffectCode.AddState; eff_dataId := ci_addStateId args;
             eff_value1 := 1%Qc; eff_value2 := 0 |} ]
   else []).

(** [newItem] of create_item once every assignment is done. *)
Definition newItem (newId : Z) (args : createItemArgs) : RPGItem :=
  let d := createDefaultItem newId in
  let effects := item_effects d ++ recoveryEffects args in
  {| item_id := item_id d;
     item_name := ci_name args;
     item_description := ci_description args;
     item_iconIndex := ci_iconIndex args;
     item_price := ci_price args;
     item_itypeId := match ci_type args with key => ItemType.KeyItem | regular => ItemType.Regular end;
     item_consumable := item_consumable d;
     item_scope := if decide (0 < length effects)%nat then Scope.OneAlly else item_scope d;
     item_occasion := if decide (0 < length effects)%nat then Occasion.Always else item_occasion d;
     item_animationId := item_animationId d;
     item_damage := item_damage d;
     item_effects := effects;
     item_hitType := item_hitType d;
     item_repeats := item_repeats d;
     item_speed := item_speed d;
     item_successRate := item_successRate d;
     item_tpGain := item_tpGain d;
     item_note := item_note d |}.

(** The four conditional field assignments of update_item. *)
Definition updatedItem (item : RPGItem) (args : updateItemArgs) : RPGItem :=
  {| item_id := item_id item;
     item_name := assign (ui_name args) (item_name item);
     item_description := assign (ui_description args) (item_description item);
     item_iconIndex := assign (ui_iconIndex args) (item_iconIndex item);
     item_price := assign (ui_price args) (item_price item);
     item_itypeId := item_itypeId item;
     item_consumable := item_consumable item;
     item_scope := item_scope item;
     item_occasion := item_occasion item;
     item_animationId := item_animationId item;
     item_damage := item_damage item;
     item_effects := item_effects item;
     item_hitType := item_hitType item;
     item_repeats := item_repeats item;
     item_speed := item_speed item;
     item_successRate := item_successRate item;
     item_tpGain := item_tpGain item;
     item_note := item_note item |}.

Definition itemSummary (i : RPGItem) : json :=
  JObj [ ("id", JNum (item_id i));
         ("name", JStr (item_name i));
         ("description", JStr (item_description i));
         ("price", JNum (item_price i));
         ("iconIndex", JNum (item_iconIndex i));
         ("type", JStr (if decide (item_itypeId i = ItemType.KeyItem) then "key" else "regular")) ].

Section Tools.
Variable fileHandler : FileHandler.t.
Variable safeWriter : SafeWriter.t.

(** get_items - List all items *)
Definition get_items : World → World * ToolResult :=
  handler (
    items <- FileHandler.readJson (T := list (option RPGItem)) fileHandler "data/Items.json" ;;
    let itemList := itemSummary <$> named items in
    ret (success (Stringified (JArr itemList)))).

(** create_item - Create a new item *)
Definition create_item (args : createItemArgs) : World → World * ToolResult :=
  handler (
    items <- FileHandler.readJson (T := list (option RPGItem)) fileHandler "data/Items.json" ;;
    let newId := length items in
    let items := items ++ [Some (newItem (Z.of_nat newId) args)] in
    SafeWriter.writeToDatabase safeWriter "Items.json" items ;;;
    ret (success (Plain ("Created item " +:+ dq +:+ ci_name args +:+ dq +:+
                         " with ID " +:+ show_nat newId)))).

(** update_item - Update an existing item *)
Definition update_item (args : updateItemArgs) : World → World * ToolResult :=
  handler (
    let id := Pos.to_nat (ui_id args) in
    items <- FileHandler.readJson (T := list (option RPGItem)) fileHandler "data/Items.json" ;;
    if bool_decide (length items ≤ id)%nat || is_null (items !! id) then
      ret (failure (Plain ("Error: Item with ID " +:+ show_pos (ui_id args) +:+ " not found")))
    else
      match items !! id with
      | Some (Some item) =>
          (* the record is mutated in place, inside the array *)
          let items := <[id := Some (updatedItem item args)]> items in
          SafeWriter.writeToDatabase safeWriter "Items.json" items ;;;
          ret (success (Plain ("Updated item ID " +:+ show_pos (ui_id args))))
      | _ => throw TypeError
      end).

End Tools.
End ItemTools.

(* ================================================================== *)
(** * tools/skillTools.ts *)
(* ================================================================== *)

Module SkillTools.

(** createSkillSchema, after defaults *)
Record createSkillArgs := {
  cs_name : string;
  cs_description : string;
  cs_mpCost : Z;
  cs_tpCost : Z;
  cs_iconIndex : Z;
  cs_scope : Z;
  cs_damageType : Z;
  cs_damageFormula : string
}.

Definition createDefaultDamage : RPGDamage := {|
  dmg_type := DamageType.HPDamage;
  dmg_elementId := 0;
  dmg_formula := "a.atk * 4 - b.def * 2";
  dmg_variance := 20;
  dmg_critical := false |}.

Definition createDefaultSkill (id : Z) : RPGSkill := {|
  skill_id := id;
  skill_name := "";
  skill_description := "";
  skill_iconIndex := 0;
  skill_stypeId := 1;
  skill_scope := Scope.OneEnemy;
  skill_occasion := Occasion.Battle;
  skill_mpCost := 0;
  skill_tpCost := 0;
  skill_damage := createDefaultDamage;
  skill_effects := [];
  skill_requiredWtypeId1 := 0;
  skill_requiredWtypeId2 := 0;
  skill_speed := 0;
  skill_successRate := 100;
  skill_repeats := 1;
  skill_tpGain := 0;
  skill_hitType := 1;
  skill_animationId := 0;
  skill_message1 := "";
  skill_message2 := "";
  skill_note := "" |}.

(** [newSkill] of create_skill once every assignment is done. *)
Definition newSkill (newId : Z) (args : createSkillArgs) : RPGSkill :=
  let d := createDefaultSkill newId in
  {| skill_id := skill_id d;
     skill_name := cs_name args;
     skill_description := cs_description args;
     skill_iconIndex := cs_iconIndex args;
     skill_stypeId := skill_stypeId d;
     skill_scope := cs_scope args;
     skill_occasion := skill_occasion d;
     skill_mpCost := cs_mpCost args;
     skill_tpCost := cs_tpCost args;
     skill_damage := {| dmg_type := cs_damageType args;
                        dmg_elementId := dmg_elementId (skill_damage d);
                        dmg_formula := cs_damageFormula args;
                        dmg_variance := dmg_variance (skill_damage d);
                        dmg_critical := dmg_critical (skill_damage d) |};
     skill_effects := skill_effects d;
     skill_requiredWtypeId1 := skill_requiredWtypeId1 d;
     skill_requiredWtypeId2 := skill_requiredWtypeId2 d;
     skill_speed := skill_speed d;
     skill_successRate := skill_successRate d;
     skill_repeats := skill_repeats d;
     skill_tpGain := skill_tpGain d;
     skill_hitType := skill_hitType d;
     skill_animationId := skill_animationId d;
     skill_message1 := skill_message1 d;
     skill_message2 := skill_message2 d;
     skill_note := skill_note d |}.

Definition skillSummary (s : RPGSkill) : json :=
  JObj [ ("id", JNum (skill_id s));
         ("name", JStr (skill_name s));
         ("description", JStr (skill_description s));
         ("mpCost", JNum (skill_mpCost s));
         ("tpCost", JNum (skill_tpCost s));
         ("iconIndex", JNum (skill_iconIndex s)) ].

Section Tools.
Variable fileHandler : FileHandler.t.
Variable safeWriter : SafeWriter.t.

(** get_skills - List all skills *)
Definition get_skills : World → World * ToolResult :=
  handler (
    skills <- FileHandler.readJson (T := list (option RPGSkill)) fileHandler "data/Skills.json" ;;
    let skillList := skillSummary <$> named skills in
    ret (success (Stringified (JArr skillList)))).

(** create_skill - Create a new skill *)
Definition create_skill (args : createSkillArgs) : World → World * ToolResult :=
  handler (
    skills <- FileHandler.readJson (T := list (option RPGSkill)) fileHandler "data/Skills.json" ;;
    let newId := length skills in
    let skills := skills ++ [Some (newSkill (Z.of_nat newId) args)] in
    SafeWriter.writeToDatabase safeWriter "Skills.json" skills ;;;
    ret (success (Plain ("Created skill " +:+ dq +:+ cs_name args +:+ dq +:+
                         " with ID " +:+ show_nat newId)))).

End Tools.
End SkillTools.

(* ================================================================== *)
(** * tools/stateTools.ts *)
(* ================================================================== *)

Module StateTools.

(** createStateSchema, after defaults *)
Record createStateArgs := {
  cst_name : string;
  cst_iconIndex : Z;
  cst_restriction : Z;
  cst_priority : Z;
  cst_minTurns : Z;
  cst_maxTurns : Z;
  cst_autoRemovalTiming : Z;
  cst_chanceByDamage : Z;
  cst_removeAtBattleEnd : bool;
  cst_regenerateMpRate : Qc
}.

(** updateStateSchema *)
Record updateStateArgs := {
  ust_id : positive;
  ust_name : option string;
  ust_iconIndex : option Z;
  ust_minTurns : option Z;
  ust_maxTurns : option Z
}.

Definition createDefaultState (id : Z) : RPGState := {|
  state_id := id;
  state_name := "";
  state_iconIndex := 0;
  state_restriction := 0;
  state_priority := 50;
  state_motion := 0;
  state_overlay := 0;
  state_removeAtBattleEnd := true;
  state_removeByRestriction := false;
  state_autoRemovalTiming := 0;
  state_minTurns := 1;
  state_maxTurns := 1;
  state_removeByDamage := false;
  state_chanceByDamage := 0;
  state_removeByWalking := false;
  state_stepsToRemove := 100;
  state_message1 := "";
  state_message2 := "";
  state_message3 := "";
  state_message4 := "";
  state_traits := [];
  state_note := "" |}.

(** [newState] of create_state once every assignment is done. *)
Definition newState (newId : Z) (args : createStateArgs) : RPGState :=
  let d := createDefaultState newId in
  {| state_id := state_id d;
     state_name := cst_name args;
     state_iconIndex := cst_iconIndex args;
     state_restriction := cst_restriction args;
     state_priority := cst_priority args;
     state_motion := state_motion d;
     state_overlay := state_overlay d;
     state_removeAtBattleEnd := cst_removeAtBattleEnd args;
     state_removeByRestriction := state_removeByRestriction d;
     state_autoRemovalTiming := cst_autoRemovalTiming args;
     state_minTurns := cst_minTurns args;
     state_maxTurns := cst_maxTurns args;
     state_removeByDamage :=
       if bool_decide (0 < cst_chanceByDamage args) then true else state_removeByDamage d;
     state_chanceByDamage :=
       if bool_decide (0 < cst_chanceByDamage args) then cst_chanceByDamage args
       else state_chanceByDamage d;
     state_removeByWalking := state_removeByWalking d;
     state_stepsToRemove := state_stepsToRemove d;
     state_message1 := state_message1 d;
     state_message2 := state_message2 d;
     state_message3 := state_message3 d;
     state_message4 := state_message4 d;
     state_traits :=
       state_traits d ++
       (if bool_decide (cst_regenerateMpRate args ≠ 0%Qc)
        then [ {| trait_code := 22; trait_dataId := 3;
                  trait_value := (cst_regenerateMpRate args / Qc_of_Z 100)%Qc |} ]
        else []);
     state_note := state_note d |}.

(** The four conditional field assignments of update_state. *)
Definition updatedState (state : RPGState) (args : updateStateArgs) : RPGState :=
  {| state_id := state_id state;
     state_name := assign (ust_name args) (state_name state);
     state_iconIndex := assign (ust_iconIndex args) (state_iconIndex state);
     state_restriction := state_restriction state;
     state_priority := state_priority state;
     state_motion := state_motion state;
     state_overlay := state_overlay state;
     state_removeAtBattleEnd := state_removeAtBattleEnd state;
     state_removeByRestriction := state_removeByRestriction state;
     state_autoRemovalTiming := state_autoRemovalTiming state;
     state_minTurns := assign (ust_minTurns args) (state_minTurns state);
     state_maxTurns := assign (ust_maxTurns args) (state_maxTurns state);
     state_removeByDamage := state_removeByDamage state;
     state_chanceByDamage := state_chanceByDamage state;
     state_removeByWalking := state_removeByWalking state;
     state_stepsToRemove := state_stepsToRemove state;
     state_message1 := state_message1 state;
     state_message2 := state_message2 state;
     state_message3 := state_message3 state;
     state_message4 := state_message4 state;
     state_traits := state_traits state;
     state_note := state_note state |}.

Definition stateSummary (s : RPGState) : json :=
  JObj [ ("id", JNum (state_id s));
         ("name", JStr (state_name s));
         ("iconIndex", JNum (state_iconIndex s));
         ("restriction", JNum (state_restriction s));
         ("duration", JStr (pretty (state_minTurns s) +:+ "-" +:+
                            pretty (state_maxTurns s) +:+ " turns")) ].

Section Tools.
Variable fileHandler : FileHandler.t.
Variable safeWriter : SafeWriter.t.

(** get_states - List all states *)
Definition get_states : World → World * ToolResult :=
  handler (
    states <- FileHandler.readJson (T := list (option RPGState)) fileHandler "data/States.json" ;;
    let stateList := stateSummary <$> named states in
    ret (success (Stringified (JArr stateList)))).

(** create_state - Create a new state *)
Definition create_state (args : createStateArgs) : World → World * ToolResult :=
  handler (
    states <- FileHandler.readJson (T := list (option RPGState)) fileHandler "data/States.json" ;;
    let newId := length states in
    let states := states ++ [Some (newState (Z.of_nat newId) args)] in
    SafeWriter.writeToDatabase safeWriter "States.json" states ;;;
    ret (success (Plain ("Created state " +:+ dq +:+ cst_name args +:+ dq +:+
                         " with ID " +:+ show_nat newId)))).

(** update_state - Update an existing state *)
Definition update_state (args : updateStateArgs) : World → World * ToolResult :=
  handler (
    let id := Pos.to_nat (ust_id args) in
    states <- FileHandler.readJson (T := list (option RPGState)) fileHandler "data/States.json" ;;
    if bool_decide (length states ≤ id)%nat || falsy (states !! id) then
      ret (failure (Plain ("Error: State ID " +:+ show_pos (ust_id args) +:+ " not found")))
    else
      match states !! id with
      | Some (Some state) =>
          let state := updatedState state args in
          let states := <[id := Some state]> states in
          SafeWriter.writeToDatabase safeWriter "States.json" states ;;;
          ret (success (Plain ("Updated state " +:+ dq +:+ state_name state +:+ dq +:+
                               " (ID " +:+ show_pos (ust_id args) +:+ ")")))
      | _ => throw TypeError
      end).

End Tools.
End StateTools.

(* ================================================================== *)
(** * tools/weaponTools.ts *)
(* ================================================================== *)

Module WeaponTools.

(** createWeaponSchema, after defaults *)
Record createWeaponArgs := {
  cw_name : string;
  cw_description : string;
  cw_price : Z;
  cw_wtypeId : Z;
  cw_attack : Z;
  cw_elementId : Z;
  cw_iconIndex : Z;
  cw_animationId : Z
}.

Definition createDefaultWeapon (id : Z) : RPGWeapon := {|
  weapon_id := id;
  weapon_name := "";
  weapon_description := "";
  weapon_iconIndex := 0;
  weapon_price := 0;
  weapon_wtypeId := 1;
  weapon_etypeId := 1;
  weapon_params := [0; 0; 0; 0; 0; 0; 0; 0];
  weapon_traits := [];
  weapon_animationId := 0;
  weapon_note := "" |}.

(** [newWeapon] of create_weapon once every assignment is done;
    [params[2] = attack] is within the eight default parameters. *)
Definition newWeapon (newId : Z) (args : createWeaponArgs) : RPGWeapon :=
  let d := createDefaultWeapon newId in
  {| weapon_id := weapon_id d;
     weapon_name := cw_name args;
     weapon_description := cw_description args;
     weapon_iconIndex := cw_iconIndex args;
     weapon_price := cw_price args;
     weapon_wtypeId := cw_wtypeId args;
     weapon_etypeId := weapon_etypeId d;
     weapon_params := <[2%nat := cw_attack args]> (weapon_params d);
     weapon_traits :=
       weapon_traits d ++
       (if bool_decide (0 < cw_elementId args)
        then [ {| trait_code := 31; trait_dataId := cw_elementId args; trait_value := 1%Qc |} ]
        else []);
     weapon_animationId := cw_animationId args;
     weapon_note := weapon_note d |}.

(** [attack: w.params[2]]: the property is missing when [params] is
    shorter. *)
Definition weaponSummary (w : RPGWeapon) : json :=
  JObj ([ ("id", JNum (weapon_id w));
          ("name", JStr (weapon_name w));
          ("description", JStr (weapon_description w));
          ("price", JNum (weapon_price w)) ] ++
        prop "attack" (JNum <$> weapon_params w !! 2%nat) ++
        [ ("wtypeId", JNum (weapon_wtypeId w));
          ("iconIndex", JNum (weapon_iconIndex w)) ]).

Section Tools.
Variable fileHandler : FileHandler.t.
Variable safeWriter : SafeWriter.t.

(** update_weapon is left out: [weapon.params[2] = attack] on a shorter
    [params] leaves holes, which [list Z] does not hold. *)

(** get_weapons - List all weapons *)
Definition get_weapons : World → World * ToolResult :=
  handler (
    weapons <- FileHandler.readJson (T := list (option RPGWeapon)) fileHandler "data/Weapons.json" ;;
    let weaponList := weaponSummary <$> named weapons in
    ret (success (Stringified (JArr weaponList)))).

(** create_weapon - Create a new weapon *)
Definition create_weapon (args : createWeaponArgs) : World → World * ToolResult :=
  handler (
    weapons <- FileHandler.readJson (T := list (option RPGWeapon)) fileHandler "data/Weapons.json" ;;
    let newId := length weapons in
    let weapons := weapons ++ [Some (newWeapon (Z.of_nat newId) args)] in
    SafeWriter.writeToDatabase safeWriter "Weapons.json" weapons ;;;
    ret (success (Plain ("Created weapon " +:+ dq +:+ cw_name args +:+ dq +:+
                         " with ID " +:+ show_nat newId)))).

End Tools.
End WeaponTools.

(* ================================================================== *)
(** * tools/enemyTools.ts *)
(* ================================================================== *)

Module EnemyTools.

(** createEnemySchema, after defaults; [battlerName] is optional *)
Record createEnemyArgs := {
  ce_name : string;
  ce_maxHp : Z;
  ce_maxMp : Z;
  ce_atk : Z;
  ce_def : Z;
  ce_mat : Z;
  ce_mdf : Z;
  ce_agi : Z;
  ce_luk : Z;
  ce_exp : Z;
  ce_gold : Z;
  ce_battlerName : option string;
  ce_battlerHue : Z
}.

Definition createDefaultEnemy (id : Z) : RPGEnemy := {|
  enemy_id := id;
  enemy_name := "";
  enemy_battlerName := "";
  enemy_battlerHue := 0;
  enemy_params := [100; 0; 10; 10; 10; 10; 10; 10];
  enemy_exp := 0;
  enemy_gold := 0;
  enemy_dropItems :=
    [ {| drop_kind := 0; drop_dataId := 1; drop_denominator := 1 |};
      {| drop_kind := 0; drop_dataId := 1; drop_denominator := 1 |};
      {| drop_kind := 0; drop_dataId := 1; drop_denominator := 1 |} ];
  enemy_actions := [];
  enemy_traits := [];
  enemy_note := "" |}.

(** [newEnemy] of create_enemy once every assignment is done;
    [if (battlerName)] holds for a string that is given and not empty. *)
Definition newEnemy (newId : Z) (args : createEnemyArgs) : RPGEnemy :=
  let d := createDefaultEnemy newId in
  {| enemy_id := enemy_id d;
     enemy_name := ce_name args;
     enemy_battlerName :=
       match ce_battlerName args with
       | Some b => if decide (b = "") then enemy_battlerName d else b
       | None => enemy_battlerName d
       end;
     enemy_battlerHue := ce_battlerHue args;
     enemy_params := [ce_maxHp args; ce_maxMp args; ce_atk args; ce_def args;
                      ce_mat args; ce_mdf args; ce_agi args; ce_luk args];
     enemy_exp := ce_exp args;
     enemy_gold := ce_gold args;
     enemy_dropItems := enemy_dropItems d;
     enemy_actions := enemy_actions d;
     enemy_traits := enemy_traits d;
     enemy_note := enemy_note d |}.

Definition enemySummary (e : RPGEnemy) : json :=
  JObj [ ("id", JNum (enemy_id e));
         ("name", JStr (enemy_name e));
         ("stats", JObj (prop "hp" (JNum <$> enemy_params e !! 0%nat) ++
                         prop "atk" (JNum <$> enemy_params e !! 2%nat) ++
                         prop "def" (JNum <$> enemy_params e !! 3%nat)));
         ("rewards", JObj [ ("exp", JNum (enemy_exp e)); ("gold", JNum (enemy_gold e)) ]);
         ("battler", JStr (enemy_battlerName e)) ].

Section Tools.
Variable fileHandler : FileHandler.t.
Variable safeWriter : SafeWriter.t.

(** update_enemy is left out: [enemy.params[i] = v] on a shorter [params]
    leaves holes, which [list Z] does not hold. *)

(** get_enemies - List all enemies *)
Definition get_enemies : World → World * ToolResult :=
  handler (
    enemies <- FileHandler.readJson (T := list (option RPGEnemy)) fileHandler "data/Enemies.json" ;;
    let enemyList := enemySummary <$> named enemies in
    ret (success (Stringified (JArr enemyList)))).

(** create_enemy - Create a new enemy *)
Definition create_enemy (args : createEnemyArgs) : World → World * ToolResult :=
  handler (
    enemies <- FileHandler.readJson (T := list (option RPGEnemy)) fileHandler "data/Enemies.json" ;;
    let newId := length enemies in
    let enemies := enemies ++ [Some (newEnemy (Z.of_nat newId) args)] in
    SafeWriter.writeToDatabase safeWriter "Enemies.json" enemies ;;;
    ret (success (Plain ("Created enemy " +:+ dq +:+ ce_name args +:+ dq +:+
                         " with ID " +:+ show_nat newId)))).

End Tools.
End EnemyTools.

(* ================================================================== *)
(** * tools/armorTools.ts *)
(* ================================================================== *)

Module ArmorTools.

(** createArmorSchema, after defaults *)
Record createArmorArgs := {
  ca_name : string;
  ca_description : string;
  ca_price : Z;
  ca_atypeId : Z;
  ca_etypeId : Z;
  ca_def : Z;
  ca_mdf : Z;
  ca_agi : Z;
  ca_iconIndex : Z
}.

Definition createDefaultArmor (id : Z) : RPGArmor := {|
  armor_id := id;
  armor_name := "";
  armor_description := "";
  armor_iconIndex := 0;
  armor_price := 0;
  armor_atypeId := 1;
  armor_etypeId := 2;
  armor_params := [0; 0; 0; 0; 0; 0; 0; 0];
  armor_traits := [];
  armor_note := "" |}.

(** [newArmor] of create_armor once every assignment is done; the three
    indices written are within the eight default parameters. *)
Definition newArmor (newId : Z) (args : createArmorArgs) : RPGArmor :=
  let d := createDefaultArmor newId in
  {| armor_id := armor_id d;
     armor_name := ca_name args;
     armor_description := ca_description args;
     armor_iconIndex := ca_iconIndex args;
     armor_price := ca_price args;
     armor_atypeId := ca_atypeId args;
     armor_etypeId := ca_etypeId args;
     armor_params :=
       <[6%nat := ca_agi args]> (<[5%nat := ca_mdf args]> (<[3%nat := ca_def args]> (armor_params d)));
     armor_traits := armor_traits d;
     armor_note := armor_note d |}.

Definition armorSummary (a : RPGArmor) : json :=
  JObj [ ("id", JNum (armor_id a));
         ("name", JStr (armor_name a));
         ("description", JStr (armor_description a));
         ("price", JNum (armor_price a));
         ("stats", JObj (prop "def" (JNum <$> armor_params a !! 3%nat) ++
                         prop "mdf" (JNum <$> armor_params a !! 5%nat) ++
                         prop "agi" (JNum <$> armor_params a !! 6%nat)));
         ("etypeId", JNum (armor_etypeId a));
         ("iconIndex", JNum (armor_iconIndex a)) ].

Section Tools.
Variable fileHandler : FileHandler.t.
Variable safeWriter : SafeWriter.t.

(** update_armor is left out: [armor.params[i] = v] on a shorter [params]
    leaves holes, which [list Z] does not hold. *)

(** get_armors - List all armors *)
Definition get_armors : World → World * ToolResult :=
  handler (
    armors <- FileHandler.readJson (T := list (option RPGArmor)) fileHandler "data/Armors.json" ;;
    let armorList := armorSummary <$> named armors in
    ret (success (Stringified (JArr armorList)))).

(** create_armor - Create a new armor *)
Definition create_armor (args : createArmorArgs) : World → World * ToolResult :=
  handler (
    armors <- FileHandler.readJson (T := list (option RPGArmor)) fileHandler "data/Armors.json" ;;
    let newId := length armors in
    let armors := armors ++ [Some (newArmor (Z.of_nat newId) args)] in
    SafeWriter.writeToDatabase safeWriter "Armors.json" armors ;;;
    ret (success (Plain ("Created armor " +:+ dq +:+ ca_name args +:+ dq +:+
                         " with ID " +:+ show_nat newId)))).

End Tools.
End ArmorTools.

(* ================================================================== *)
(** * tools/actorTools.ts *)
(* ================================================================== *)

Module ActorTools.

(** createActorSchema, after defaults *)
Record createActorArgs := {
  cac_name : string;
  cac_nickname : string;
  cac_classId : Z;
  cac_initialLevel : Z;
  cac_maxLevel : Z;
  cac_profile : string;
  cac_characterName : string;
  cac_characterIndex : Z;
  cac_faceName : string;
  cac_faceIndex : Z
}.

(** updateActorSchema *)
Record updateActorArgs := {
  uac_id : positive;
  uac_name : option string;
  uac_nickname : option string;
  uac_classId : option Z;
  uac_initialLevel : option Z;
  uac_maxLevel : option Z;
  uac_profile : option string;
  uac_characterName : option string;
  uac_faceName : option string
}.

Definition createDefaultActor (id : Z) : RPGActor := {|
  actor_id := id;
  actor_name := "";
  actor_nickname := "";
  actor_classId := 1;
  actor_initialLevel := 1;
  actor_maxLevel := 99;
  actor_characterName := "";
  actor_characterIndex := 0;
  actor_faceName := "";
  actor_faceIndex := 0;
  actor_battlerName := "";
  actor_equips := [0; 0; 0; 0; 0];
  actor_profile := "";
  actor_note := "" |}.

(** [newActor] of create_actor once every assignment is done. *)
Definition newActor (newId : Z) (args : createActorArgs) : RPGActor :=
  let d := createDefaultActor newId in
  {| actor_id := actor_id d;
     actor_name := cac_name args;
     actor_nickname := cac_nickname args;
     actor_classId := cac_classId args;
     actor_initialLevel := cac_initialLevel args;
     actor_maxLevel := cac_maxLevel args;
     actor_characterName := cac_characterName args;
     actor_characterIndex := cac_characterIndex args;
     actor_faceName := cac_faceName args;
     actor_faceIndex := cac_faceIndex args;
     actor_battlerName := actor_battlerName d;
     actor_equips := actor_equips d;
     actor_profile := cac_profile args;
     actor_note := actor_note d |}.

(** The eight conditional field assignments of update_actor. *)
Definition updatedActor (actor : RPGActor) (args : updateActorArgs) : RPGActor :=
  {| actor_id := actor_id actor;
     actor_name := assign (uac_name args) (actor_name actor);
     actor_nickname := assign (uac_nickname args) (actor_nickname actor);
     actor_classId := assign (uac_classId args) (actor_classId actor);
     actor_initialLevel := assign (uac_initialLevel args) (actor_initialLevel actor);
     actor_maxLevel := assign (uac_maxLevel args) (actor_maxLevel actor);
     actor_characterName := assign (uac_characterName args) (actor_characterName actor);
     actor_characterIndex := actor_characterIndex actor;
     actor_faceName := assign (uac_faceName args) (actor_faceName actor);
     actor_faceIndex := actor_faceIndex actor;
     actor_battlerName := actor_battlerName actor;
     actor_equips := actor_equips actor;
     actor_profile := assign (uac_profile args) (actor_profile actor);
     actor_note := actor_note actor |}.

Definition actorSummary (a : RPGActor) : json :=
  JObj [ ("id", JNum (actor_id a));
         ("name", JStr (actor_name a));
         ("nickname", JStr (actor_nickname a));
         ("classId", JNum (actor_classId a));
         ("levelRaw", JStr (pretty (actor_initialLevel a) +:+ " / " +:+ pretty (actor_maxLevel a)));
         ("graphics", JObj [ ("character", JStr (actor_characterName a));
                             ("face", JStr (actor_faceName a)) ]) ].

Section Tools.
Variable fileHandler : FileHandler.t.
Variable safeWriter : SafeWriter.t.

(** get_actors - List all actors: [filter((a): a is RPGActor => a !== null)] *)
Definition get_actors : World → World * ToolResult :=
  handler (
    actors <- FileHandler.readJson (T := list (option RPGActor)) fileHandler "data/Actors.json" ;;
    let actorList := actorSummary <$> omap id actors in
    ret (success (Stringified (JArr actorList)))).

(** create_actor - Create a new actor *)
Definition create_actor (args : createActorArgs) : World → World * ToolResult :=
  handler (
    actors <- FileHandler.readJson (T := list (option RPGActor)) fileHandler "data/Actors.json" ;;
    let newId := length actors in
    let actors := actors ++ [Some (newActor (Z.of_nat newId) args)] in
    SafeWriter.writeToDatabase safeWriter "Actors.json" actors ;;;
    ret (success (Plain ("Created actor " +:+ dq +:+ cac_name args +:+ dq +:+
                         " with ID " +:+ show_nat newId)))).

(** update_actor - Update an existing actor *)
Definition update_actor (args : updateActorArgs) : World → World * ToolResult :=
  handler (
    let id := Pos.to_nat (uac_id args) in
    actors <- FileHandler.readJson (T := list (option RPGActor)) fileHandler "data/Actors.json" ;;
    if bool_decide (length actors ≤ id)%nat || falsy (actors !! id) then
      ret (failure (Plain ("Error: Actor ID " +:+ show_pos (uac_id args) +:+ " not found")))
    else
      match actors !! id with
      | Some (Some actor) =>
          let actor := updatedActor actor args in
          let actors := <[id := Some actor]> actors in
          SafeWriter.writeToDatabase safeWriter "Actors.json" actors ;;;
          ret (success (Plain ("Updated actor " +:+ dq +:+ actor_name actor +:+ dq +:+
                               " (ID " +:+ show_pos (uac_id args) +:+ ")")))
      | _ => throw TypeError
      end).

End Tools.
End ActorTools.

(* ================================================================== *)
(** * tools/classTools.ts *)
(* ================================================================== *)

Module ClassTools.

(** createClassSchema, after defaults (the handler reads three of them) *)
Record createClassArgs := {
  ccl_name : string;
  ccl_expBase : Z;
  ccl_expAccel : Z;
  ccl_maxHp : Z;
  ccl_maxMp : Z;
  ccl_atk : Z;
  ccl_def : Z
}.

(** updateClassSchema *)
Record updateClassArgs := {
  ucl_id : positive;
  ucl_name : option string
}.

Definition createDefaultClass (id : Z) : RPGClass := {|
  class_id := id;
  class_name := "";
  class_expParams := [30; 20; 30; 30];
  class_params :=
    [ replicate 100 100; replicate 100 100;
      replicate 100 10; replicate 100 10; replicate 100 10;
      replicate 100 10; replicate 100 10; replicate 100 10 ];
  class_learnings := [];
  class_traits := [];
  class_note := "" |}.

(** [newClass] of create_class once every assignment is done. *)
Definition newClass (newId : Z) (args : createClassArgs) : RPGClass :=
  let d := createDefaultClass newId in
  {| class_id := class_id d;
     class_name := ccl_name args;
     class_expParams :=
       <[1%nat := ccl_expAccel args]> (<[0%nat := ccl_expBase args]> (class_expParams d));
     class_params := class_params d;
     class_learnings := class_learnings d;
     class_traits := class_traits d;
     class_note := class_note d |}.

Definition updatedClass (rpgClass : RPGClass) (args : updateClassArgs) : RPGClass :=
  {| class_id := class_id rpgClass;
     class_name := assign (ucl_name args) (class_name rpgClass);
     class_expParams := class_expParams rpgClass;
     class_params := class_params rpgClass;
     class_learnings := class_learnings rpgClass;
     class_traits := class_traits rpgClass;
     class_note := class_note rpgClass |}.

Definition classSummary (c : RPGClass) : json :=
  JObj [ ("id", JNum (class_id c));
         ("name", JStr (class_name c));
         ("learningsCount", JNum (Z.of_nat (length (class_learnings c)))) ].

Section Tools.
Variable fileHandler : FileHandler.t.
Variable safeWriter : SafeWriter.t.

(** get_classes - List all classes *)
Definition get_classes : World → World * ToolResult :=
  handler (
    classes <- FileHandler.readJson (T := list (option RPGClass)) fileHandler "data/Classes.json" ;;
    let classList := classSummary <$> named classes in
    ret (success (Stringified (JArr classList)))).

(** create_class - Create a new class *)
Definition create_class (args : createClassArgs) : World → World * ToolResult :=
  handler (
    classes <- FileHandler.readJson (T := list (option RPGClass)) fileHandler "data/Classes.json" ;;
    let newId := length classes in
    let classes := classes ++ [Some (newClass (Z.of_nat newId) args)] in
    SafeWriter.writeToDatabase safeWriter "Classes.json" classes ;;;
    ret (success (Plain ("Created class " +:+ dq +:+ ccl_name args +:+ dq +:+
                         " with ID " +:+ show_nat newId)))).

(** update_class - Update an existing class *)
Definition update_class (args : updateClassArgs) : World → World * ToolResult :=
  handler (
    let id := Pos.to_nat (ucl_id args) in
    classes <- FileHandler.readJson (T := list (option RPGClass)) fileHandler "data/Classes.json" ;;
    if bool_decide (length classes ≤ id)%nat || falsy (classes !! id) then
      ret (failure (Plain ("Error: Class ID " +:+ show_pos (ucl_id args) +:+ " not found")))
    else
      match classes !! id with
      | Some (Some rpgClass) =>
          let rpgClass := updatedClass rpgClass args in
          let classes := <[id := Some rpgClass]> classes in
          SafeWriter.writeToDatabase safeWriter "Classes.json" classes ;;;
          ret (success (Plain ("Updated class " +:+ dq +:+ class_name rpgClass +:+ dq +:+
                               " (ID " +:+ show_pos (ucl_id args) +:+ ")")))
      | _ => throw TypeError
      end).

End Tools.
End ClassTools.

(* ================================================================== *)
(** * tools/mapTools.ts *)
(* ================================================================== *)

Module MapTools.

(** createMapSchema, after defaults *)
Record createMapArgs := {
  cm_name : string;
  cm_displayName : string;
  cm_width : Z;
  cm_height : Z;
  cm_tilesetId : Z;
  cm_scrollType : Z;
  cm_encounterSteps : Z;
  cm_parentId : Z
}.

(** The bounds [int().min(1).max(256)] that createMapSchema puts on
    [width] and [height]. *)
Definition createMapSchema_size (args : createMapArgs) : Prop :=
  1 ≤ cm_width args ≤ 256 ∧ 1 ≤ cm_height args ≤ 256.

(** updateMapSchema *)
Record updateMapArgs := {
  um_id : positive;
  um_displayName : option string;
  um_tilesetId : option Z;
  um_encounterSteps : option Z
}.

(** [new Array(n).fill(v)]: a RangeError unless [n] is an array length. *)
Definition new_Array_fill (n : Z) (v : Z) : M (list Z) :=
  if bool_decide (0 ≤ n < 2 ^ 32) then ret (replicate (Z.to_nat n) v)
  else throw RangeError.

Definition createDefaultMap (width height : Z) : M RPGMap :=
  (* Map data array: width * height * 6 layers *)
  let dataSize := width * height * 6 in
  data <- new_Array_fill dataSize 0 ;;
  ret {|
    map_displayName := "";
    map_tilesetId := 1;
    map_width := width;
    map_height := height;
    map_scrollType := ScrollType.NoLoop;
    map_specifyBattleback := false;
    map_battleback1Name := "";
    map_battleback2Name := "";
    map_autoplayBgm := false;
    map_bgm := {| audio_name := ""; audio_pan := 0; audio_pitch := 100; audio_volume := 90 |};
    map_autoplayBgs := false;
    map_bgs := {| audio_name := ""; audio_pan := 0; audio_pitch := 100; audio_volume := 90 |};
    map_disableDashing := false;
    map_encounterList := [];
    map_encounterStep := 30;
    map_parallaxName := "";
    map_parallaxLoopX := false;
    map_parallaxLoopY := false;
    map_parallaxSx := 0;
    map_parallaxSy := 0;
    map_parallaxShow := false;
    map_data := data;
    map_events := [];
    map_note := "" |}.

(** Find next available ID:
    [let newId = 1;
     for (let i = 1; i < mapInfos.length; i++)
       if (mapInfos[i] !== null) newId = i + 1;
     if (mapInfos.length > newId) newId = mapInfos.length;] *)
Definition nextMapId (mapInfos : list (option RPGMapInfo)) : nat :=
  let newId :=
    foldl (λ newId i, if is_null (mapInfos !! i) then newId else (i + 1)%nat)
          1%nat (seq 1 (length mapInfos - 1)) in
  if decide (newId < length mapInfos)%nat then length mapInfos else newId.

(** [x || 0] on a number *)
Definition or_zero (x : Z) : Z := if decide (x = 0) then 0 else x.

(** Calculate order (max order + 1):
    [mapInfos.filter(m => m !== null)
             .reduce((max, m) => Math.max(max, m.order || 0), 0)] *)
Definition maxOrder (mapInfos : list (option RPGMapInfo)) : Z :=
  foldl (λ max m, Z.max max (or_zero (mapinfo_order m))) 0 (omap id mapInfos).

(** [mapData] of create_map once the four assignments are done. *)
Definition newMapData (args : createMapArgs) : M RPGMap :=
  d <- createDefaultMap (cm_width args) (cm_height args) ;;
  ret {|
    map_displayName := cm_displayName args;
    map_tilesetId := cm_tilesetId args;
    map_width := map_width d;
    map_height := map_height d;
    map_scrollType := cm_scrollType args;
    map_specifyBattleback := map_specifyBattleback d;
    map_battleback1Name := map_battleback1Name d;
    map_battleback2Name := map_battleback2Name d;
    map_autoplayBgm := map_autoplayBgm d;
    map_bgm := map_bgm d;
    map_autoplayBgs := map_autoplayBgs d;
    map_bgs := map_bgs d;
    map_disableDashing := map_disableDashing d;
    map_encounterList := map_encounterList d;
    map_encounterStep := cm_encounterSteps args;
    map_parallaxName := map_parallaxName d;
    map_parallaxLoopX := map_parallaxLoopX d;
    map_parallaxLoopY := map_parallaxLoopY d;
    map_parallaxSx := map_parallaxSx d;
    map_parallaxSy := map_parallaxSy d;
    map_parallaxShow := map_parallaxShow d;
    map_data := map_data d;
    map_events := map_events d;
    map_note := map_note d |}.

(** [mapInfo] of create_map *)
Definition newMapInfo (mapInfos : list (option RPGMapInfo)) (args : createMapArgs) : RPGMapInfo := {|
  mapinfo_id := Z.of_nat (nextMapId mapInfos);
  mapinfo_name := cm_name args;
  mapinfo_parentId := cm_parentId args;
  mapinfo_expanded := false;
  mapinfo_scrollX := 0;
  mapinfo_scrollY := 0;
  mapinfo_order := maxOrder mapInfos + 1 |}.

(** The three conditional field assignments of update_map. *)
Definition updatedMap (mapData : RPGMap) (args : updateMapArgs) : RPGMap := {|
  map_displayName := assign (um_displayName args) (map_displayName mapData);
  map_tilesetId := assign (um_tilesetId args) (map_tilesetId mapData);
  map_width := map_width mapData;
  map_height := map_height mapData;
  map_scrollType := map_scrollType mapData;
  map_specifyBattleback := map_specifyBattleback mapData;
  map_battleback1Name := map_battleback1Name mapData;
  map_battleback2Name := map_battleback2Name mapData;
  map_autoplayBgm := map_autoplayBgm mapData;
  map_bgm := map_bgm mapData;
  map_autoplayBgs := map_autoplayBgs mapData;
  map_bgs := map_bgs mapData;
  map_disableDashing := map_disableDashing mapData;
  map_encounterList := map_encounterList mapData;
  map_encounterStep := assign (um_encounterSteps args) (map_encounterStep mapData);
  map_parallaxName := map_parallaxName mapData;
  map_parallaxLoopX := map_parallaxLoopX mapData;
  map_parallaxLoopY := map_parallaxLoopY mapData;
  map_parallaxSx := map_parallaxSx mapData;
  map_parallaxSy := map_parallaxSy mapData;
  map_parallaxShow := map_parallaxShow mapData;
  map_data := map_data mapData;
  map_events := map_events mapData;
  map_note := map_note mapData |}.

Definition mapSummary (m : RPGMapInfo) : json :=
  JObj [ ("id", JNum (mapinfo_id m));
         ("name", JStr (mapinfo_name m));
         ("parentId", JNum (mapinfo_parentId m));
         ("order", JNum (mapinfo_order m)) ].

Section Tools.
Variable fileHandler : FileHandler.t.
Variable safeWriter : SafeWriter.t.

(** get_maps - List all maps *)
Definition get_maps : World → World * ToolResult :=
  handler (
    mapInfos <- FileHandler.readJson (T := list (option RPGMapInfo)) fileHandler "data/MapInfos.json" ;;
    let mapList := mapSummary <$> omap id mapInfos in
    ret (success (Stringified (JArr mapList)))).

(** create_map - Create a new map *)
Definition create_map (args : createMapArgs) : World → World * ToolResult :=
  handler (
    (* Read MapInfos to determine next ID *)
    mapInfos <- FileHandler.readJson (T := list (option RPGMapInfo)) fileHandler "data/MapInfos.json" ;;
    let newId := nextMapId mapInfos in
    mapData <- newMapData args ;;
    let mapInfo := newMapInfo mapInfos args in
    (* Write map using SafeWriter *)
    SafeWriter.writeMap safeWriter (Z.of_nat newId) mapData mapInfo ;;;
    ret (success (Plain ("Created map " +:+ dq +:+ cm_name args +:+ dq +:+
                         " with ID " +:+ show_nat newId +:+
                         " (" +:+ pretty (cm_width args) +:+ "x" +:+
                         pretty (cm_height args) +:+ " tiles)")))).

(** update_map - Update an existing map's properties *)
Definition update_map (args : updateMapArgs) : World → World * ToolResult :=
  handler (
    let mapFilename := mapFilename (Z.pos (um_id args)) in
    present <- FileHandler.exists_ fileHandler ("data/" +:+ mapFilename) ;;
    if negb present then
      ret (failure (Plain ("Error: Map with ID " +:+ show_pos (um_id args) +:+ " not found")))
    else
      mapData <- FileHandler.readJson (T := RPGMap) fileHandler ("data/" +:+ mapFilename) ;;
      let mapData := updatedMap mapData args in
      SafeWriter.writeToDatabase safeWriter mapFilename mapData ;;;
      ret (success (Plain ("Updated map ID " +:+ show_pos (um_id args))))).

End Tools.
End MapTools.

(* ================================================================== *)
(** * tools/limitTools.ts *)
(* ================================================================== *)

Module LimitTools.

(** The [database] enumeration of setLimitSchema *)
Inductive database :=
| items | weapons | armors | skills | actors | classes
| enemies | states | animations | tilesets | troops | commonEvents.

Definition database_name (d : database) : string :=
  match d with
  | items => "items" | weapons => "weapons" | armors => "armors"
  | skills => "skills" | actors => "actors" | classes => "classes"
  | enemies => "enemies" | states => "states" | animations => "animations"
  | tilesets => "tilesets" | troops => "troops" | commonEvents => "commonEvents"
  end.

Definition databaseFiles (d : database) : string :=
  match d with
  | items => "Items.json"
  | weapons => "Weapons.json"
  | armors => "Armors.json"
  | skills => "Skills.json"
  | actors => "Actors.json"
  | classes => "Classes.json"
  | enemies => "Enemies.json"
  | states => "States.json"
  | animations => "Animations.json"
  | tilesets => "Tilesets.json"
  | troops => "Troops.json"
  | commonEvents => "CommonEvents.json"
  end.

(** setLimitSchema: [limit] is [z.number().int().min(1).max(9999)] *)
Record setLimitArgs := {
  sl_database : database;
  sl_limit : Z
}.

Definition setLimitSchema_limit (args : setLimitArgs) : Prop :=
  1 ≤ sl_limit args ≤ 9999.

(** Expand: add null entries.
    [while (data.length < targetLength) data.push(null);] *)
Definition expand (data : list (option entity)) (targetLength : Z) : list (option entity) :=
  data ++ replicate (Z.to_nat (targetLength - Z.of_nat (length data))) None.

(** Shrink: remove entries (only nulls, preserve data).
    [while (data.length > targetLength) {
       const last = data[data.length - 1];
       if (last !== null) return error;
       data.pop(); }]
    [n] is the number of iterations left, [data.length - targetLength].
    The result is the array left, or the length of the array at the
    iteration that found an entry (also [undefined], on an array that
    has become empty) that is not null. *)
Fixpoint shrink (n : nat) (data : list (option entity)) : nat + list (option entity) :=
  match n with
  | O => inr data
  | S n' =>
      match data !! (length data - 1)%nat with
      | Some None => shrink n' (take (length data - 1) data)
      | _ => inl (length data)
      end
  end.

Section Tools.
Variable fileHandler : FileHandler.t.
Variable safeWriter : SafeWriter.t.

(** [Object.entries(databaseFiles)], in the order of the literal *)
Definition databases : list database :=
  [ items; weapons; armors; skills; actors; classes;
    enemies; states; animations; tilesets; troops; commonEvents ].

(** The body of the loop of get_database_limits:
    [try { data = await readJson(...); limits[name] = data.length - 1 }
     catch { limits[name] = 0 }] *)
Definition limitOf (d : database) : M Z :=
  try_catch
    (data <- FileHandler.readJson (T := list (option entity)) fileHandler
               ("data/" +:+ databaseFiles d) ;;
     ret (Z.of_nat (length data) - 1))
    (λ _, ret 0).

(** get_database_limits - Get current limits for all databases *)
Definition get_database_limits : World → World * ToolResult :=
  handler (
    limits <- for_of databases (λ d, n <- limitOf d ;; ret (database_name d, JNum n)) ;;
    ret (success (Stringified (JObj limits)))).

(** [databaseFiles[database]] is defined for the twelve names of the
    enumeration, so the [Unknown database] answer of set_database_limit is
    never given. *)

(** set_database_limit - Set the maximum limit for a database *)
Definition set_database_limit (args : setLimitArgs) : World → World * ToolResult :=
  handler (
    let database := sl_database args in
    let limit := sl_limit args in
    let filename := databaseFiles database in
    data <- FileHandler.readJson (T := list (option entity)) fileHandler ("data/" +:+ filename) ;;
    let currentLimit := Z.of_nat (length data) - 1 in
    let targetLength := limit + 1 in    (* +1 for null at index 0 *)
    let finish (data : list (option entity)) :=
      SafeWriter.writeToDatabase safeWriter filename data ;;;
      ret (success (Plain (database_name database +:+ " limit changed from " +:+
                           pretty currentLimit +:+ " to " +:+ pretty limit))) in
    if bool_decide (Z.of_nat (length data) < targetLength) then
      finish (expand data targetLength)
    else if bool_decide (targetLength < Z.of_nat (length data)) then
      match shrink (Z.to_nat (Z.of_nat (length data) - targetLength)) data with
      | inl len =>
          ret (failure (Plain ("Error: Cannot shrink " +:+ database_name database +:+
                               " to " +:+ pretty limit +:+ ". Entry at ID " +:+
                               pretty (Z.of_nat len - 1) +:+ " has data.")))
      | inr data => finish data
      end
    else finish data).

End Tools.
End LimitTools.

(* ================================================================== *)
(** * tools/databaseTools.ts *)
(* ================================================================== *)

Module DatabaseTools.

(** Helper to count non-null entries:
    [const count = (arr: any[]) => arr.filter(i => i !== null && i.name !== "").length] *)
Definition count {R} `{Entity R} (arr : list (option R)) : nat := length (named arr).

Definition countOf (n : nat) : json := JObj [ ("count", JNum (Z.of_nat n)) ].

Section Tools.
Variable fileHandler : FileHandler.t.

(** get_database_info - Get summary of all database contents *)
Definition get_database_info : World → World * ToolResult :=
  handler (
    actors <- FileHandler.readJson (T := list (option RPGActor)) fileHandler "data/Actors.json" ;;
    classes <- FileHandler.readJson (T := list (option RPGClass)) fileHandler "data/Classes.json" ;;
    items <- FileHandler.readJson (T := list (option RPGItem)) fileHandler "data/Items.json" ;;
    skills <- FileHandler.readJson (T := list (option RPGSkill)) fileHandler "data/Skills.json" ;;
    weapons <- FileHandler.readJson (T := list (option RPGWeapon)) fileHandler "data/Weapons.json" ;;
    armors <- FileHandler.readJson (T := list (option RPGArmor)) fileHandler "data/Armors.json" ;;
    enemies <- FileHandler.readJson (T := list (option RPGEnemy)) fileHandler "data/Enemies.json" ;;
    states <- FileHandler.readJson (T := list (option RPGState)) fileHandler "data/States.json" ;;
    let summary := JObj [
      ("actors", countOf (count actors));
      ("classes", countOf (count classes));
      ("skills", countOf (count skills));
      ("items", countOf (count items));
      ("weapons", countOf (count weapons));
      ("armors", countOf (count armors));
      ("enemies", countOf (count enemies));
      ("states", countOf (count states)) ] in
    ret (success (Stringified summary))).

End Tools.
End DatabaseTools.

(* ================================================================== *)
(** * tools/pluginTools.ts *)
(* ================================================================== *)

Module PluginTools.

(** installPluginSchema *)
Record installPluginArgs := {
  ip_filename : string;
  ip_code : string;
  ip_description : string;
  ip_author : string
}.

(** ** [MZ_HEADER_REGEX = /\/\*:\s*\n?\s*\*\s*@target\s+MZ/i] *)

(** [\s], on code units below 256: tab, line feed, vertical tab, form
    feed, carriage return, space and no-break space. *)
Definition is_space (c : ascii) : bool :=
  match c with
  | "009" | "010" | "011" | "012" | "013" | " " | "160" => true
  | _ => false
  end%char.

(** The [i] flag: a pattern character matches the code units that have
    its upper case form; below 256 those are the two cases of an ASCII
    letter. [l] is the pattern character in lower case. *)
Definition lower (c : ascii) : ascii :=
  let n := nat_of_ascii c in
  if decide (65 ≤ n ≤ 90)%nat then ascii_of_nat (n + 32) else c.

Definition char_ci (l c : ascii) : bool := bool_decide (lower c = l).

(** Strips the literal [p] (given in lower case) off the front of [s]. *)
Fixpoint literal_ci (p s : string) : option string :=
  match p with
  | EmptyString => Some s
  | String l p' =>
      match s with
      | String c s' => if char_ci l c then literal_ci p' s' else None
      | EmptyString => None
      end
  end.

(** [\s*] followed by a character that is not a space: the whole run of
    spaces is skipped. *)
Fixpoint spaces (s : string) : string :=
  match s with
  | String c s' => if is_space c then spaces s' else s
  | EmptyString => s
  end.

(** [\s+] *)
Definition spaces1 (s : string) : option string :=
  match s with
  | String c s' => if is_space c then Some (spaces s') else None
  | EmptyString => None
  end.

(** The pattern matched at the front of [s]. [\s*\n?\s*] matches exactly
    the runs of spaces, a line feed being one of them. *)
Definition header_here (s : string) : bool :=
  match literal_ci "/*:" s with
  | None => false
  | Some s1 =>
      match literal_ci "*" (spaces s1) with
      | None => false
      | Some s2 =>
          match literal_ci "@target" (spaces s2) with
          | None => false
          | Some s3 =>
              match spaces1 s3 with
              | None => false
              | Some s4 => bool_decide (is_Some (literal_ci "mz" s4))
              end
          end
      end
  end.

(** [MZ_HEADER_REGEX.test(code)]: the pattern matches somewhere in [code]. *)
Fixpoint MZ_HEADER_REGEX_test (code : string) : bool :=
  header_here code ||
  match code with
  | String _ rest => MZ_HEADER_REGEX_test rest
  | EmptyString => false
  end.

Definition nl : string := String "010"%char EmptyString.

Definition createPluginHeader (description author : string) : string :=
  "/*:" +:+ nl +:+
  " * @target MZ" +:+ nl +:+
  " * @plugindesc " +:+ description +:+ nl +:+
  " * @author " +:+ author +:+ nl +:+
  " * @help" +:+ nl +:+
  " * This plugin was installed via MCP server." +:+ nl +:+
  " */" +:+ nl.

(** Check if code has MZ header, add if missing *)
Definition finalCode (args : installPluginArgs) : string :=
  if negb (MZ_HEADER_REGEX_test (ip_code args))
  then createPluginHeader (ip_description args) (ip_author args) +:+ nl +:+ ip_code args
  else ip_code args.

(** Check if already registered:
    [existingIndex >= 0 ? plugins[existingIndex] = pluginEntry
                        : plugins.push(pluginEntry)] *)
Definition register (plugins : list PluginConfig) (pluginEntry : PluginConfig) : list PluginConfig :=
  match list_find (λ p, plugin_name p = plugin_name pluginEntry) plugins with
  | Some (existingIndex, _) => <[existingIndex := pluginEntry]> plugins
  | None => plugins ++ [pluginEntry]
  end.

Section Tools.
Variable fileHandler : FileHandler.t.
Variable safeWriter : SafeWriter.t.

(** The text edits on js/plugins.js, a script and not a JSON file:
    [parse script] is [JSON.parse(match[1])] for the match of
    [/\$plugins\s*=\s*(\[[\s\S]*\]);?/] in the script, [None] when there is
    no match or the parse throws; [splice] writes the entries back, in
    the missing utils/safeWriter.ts. *)
Variable parse : string → option (list PluginConfig).
Variable splice : string → list PluginConfig → string.



End Tools.

Definition pluginStatus (p : PluginConfig) : json :=
  JObj [ ("name", JStr (plugin_name p));
         ("status", JStr (if plugin_status p then "ON" else "OFF"));
         ("description", JStr (plugin_description p)) ].

Section Installed.
Variable fileHandler : FileHandler.t.
Variable readdir : Readdir.
Variable parse : string → option (list PluginConfig).

(** Read plugins.js registry: the [try] block of get_installed_plugins.
    Its first statement reads the script with [readJson]; the two that
    follow are those of install_plugin. *)
Definition readRegistered : M (list PluginConfig) :=
  try_catch
    (FileHandler.readJson (T := doc) fileHandler "js/plugins.js" ;;;
     pluginsJsContent <- fs_readFile (FileHandler.getProjectPath fileHandler +:+ "/js/plugins.js") ;;
     match pluginsJsContent with
     | DText script => ret (default [] (parse script))
     | _ => ret []
     end)
    (λ _, ret []).

(** get_installed_plugins - List all plugins with status *)
Definition get_installed_plugins : World → World * ToolResult :=
  handler (
    registered <- readRegistered ;;
    (* List .js files in plugins folder *)
    pluginFiles <- FileHandler.listFiles fileHandler readdir "js/plugins" (Some ".js") ;;
    let availablePlugins := (λ f, replace f ".js" "") <$> pluginFiles in
    (* Find unregistered plugins *)
    let registeredNames := plugin_name <$> registered in
    let unregistered := filter (λ name, name ∉ registeredNames) availablePlugins in
    ret (success (Stringified (JObj [
      ("registered", JArr (pluginStatus <$> registered));
      ("available", JArr (JStr <$> unregistered)) ])))).

End Installed.
End PluginTools.

(* ================================================================== *)
(** * tools/resourceTools.ts *)
(* ================================================================== *)

Module ResourceTools.

(** The [category] and [source] enumerations of scanResourcesSchema *)
Inductive category :=
| plugins | tilesets | characters | faces | sv_actors | sv_enemies
| battlebacks1 | battlebacks2 | parallaxes | pictures | animations
| enemies | titles1 | titles2 | system
| bgm | bgs | me | se.

Definition category_name (c : category) : string :=
  match c with
  | plugins => "plugins" | tilesets => "tilesets" | characters => "characters"
  | faces => "faces" | sv_actors => "sv_actors" | sv_enemies => "sv_enemies"
  | battlebacks1 => "battlebacks1" | battlebacks2 => "battlebacks2"
  | parallaxes => "parallaxes" | pictures => "pictures" | animations => "animations"
  | enemies => "enemies" | titles1 => "titles1" | titles2 => "titles2"
  | system => "system"
  | bgm => "bgm" | bgs => "bgs" | me => "me" | se => "se"
  end.

Inductive source := project | engine | all.

(** scanResourcesSchema, after defaults *)
Record scanResourcesArgs := {
  sr_category : category;
  sr_source : source
}.

Definition getCategoryPath (category : string) : string :=
  (* Audio categories *)
  if bool_decide (category ∈ ["bgm"; "bgs"; "me"; "se"]) then "audio/" +:+ category
  (* Plugin category *)
  else if decide (category = "plugins") then "js/plugins"
  (* Image categories *)
  else "img/" +:+ category.

(** [if (enginePath)]: the path when it is given and not empty *)
Definition configured (enginePath : option string) : option string :=
  match enginePath with
  | Some e => if decide (e = "") then None else Some e
  | None => None
  end.

Section Tools.
Variable fileHandler : FileHandler.t.
Variable readdir : Readdir.

(** [!extension || e.name.endsWith(extension)] *)
Definition hasExtension (extension : option string) (e : Dirent) : bool :=
  match extension with
  | Some ext => endsWith (dirent_name e) ext
  | None => true
  end.

(** scan_resources - Scan available resources *)
Definition scan_resources (args : scanResourcesArgs) : World → World * ToolResult :=
  handler (
    let category := category_name (sr_category args) in
    let source := sr_source args in
    let categoryPath := getCategoryPath category in
    let extension := if decide (category = "plugins") then Some ".js" else None in
    (* Scan project *)
    result_project <-
      (match source with
       | project | all => FileHandler.listFiles fileHandler readdir categoryPath extension
       | engine => ret []
       end) ;;
    (* Scan engine (newdata folder) *)
    result_engine <-
      (match source with
       | engine | all =>
           match configured (FileHandler.getEnginePath fileHandler) with
           | Some enginePath =>
               let engineCategoryPath := path_join (path_join enginePath "newdata") categoryPath in
               try_catch
                 (entries <- fs_readdir readdir engineCategoryPath ;;
                  ret (dirent_name <$>
                       filter (λ e, hasExtension extension e)
                              (filter (λ e, isFile e) entries)))
                 (λ _, ret [])
           | None => ret []
           end
       | project => ret []
       end) ;;
    ret (success (Stringified (JObj [
      ("project", JArr (JStr <$> result_project));
      ("engine", JArr (JStr <$> result_engine)) ])))).

(** scan_dlc_packages - List DLC packages *)
Definition scan_dlc_packages : World → World * ToolResult :=
  handler (
    match configured (FileHandler.getEnginePath fileHandler) with
    | None => ret (failure (Plain "Error: RPGMAKER_ENGINE_PATH not set"))
    | Some enginePath =>
        let dlcPath := path_join enginePath "dlc" in
        entries <- fs_readdir readdir dlcPath ;;
        let packages :=
          dirent_name <$>
          filter (λ e, isDirectory e && negb (startsWith (dirent_name e) ".")) entries in
        ret (success (Stringified (JArr (JStr <$> packages))))
    end).

(** get_generator_parts, get_sample_maps and get_core_script_versions are
    left out: they read directories recursively or without entry types,
    and order names by [parseInt] and [Number]. *)

End Tools.
End ResourceTools.

(* ================================================================== *)
(** * index.ts: the server and its database tools *)
(* ================================================================== *)

Module Server.

(** A [tools/call] request to one of the database tools, with its
    arguments as the schema of the tool delivers them. *)
Inductive request :=
| Get_database_info
| Get_items
| Create_item (args : ItemTools.createItemArgs)
| Update_item (args : ItemTools.updateItemArgs)
| Get_skills
| Create_skill (args : SkillTools.createSkillArgs)
| Get_states
| Create_state (args : StateTools.createStateArgs)
| Update_state (args : StateTools.updateStateArgs)
| Create_weapon (args : WeaponTools.createWeaponArgs)
| Create_enemy (args : EnemyTools.createEnemyArgs)
| Create_armor (args : ArmorTools.createArmorArgs)
| Create_actor (args : ActorTools.createActorArgs)
| Update_actor (args : ActorTools.updateActorArgs)
| Create_class (args : ClassTools.createClassArgs)
| Update_class (args : ClassTools.updateClassArgs)
| Get_maps
| Create_map (args : MapTools.createMapArgs)
| Update_map (args : MapTools.updateMapArgs)
| Set_database_limit (args : LimitTools.setLimitArgs).


Section Server.
(** [process.env.RPGMAKER_PROJECT_PATH] and [RPGMAKER_ENGINE_PATH] *)
Variable projectPath : string.
Variable enginePath : option string.

(** Initialize utilities *)
Definition fileHandler : FileHandler.t :=
  {| FileHandler.projectPath := projectPath; FileHandler.enginePath := enginePath |}.
Definition safeWriter : SafeWriter.t :=
  {| SafeWriter.fileHandler := fileHandler |}.

(** The handler registered under the name of the request. *)
Definition call (r : request) : World → World * ToolResult :=
  match r with
  | Get_database_info => DatabaseTools.get_database_info fileHandler
  | Get_items => ItemTools.get_items fileHandler
  | Create_item args => ItemTools.create_item fileHandler safeWriter args
  | Update_item args => ItemTools.update_item fileHandler safeWriter args
  | Get_skills => SkillTools.get_skills fileHandler
  | Create_skill args => SkillTools.create_skill fileHandler safeWriter args
  | Get_states => StateTools.get_states fileHandler
  | Create_state args => StateTools.create_state fileHandler safeWriter args
  | Update_state args => StateTools.update_state fileHandler safeWriter args
  | Create_weapon args => WeaponTools.create_weapon fileHandler safeWriter args
  | Create_enemy args => EnemyTools.create_enemy fileHandler safeWriter args
  | Create_armor args => ArmorTools.create_armor fileHandler safeWriter args
  | Create_actor args => ActorTools.create_actor fileHandler safeWriter args
  | Update_actor args => ActorTools.update_actor fileHandler safeWriter args
  | Create_class args => ClassTools.create_class fileHandler safeWriter args
  | Update_class args => ClassTools.update_class fileHandler safeWriter args
  | Get_maps => MapTools.get_maps fileHandler
  | Create_map args => MapTools.create_map fileHandler safeWriter args
  | Update_map args => MapTools.update_map fileHandler safeWriter args
  | Set_database_limit args => LimitTools.set_database_limit fileHandler safeWriter args
  end.



End Server.
End Server.

(* ================================================================== *)
(** * What the properties speak about *)
(* ================================================================== *)

Module Observe.

Fixpoint last_char (s : string) : option ascii :=
  match s with
  | EmptyString => None
  | String c EmptyString => Some c
  | String _ r => last_char r
  end.

(** The absolute path of a database file, and of the system file. *)
Definition dataPath (fh : FileHandler.t) (filename : string) : string :=
  FileHandler.resolvePath fh ("data/" +:+ filename).

Definition systemPath (fh : FileHandler.t) : string :=
  FileHandler.resolvePath fh "data/System.json".

(** The disk once the file at [p], if there is one, is copied to its
    backup path. *)
Definition backed_up (p : string) (m : gmap string doc) : gmap string doc :=
  match m !! p with
  | Some old => <[p +:+ ".bak" := old]> m
  | None => m
  end.

(** The version counter held in the system file. *)
Definition version_of (sw : SafeWriter.t) (w : World) : option Z :=
  match files w !! systemPath (SafeWriter.fileHandler sw) with
  | Some (DSystem s) => Some (sys_versionId s)
  | _ => None
  end.



(** The [id] field of an array element, whatever its shape. *)
Definition entity_id (e : entity) : option Z :=
  match e with
  | EItem r => Some (item_id r)
  | ESkill r => Some (skill_id r)
  | EState r => Some (state_id r)
  | EWeapon r => Some (weapon_id r)
  | EArmor r => Some (armor_id r)
  | EActor r => Some (actor_id r)
  | EClass r => Some (class_id r)
  | EEnemy r => Some (enemy_id r)
  | EMapInfo r => Some (mapinfo_id r)
  | EOther _ => None
  end.


(** The listing rule in the words of the specification: a slot is listed
    when it is non-null and its name is a non-empty string. *)
Definition listed {R} `{Entity R} (slot : option R) : Prop :=
  ∃ r, slot = Some r ∧ ent_name r ≠ "".

#[export] Instance listed_dec {R} `{Entity R} (slot : option R) : Decision (listed slot).
Proof.
  destruct slot as [r|].
  - destruct (decide (ent_name r = "")) as [Hn|Hn].
    + right. intros (r' & [= <-] & Hr). done.
    + left. by exists r.
  - right. by intros (r & [=] & _).
Defined.

(** "The pre-existing maximum populated descriptor id", in the words of
    the specification: the largest [id] among the populated descriptors,
    and at least 0. *)
Definition maxPopulatedId (mapInfos : list (option RPGMapInfo)) : Z :=
  foldr Z.max 0 (mapinfo_id <$> omap id mapInfos).

(** "The maximum order among pre-existing descriptors": the largest
    [order] among the populated descriptors, and at least 0. *)
Definition maxPriorOrder (mapInfos : list (option RPGMapInfo)) : Z :=
  foldr Z.max 0 (mapinfo_order <$> omap id mapInfos).

(** The invariant of section 3 on an index: the [id] of a descriptor is
    its position. *)
Definition ids_are_positions (mapInfos : list (option RPGMapInfo)) : Prop :=
  ∀ i m, mapInfos !! i = Some (Some m) → mapinfo_id m = Z.of_nat i.


(** The pattern [/\/\*:\s*\n?\s*\*\s*@target\s+MZ/i] read as a
    description of text: somewhere in the code there is the opening
    [/*:], then spaces (the optional line feed of the pattern is one of
    them), a star, spaces, the word [@target] in any case, at least one
    space, and [MZ] in any case. *)
Fixpoint all_space (s : string) : bool :=
  match s with
  | EmptyString => true
  | String c s' => PluginTools.is_space c && all_space s'
  end.

Fixpoint same_word (word s : string) : bool :=
  match word, s with
  | EmptyString, EmptyString => true
  | String l word', String c s' => PluginTools.char_ci l c && same_word word' s'
  | _, _ => false
  end.

Definition has_MZ_header (code : string) : Prop :=
  ∃ before sp1 sp2 target sp3 mz after,
    code = before +:+ "/*:" +:+ sp1 +:+ "*" +:+ sp2 +:+ target +:+ sp3 +:+ mz +:+ after ∧
    all_space sp1 = true ∧
    all_space sp2 = true ∧
    same_word "@target" target = true ∧
    all_space sp3 = true ∧ sp3 ≠ "" ∧
    same_word "mz" mz = true.

(** A string that does not start with the letter I. *)
Definition not_I (s : string) : Prop := ∀ c r, s = String c r → c ≠ "I"%char.




(** An array brought to the length [limit + 1]: cut there, or filled up
    with nulls. *)
Definition resized (data : list (option entity)) (limit : Z) : list (option entity) :=
  take (Z.to_nat (limit + 1)) (data ++ replicate (Z.to_nat (limit + 1) - length data) None).

(** The limit of a database as its file shows it: the length of the
    array less one, and 0 when there is no array to read. *)
Definition limitIn (fh : FileHandler.t) (w : World) (d : LimitTools.database) : Z :=
  match files w !! dataPath fh (LimitTools.databaseFiles d) with
  | Some (DArray l) => Z.of_nat (length l) - 1
  | _ => 0
  end.

(** The arguments of install_plugin with another code. *)
Definition with_code (args : PluginTools.installPluginArgs) (code : string) :
    PluginTools.installPluginArgs := {|
  PluginTools.ip_filename := PluginTools.ip_filename args;
  PluginTools.ip_code := code;
  PluginTools.ip_description := PluginTools.ip_description args;
  PluginTools.ip_author := PluginTools.ip_author args |}.

End Observe.
Export Observe.

(* ================================================================== *)
(** * Sample data *)
(* ================================================================== *)

Module Sample.

Definition fh : FileHandler.t :=
  {| FileHandler.projectPath := "/game"; FileHandler.enginePath := None |}.
Definition sw : SafeWriter.t := {| SafeWriter.fileHandler := fh |}.

Definition system (v : Z) : RPGSystem := {|
  sys_gameTitle := "Demo"; sys_versionId := v; sys_locale := "en_US";
  sys_partyMembers := [1]; sys_currencyUnit := "G"; sys_startMapId := 1;
  sys_startX := 8; sys_startY := 6; sys_rest := "" |}.

(** The item of the end-to-end scenario of the specification:
    [hpRecoveryPercent=50, addStateId=7]. *)
Definition potion : ItemTools.createItemArgs := {|
  ItemTools.ci_name := "Potion"; ItemTools.ci_description := "Restores HP";
  ItemTools.ci_price := 50; ItemTools.ci_type := ItemTools.regular;
  ItemTools.ci_hpRecoveryPercent := Qc_of_Z 50; ItemTools.ci_hpRecoveryFixed := 0;
  ItemTools.ci_mpRecoveryPercent := 0%Qc; ItemTools.ci_mpRecoveryFixed := 0;
  ItemTools.ci_addStateId := 7; ItemTools.ci_iconIndex := 176 |}.

(** The same item with an empty name, which [z.string()] accepts. *)
Definition nameless : ItemTools.createItemArgs := {|
  ItemTools.ci_name := ""; ItemTools.ci_description := "Restores HP";
  ItemTools.ci_price := 50; ItemTools.ci_type := ItemTools.regular;
  ItemTools.ci_hpRecoveryPercent := Qc_of_Z 50; ItemTools.ci_hpRecoveryFixed := 0;
  ItemTools.ci_mpRecoveryPercent := 0%Qc; ItemTools.ci_mpRecoveryFixed := 0;
  ItemTools.ci_addStateId := 7; ItemTools.ci_iconIndex := 176 |}.

Definition regen : StateTools.createStateArgs := {|
  StateTools.cst_name := "Mana Regen"; StateTools.cst_iconIndex := 14;
  StateTools.cst_restriction := 0; StateTools.cst_priority := 50;
  StateTools.cst_minTurns := 3; StateTools.cst_maxTurns := 5;
  StateTools.cst_autoRemovalTiming := 0; StateTools.cst_chanceByDamage := 0;
  StateTools.cst_removeAtBattleEnd := true;
  StateTools.cst_regenerateMpRate := Qc_of_Z 10 |}.

(** An items collection of length 3. *)
Definition items : list (option RPGItem) :=
  [None; Some (ItemTools.newItem 1 potion); Some (ItemTools.newItem 2 potion)].

(** A states collection that ends in an absence-marker. *)
Definition states : list (option RPGState) :=
  [None; Some (StateTools.newState 1 regen); None].

Definition descriptor (id : Z) (order : Z) : RPGMapInfo := {|
  mapinfo_id := id; mapinfo_name := "MAP"; mapinfo_parentId := 0;
  mapinfo_expanded := false; mapinfo_scrollX := 0; mapinfo_scrollY := 0;
  mapinfo_order := order |}.

(** An index of length 4 that ends in an absence-marker. *)
Definition mapInfos : list (option RPGMapInfo) :=
  [None; Some (descriptor 1 1); Some (descriptor 2 2); None].

(** The two text edits on the registry script, for a registry that is
    always empty. *)
Definition parse (script : string) : option (list PluginConfig) := Some [].

(** The disk of a project; the items file has a stale backup. *)
Definition disk : gmap string doc :=
  <["/game/js/plugins.js" := DText "var $plugins = [];"]>
  (<["/game/data/Items.json.bak" := to_doc (@nil (option RPGItem))]>
  (<["/game/data/Items.json" := to_doc items]>
  (<["/game/data/States.json" := to_doc states]>
  (<["/game/data/MapInfos.json" := to_doc mapInfos]>
  (<["/game/data/System.json" := to_doc (system 7)]> ∅))))).

Definition world (faults : list bool) : World :=
  {| files := disk; faults := faults |}.

Definition mapArgs : MapTools.createMapArgs := {|
  MapTools.cm_name := "Cave"; MapTools.cm_displayName := "";
  MapTools.cm_width := 20; MapTools.cm_height := 15;
  MapTools.cm_tilesetId := 1; MapTools.cm_scrollType := 0;
  MapTools.cm_encounterSteps := 30; MapTools.cm_parentId := 0 |}.

Definition shrinkArgs : LimitTools.setLimitArgs :=
  {| LimitTools.sl_database := LimitTools.items; LimitTools.sl_limit := 1 |}.

Definition missingItem : ItemTools.updateItemArgs := {|
  ItemTools.ui_id := 5; ItemTools.ui_name := Some "Elixir";
  ItemTools.ui_description := None; ItemTools.ui_price := None;
  ItemTools.ui_iconIndex := None |}.

Definition missingState : StateTools.updateStateArgs := {|
  StateTools.ust_id := 2; StateTools.ust_name := Some "Haste";
  StateTools.ust_iconIndex := None; StateTools.ust_minTurns := None;
  StateTools.ust_maxTurns := None |}.


Definition sword : WeaponTools.createWeaponArgs := {|
  WeaponTools.cw_name := "Lascadora"; WeaponTools.cw_description := "Fire sword";
  WeaponTools.cw_price := 800; WeaponTools.cw_wtypeId := 2; WeaponTools.cw_attack := 10;
  WeaponTools.cw_elementId := 2; WeaponTools.cw_iconIndex := 97;
  WeaponTools.cw_animationId := 6 |}.

Definition shield : ArmorTools.createArmorArgs := {|
  ArmorTools.ca_name := "Test Shield"; ArmorTools.ca_description := "";
  ArmorTools.ca_price := 500; ArmorTools.ca_atypeId := 1; ArmorTools.ca_etypeId := 2;
  ArmorTools.ca_def := 20; ArmorTools.ca_mdf := 0; ArmorTools.ca_agi := 0;
  ArmorTools.ca_iconIndex := 0 |}.

Definition goblin : EnemyTools.createEnemyArgs := {|
  EnemyTools.ce_name := "Test Goblin"; EnemyTools.ce_maxHp := 500; EnemyTools.ce_maxMp := 0;
  EnemyTools.ce_atk := 50; EnemyTools.ce_def := 10; EnemyTools.ce_mat := 10;
  EnemyTools.ce_mdf := 10; EnemyTools.ce_agi := 10; EnemyTools.ce_luk := 10;
  EnemyTools.ce_exp := 100; EnemyTools.ce_gold := 50;
  EnemyTools.ce_battlerName := None; EnemyTools.ce_battlerHue := 0 |}.

(** An actor without a name, which [z.string()] accepts. *)
Definition hero : ActorTools.createActorArgs := {|
  ActorTools.cac_name := ""; ActorTools.cac_nickname := "Tester";
  ActorTools.cac_classId := 1; ActorTools.cac_initialLevel := 5;
  ActorTools.cac_maxLevel := 99; ActorTools.cac_profile := "";
  ActorTools.cac_characterName := ""; ActorTools.cac_characterIndex := 0;
  ActorTools.cac_faceName := ""; ActorTools.cac_faceIndex := 0 |}.

Definition actors : list (option RPGActor) := [None; Some (ActorTools.newActor 1 hero)].

(** The sample disk with the other collections: each holds index 0
    only, the actors also the actor without a name. *)
Definition armory : gmap string doc :=
  <["/game/data/Weapons.json" := to_doc [@None RPGWeapon]]>
  (<["/game/data/Armors.json" := to_doc [@None RPGArmor]]>
  (<["/game/data/Enemies.json" := to_doc [@None RPGEnemy]]>
  (<["/game/data/Actors.json" := to_doc actors]>
  (<["/game/data/Classes.json" := to_doc [@None RPGClass]]>
  (<["/game/data/Skills.json" := to_doc [@None RPGSkill]]> disk))))).

Definition stocked (faults : list bool) : World :=
  {| files := armory; faults := faults |}.

(** The folders of the project: two files and a folder in js/plugins. *)
Definition readdir : Readdir := λ p _,
  if decide (p = "/game/js/plugins") then
    Ok [ {| dirent_name := "Hello.js"; dirent_kind := IsFile |};
         {| dirent_name := "Notes.txt"; dirent_kind := IsFile |};
         {| dirent_name := "old"; dirent_kind := IsDirectory |} ]
  else Throw (ENOENT p).

(** A reading of the registry script that finds the plugin registered. *)
Definition registered (script : string) : option (list PluginConfig) :=
  Some [ {| plugin_name := "Hello"; plugin_status := true;
            plugin_description := "Says hello"; plugin_parameters := [] |} ].

Definition renameItem : ItemTools.updateItemArgs := {|
  ItemTools.ui_id := 1; ItemTools.ui_name := Some "Elixir";
  ItemTools.ui_description := None; ItemTools.ui_price := Some 75;
  ItemTools.ui_iconIndex := None |}.

Definition unnameItem : ItemTools.updateItemArgs := {|
  ItemTools.ui_id := 1; ItemTools.ui_name := Some "";
  ItemTools.ui_description := None; ItemTools.ui_price := None;
  ItemTools.ui_iconIndex := None |}.

Definition renameState : StateTools.updateStateArgs := {|
  StateTools.ust_id := 1; StateTools.ust_name := Some "Haste";
  StateTools.ust_iconIndex := None; StateTools.ust_minTurns := None;
  StateTools.ust_maxTurns := None |}.

Definition missingActor : ActorTools.updateActorArgs := {|
  ActorTools.uac_id := 5; ActorTools.uac_name := Some "Hero";
  ActorTools.uac_nickname := None; ActorTools.uac_classId := None;
  ActorTools.uac_initialLevel := None; ActorTools.uac_maxLevel := None;
  ActorTools.uac_profile := None; ActorTools.uac_characterName := None;
  ActorTools.uac_faceName := None |}.

Definition expandArgs : LimitTools.setLimitArgs :=
  {| LimitTools.sl_database := LimitTools.items; LimitTools.sl_limit := 5 |}.

Definition backArgs : LimitTools.setLimitArgs :=
  {| LimitTools.sl_database := LimitTools.items; LimitTools.sl_limit := 2 |}.

Definition mapUpdate : MapTools.updateMapArgs := {|
  MapTools.um_id := 4; MapTools.um_displayName := Some "The Cave";
  MapTools.um_tilesetId := None; MapTools.um_encounterSteps := Some 20 |}.

End Sample.

(* ================================================================== *)
(** * Properties *)
(* ================================================================== *)



(** ** The definitions on concrete inputs *)

Example resolvePath_relative :
  FileHandler.resolvePath Sample.fh "data/Items.json" = "/game/data/Items.json".
Proof. reflexivity. Qed.

Example resolvePath_absolute :
  FileHandler.resolvePath Sample.fh "/tmp/Items.json" = "/tmp/Items.json".
Proof. reflexivity. Qed.

Example path_dirname_file : path_dirname "/game/data/Items.json" = "/game/data".
Proof. reflexivity. Qed.

Example mapFilename_4 : mapFilename 4 = "Map004.json".
Proof. reflexivity. Qed.

Example mapFilename_1234 : mapFilename 1234 = "Map1234.json".
Proof. reflexivity. Qed.

Example nextMapId_empty : MapTools.nextMapId [] = 1%nat.
Proof. reflexivity. Qed.

Example nextMapId_full :
  MapTools.nextMapId [None; Some (Sample.descriptor 1 1); Some (Sample.descriptor 2 2)] = 3%nat.
Proof. reflexivity. Qed.

Example nextMapId_trailing : MapTools.nextMapId Sample.mapInfos = 4%nat.
Proof. reflexivity. Qed.

Example maxOrder_sample : MapTools.maxOrder Sample.mapInfos = 2.
Proof. reflexivity. Qed.

Example shrink_nulls :
  LimitTools.shrink 2 [None; Some (EOther "a"); None; None] = inr [None; Some (EOther "a")].
Proof. reflexivity. Qed.

Example shrink_populated_slot :
  LimitTools.shrink 2 [None; Some (EOther "a"); Some (EOther "b"); None] = inl 3%nat.
Proof. reflexivity. Qed.

Example expand_by_two :
  LimitTools.expand [None; Some (EOther "a")] 4 = [None; Some (EOther "a"); None; None].
Proof. reflexivity. Qed.

Example header_plain :
  PluginTools.MZ_HEADER_REGEX_test ("/*:" +:+ PluginTools.nl +:+ " * @target MZ") = true.
Proof. reflexivity. Qed.

Example header_any_case :
  PluginTools.MZ_HEADER_REGEX_test "var x; /*: * @Target   mz */" = true.
Proof. reflexivity. Qed.

Example header_no_star : PluginTools.MZ_HEADER_REGEX_test "/*: @target MZ" = false.
Proof. reflexivity. Qed.

Example header_no_space : PluginTools.MZ_HEADER_REGEX_test "/*: * @targetMZ" = false.
Proof. reflexivity. Qed.

Example keep_named : named Sample.items = [ItemTools.newItem 1 Sample.potion; ItemTools.newItem 2 Sample.potion].
Proof. reflexivity. Qed.

Example register_replaces :
  PluginTools.register
    [ {| plugin_name := "A"; plugin_status := false; plugin_description := ""; plugin_parameters := [] |};
      {| plugin_name := "B"; plugin_status := false; plugin_description := ""; plugin_parameters := [] |} ]
    {| plugin_name := "B"; plugin_status := true; plugin_description := "b"; plugin_parameters := [] |}
  = [ {| plugin_name := "A"; plugin_status := false; plugin_description := ""; plugin_parameters := [] |};
      {| plugin_name := "B"; plugin_status := true; plugin_description := "b"; plugin_parameters := [] |} ].
Proof. reflexivity. Qed.

(** A request that creates an item on the sample disk: the reply, the
    new length of the collection and the counter. *)
Example create_item_run :
  let '(w', out) := ItemTools.create_item Sample.fh Sample.sw Sample.potion (Sample.world []) in
  out = success (Plain ("Created item " +:+ dq +:+ "Potion" +:+ dq +:+ " with ID 3")) ∧
  FileHandler.readJson Sample.fh "data/Items.json" w'
    = (w', Ok (Sample.items ++ [Some (ItemTools.newItem 3 Sample.potion)])) ∧
  version_of Sample.sw w' = Some 8.
Proof. vm_compute. split_and!; reflexivity. Qed.

(** The same request when the second mutating system call, the
    directory creation before the write of the file, is refused: the
    backup is taken, the file and the counter are as they were. *)
Example create_item_refused :
  let '(w', out) := ItemTools.create_item Sample.fh Sample.sw Sample.potion (Sample.world [false; true]) in
  isError out = true ∧
  files w' !! "/game/data/Items.json" = Some (to_doc Sample.items) ∧
  files w' !! "/game/data/Items.json.bak" = Some (to_doc Sample.items) ∧
  version_of Sample.sw w' = Some 7.
Proof. vm_compute. split_and!; reflexivity. Qed.

(** ** Computations *)

Lemma bind_Ok {A B} (m : M A) (k : A → M B) w w' b :
  bind m k w = (w', Ok b) ↔ ∃ w1 a, m w = (w1, Ok a) ∧ k a w1 = (w', Ok b).
Proof.
  unfold bind. destruct (m w) as [w1 [a|e]]; split.
  - intros Hk. by exists w1, a.
  - by intros (? & ? & [= <- <-] & Hk).
  - done.
  - by intros (? & ? & [=] & _).
Qed.


Lemma handler_inv (body : M ToolResult) w w' r :
  handler body w = (w', r) ↔
  body w = (w', Ok r) ∨ ∃ e, body w = (w', Throw e) ∧ r = failure (Caught e).
Proof.
  unfold handler. destruct (body w) as [w1 [a|e]]; split.
  - intros [= <- <-]. by left.
  - intros [[= <- <-]|(? & [=] & _)]. done.
  - intros [= <- <-]. right. by exists e.
  - intros [[=]|(? & [= <- <-] & ->)]. done.
Qed.

(** ** Paths *)

Lemma last_char_cons c s :
  last_char (String c s) = match last_char s with Some x => Some x | None => Some c end.
Proof.
  revert c. induction s as [|c' s IH]; intros c; [done|].
  change (last_char (String c (String c' s))) with (last_char (String c' s)).
  rewrite IH. by destruct (last_char s).
Qed.

Lemma last_char_app a b :
  last_char (a +:+ b) = match last_char b with Some c => Some c | None => last_char a end.
Proof.
  induction a as [|c a IH].
  - change (EmptyString +:+ b) with b. by destruct (last_char b).
  - change (String c a +:+ b) with (String c (a +:+ b)).
    rewrite !last_char_cons, IH. by destruct (last_char b), (last_char a).
Qed.

Lemma app_length a b : String.length (a +:+ b) = (String.length a + String.length b)%nat.
Proof.
  induction a as [|c a IH]; [done|].
  change (String c a +:+ b) with (String c (a +:+ b)). simpl. by rewrite IH.
Qed.

Lemma string_app_assoc a b c : (a +:+ b) +:+ c = a +:+ b +:+ c.
Proof.
  induction a as [|x a IH]; [done|].
  change (String x a +:+ b) with (String x (a +:+ b)).
  change (String x (a +:+ b) +:+ c) with (String x ((a +:+ b) +:+ c)).
  by rewrite IH.
Qed.

Lemma string_app_inj_r a b c : a +:+ c = b +:+ c → a = b.
Proof.
  revert b. induction a as [|x a IH]; intros [|y b] Heq; [done| | |].
  - apply (f_equal String.length) in Heq. rewrite !app_length in Heq. simpl in Heq. lia.
  - apply (f_equal String.length) in Heq. rewrite !app_length in Heq. simpl in Heq. lia.
  - change (String x (a +:+ c) = String y (b +:+ c)) in Heq.
    injection Heq as -> Heq. f_equal. by apply IH.
Qed.

Lemma bak_ne p : p +:+ ".bak" ≠ p.
Proof. intros H. apply (f_equal String.length) in H. rewrite app_length in H. simpl in H. lia. Qed.

Section Paths.
Variable fh : FileHandler.t.

Lemma dataPath_eq filename :
  dataPath fh filename = FileHandler.projectPath fh +:+ "/data/" +:+ filename.
Proof. reflexivity. Qed.

Lemma dataPath_inj : Inj (=) (=) (dataPath fh).
Proof.
  intros a b. rewrite !dataPath_eq. intros H.
  apply (inj (String.app _)) in H. by apply (inj (String.app "/data/")) in H.
Qed.

Lemma bak_ne_systemPath p : p +:+ ".bak" ≠ systemPath fh.
Proof.
  intros H. apply (f_equal last_char) in H.
  unfold systemPath, FileHandler.resolvePath, path_join in H. simpl in H.
  rewrite !last_char_app in H. simpl in H. done.
Qed.

Lemma systemPath_bak : systemPath fh +:+ ".bak" = dataPath fh "System.json.bak".
Proof.
  rewrite dataPath_eq. unfold systemPath, FileHandler.resolvePath, path_join. simpl.
  by rewrite !string_app_assoc.
Qed.

End Paths.

(** ** FileHandler *)

Section FileHandlerFacts.
Variable fh : FileHandler.t.
Local Abbreviation resolve := (FileHandler.resolvePath fh).

Lemma exists_spec p w :
  FileHandler.exists_ fh p w = (w, Ok (bool_decide (is_Some (files w !! resolve p)))).
Proof.
  unfold FileHandler.exists_, try_catch, bind, fs_access, ret.
  by destruct (files w !! resolve p).
Qed.

Lemma readJson_world {T} `{Json T} p w w' (r : res T) :
  FileHandler.readJson fh p w = (w', r) → w' = w.
Proof.
  unfold FileHandler.readJson, bind, fs_readFile, JSON_parse, ret, throw.
  destruct (files w !! resolve p) as [d|]; [|by intros [= <- <-]].
  destruct d; try destruct (of_doc _); by intros [= <- <-].
Qed.

Lemma readJson_Ok {T} `{Json T} p w w' (x : T) :
  FileHandler.readJson fh p w = (w', Ok x) →
  w' = w ∧ ∃ d, files w !! resolve p = Some d ∧ of_doc d = Some x.
Proof.
  intros Hr. split; [by eapply readJson_world|]. revert Hr.
  unfold FileHandler.readJson, bind, fs_readFile, JSON_parse, ret, throw.
  destruct (files w !! resolve p) as [d|]; [|done].
  destruct d; try destruct (of_doc _) eqn:E; intros [= <- <-]; eauto.
Qed.

Lemma readJson_lookup {T} `{Json T} p w d (x : T) :
  files w !! resolve p = Some d → of_doc d = Some x → (∀ s, d ≠ DText s) →
  FileHandler.readJson fh p w = (w, Ok x).
Proof.
  intros Hd Hx Ht.
  unfold FileHandler.readJson, bind, fs_readFile, JSON_parse, ret, throw.
  rewrite Hd. destruct d; rewrite ?Hx; try done. by destruct (Ht s).
Qed.

Lemma fs_mkdir_inv dir w w' r :
  fs_mkdir dir w = (w', r) → files w' = files w.
Proof.
  unfold fs_mkdir, bind, ret, throw, next_fault.
  destruct (faults w) as [|[] bs]; by intros [= <- <-].
Qed.

Lemma fs_writeFile_Ok p d w w' :
  fs_writeFile p d w = (w', Ok ()) → files w' = <[p := d]> (files w).
Proof.
  unfold fs_writeFile, bind, ret, throw, next_fault.
  destruct (faults w) as [|[] bs]; by intros [= <-].
Qed.


Lemma writeJson_Ok {T} `{Json T} p (x : T) w w' :
  FileHandler.writeJson fh p x w = (w', Ok ()) →
  files w' = <[resolve p := to_doc x]> (files w).
Proof.
  unfold FileHandler.writeJson. intros (w1 & [] & Hm & Hw)%bind_Ok.
  apply fs_mkdir_inv in Hm. apply fs_writeFile_Ok in Hw. by rewrite Hw, Hm.
Qed.



Lemma backup_Ok p w w' b :
  FileHandler.backup fh p w = (w', Ok b) →
  b = resolve p +:+ ".bak" ∧
  ∃ d, files w !! resolve p = Some d ∧ files w' = <[resolve p +:+ ".bak" := d]> (files w).
Proof.
  unfold FileHandler.backup, fs_copyFile, bind, ret, throw, next_fault.
  destruct (faults w) as [|[] bs]; simpl; try done;
    destruct (files w !! resolve p) as [d|] eqn:E; try done;
    intros [= <- <-]; eauto.
Qed.

Lemma backup_Throw p w w' e :
  FileHandler.backup fh p w = (w', Throw e) → files w' = files w.
Proof.
  unfold FileHandler.backup, fs_copyFile, bind, ret, throw, next_fault.
  destruct (faults w) as [|[] bs]; simpl; try done;
    destruct (files w !! resolve p) as [d|] eqn:E; try done;
    by intros [= <- <-].
Qed.

End FileHandlerFacts.

(** ** SafeWriter *)

Lemma backed_up_lookup_ne p q m : q ≠ p +:+ ".bak" → backed_up p m !! q = m !! q.
Proof.
  intros Hq. unfold backed_up. destruct (m !! p); [|done].
  by rewrite lookup_insert_ne.
Qed.

Lemma backed_up_lookup_bak p m old :
  m !! p = Some old → backed_up p m !! (p +:+ ".bak") = Some old.
Proof. intros H. unfold backed_up. rewrite H. apply lookup_insert_eq. Qed.

Section SafeWriterFacts.
Variable sw : SafeWriter.t.
Local Abbreviation fh := (SafeWriter.fileHandler sw).
Local Abbreviation resolve := (FileHandler.resolvePath fh).

Lemma atomicWrite_Ok p write w w' :
  SafeWriter.atomicWrite sw p write w = (w', Ok ()) →
  ∃ w1, files w1 = backed_up (resolve p) (files w) ∧ write w1 = (w', Ok ()).
Proof.
  unfold SafeWriter.atomicWrite.
  intros (w0 & present & He & (w1 & [] & Hb & Hw)%bind_Ok)%bind_Ok.
  rewrite exists_spec in He. injection He as <- <-.
  exists w1. split; [|done]. unfold backed_up.
  destruct (files w !! resolve p) as [old|] eqn:E; simpl in Hb.
  - apply bind_Ok in Hb as (w2 & b & Hb & [= <-]).
    apply backup_Ok in Hb as (_ & d & Hd & ->). congruence.
  - by injection Hb as <-.
Qed.



Lemma atomicWrite_json_Ok {T} `{Json T} p (data : T) w w' :
  SafeWriter.atomicWrite sw p (FileHandler.writeJson fh p data) w = (w', Ok ()) →
  files w' = <[resolve p := to_doc data]> (backed_up (resolve p) (files w)).
Proof.
  intros (w1 & Hw1 & Hw)%atomicWrite_Ok.
  apply writeJson_Ok in Hw. by rewrite Hw, Hw1.
Qed.


Lemma bumpVersion_Ok w w' :
  SafeWriter.bumpVersion sw w = (w', Ok ()) →
  (∃ v, version_of sw w = Some v ∧ version_of sw w' = Some (v + 1)) ∧
  ∀ q, q ≠ systemPath fh → q ≠ systemPath fh +:+ ".bak" → files w' !! q = files w !! q.
Proof.
  unfold SafeWriter.bumpVersion.
  intros (w0 & s & (-> & d & Hd & Hs)%readJson_Ok & Hw)%bind_Ok.
  apply atomicWrite_json_Ok in Hw.
  destruct d; simplify_eq/=. fold (systemPath fh) in *. split.
  - exists (sys_versionId s). unfold version_of. rewrite Hd, Hw, lookup_insert_eq. done.
  - intros q Hq1 Hq2. rewrite Hw, lookup_insert_ne by done. by apply backed_up_lookup_ne.
Qed.


End SafeWriterFacts.

Section WriteToDatabase.
Variable sw : SafeWriter.t.
Local Abbreviation fh := (SafeWriter.fileHandler sw).
Context {T : Type} `{Json T}.

Lemma atomicWrite_Ok_existing p write w w' old :
  files w !! FileHandler.resolvePath fh p = Some old →
  SafeWriter.atomicWrite sw p write w = (w', Ok ()) →
  ∃ w1, FileHandler.backup fh p w = (w1, Ok (FileHandler.resolvePath fh p +:+ ".bak")) ∧
        write w1 = (w', Ok ()).
Proof.
  intros Hold. unfold SafeWriter.atomicWrite.
  intros (w0 & present & He & (w1 & [] & Hb & Hw)%bind_Ok)%bind_Ok.
  rewrite exists_spec in He. injection He as <- <-.
  rewrite Hold in Hb. simpl in Hb.
  apply bind_Ok in Hb as (w2 & b & Hb & [= <-]).
  exists w2. split; [|done].
  pose proof Hb as [-> _]%backup_Ok. done.
Qed.


(** A successful [writeToDatabase] leaves the data in the file. *)
Lemma writeToDatabase_content filename (data : T) w w' :
  filename ≠ "System.json" → filename ≠ "System.json.bak" →
  SafeWriter.writeToDatabase sw filename data w = (w', Ok ()) →
  files w' !! dataPath fh filename = Some (to_doc data).
Proof.
  intros Hn1 Hn2. unfold SafeWriter.writeToDatabase.
  intros (w1 & [] & Hw%atomicWrite_json_Ok & [_ Hb]%bumpVersion_Ok)%bind_Ok.
  rewrite Hb.
  - rewrite Hw. apply lookup_insert_eq.
  - intros Heq. by apply (dataPath_inj fh) in Heq.
  - rewrite systemPath_bak. intros Heq. by apply (dataPath_inj fh) in Heq.
Qed.

End WriteToDatabase.

Section WriteProtocol.
Variable sw : SafeWriter.t.
Local Abbreviation fh := (SafeWriter.fileHandler sw).
Context {T : Type} `{Json T}.

(** The write protocol on any file: an [atomicWrite] of a JSON value that
    returns, on a file that existed with content [old], leaves [old] in
    the backup and the new value in the file. *)
Lemma atomicWrite_backup_fidelity p (data : T) w w' old :
  files w !! FileHandler.resolvePath fh p = Some old →
  SafeWriter.atomicWrite sw p (FileHandler.writeJson fh p data) w = (w', Ok ()) →
  files w' !! (FileHandler.resolvePath fh p +:+ ".bak") = Some old ∧
  files w' !! FileHandler.resolvePath fh p = Some (to_doc data).
Proof.
  intros Hold Hw%atomicWrite_json_Ok. rewrite Hw. split.
  - rewrite lookup_insert_ne by (apply not_eq_sym, bak_ne).
    by apply backed_up_lookup_bak.
  - apply lookup_insert_eq.
Qed.

(** When T exists and its backup copy throws, [atomicWrite] throws that
    failure without running the write. *)
Lemma atomicWrite_abort p write w w1 e :
  is_Some (files w !! FileHandler.resolvePath fh p) →
  FileHandler.backup fh p w = (w1, Throw e) →
  SafeWriter.atomicWrite sw p write w = (w1, Throw e).
Proof.
  intros Hex Hb. unfold SafeWriter.atomicWrite.
  unfold bind at 1. rewrite exists_spec.
  rewrite bool_decide_eq_true_2 by done.
  unfold bind at 1. unfold bind at 1. by rewrite Hb.
Qed.

(** Claim C1 (backup fidelity). A [writeToDatabase] that returns, on a
    file T that existed with content [old], went through these states:
    the backup copy succeeded while T still held [old]; then the new
    content was written to T, and at that point [T.bak] holds exactly
    [old], whatever the backup held before. When the operation is over,
    after the version bump, [T.bak] still holds [old] for every database
    file T (the system file is the one file that the bump itself overwrites
    and backs up again). *)
Theorem writeToDatabase_backup_fidelity filename (data : T) w w' old :
  files w !! dataPath fh filename = Some old →
  SafeWriter.writeToDatabase sw filename data w = (w', Ok ()) →
  ∃ w1 w2,
    FileHandler.backup fh ("data/" +:+ filename) w = (w1, Ok (dataPath fh filename +:+ ".bak")) ∧
    files w1 !! dataPath fh filename = Some old ∧
    FileHandler.writeJson fh ("data/" +:+ filename) data w1 = (w2, Ok ()) ∧
    files w2 !! dataPath fh filename = Some (to_doc data) ∧
    files w2 !! (dataPath fh filename +:+ ".bak") = Some old ∧
    (filename ≠ "System.json" → files w' !! (dataPath fh filename +:+ ".bak") = Some old).
Proof.
  intros Hold. unfold SafeWriter.writeToDatabase.
  intros (w2 & [] & Hw & [_ Hb]%bumpVersion_Ok)%bind_Ok.
  destruct (atomicWrite_Ok_existing sw _ _ _ _ _ Hold Hw) as (w1 & Hbak & Hjson).
  exists w1, w2.
  pose proof Hbak as (_ & d & Hd & Hw1)%backup_Ok.
  pose proof Hjson as Hw2%writeJson_Ok.
  fold (dataPath fh filename) in *. rewrite Hold in Hd. injection Hd as <-.
  assert (files w2 !! (dataPath fh filename +:+ ".bak") = Some old) as Hbak2.
  { rewrite Hw2, lookup_insert_ne by (apply not_eq_sym, bak_ne).
    rewrite Hw1. apply lookup_insert_eq. }
  split_and!; try done.
  - rewrite Hw1, lookup_insert_ne by apply bak_ne. done.
  - rewrite Hw2. apply lookup_insert_eq.
  - intros Hname. rewrite Hb; [done| |].
    + apply bak_ne_systemPath.
    + intros Heq. apply Hname. apply (dataPath_inj fh).
      by apply string_app_inj_r in Heq.
Qed.

(** Claim C2 (abort on backup failure). When T exists and the backup copy
    throws, [writeToDatabase] throws that same failure at once, and the
    disk, T included, is what it was before the operation. *)
Theorem writeToDatabase_backup_failure filename (data : T) w w1 e :
  is_Some (files w !! dataPath fh filename) →
  FileHandler.backup fh ("data/" +:+ filename) w = (w1, Throw e) →
  SafeWriter.writeToDatabase sw filename data w = (w1, Throw e) ∧
  files w1 = files w.
Proof.
  intros Hex Hb. split; [|by eapply backup_Throw].
  unfold SafeWriter.writeToDatabase. unfold bind at 1.
  by rewrite (atomicWrite_abort _ _ _ _ _ Hex Hb).
Qed.

End WriteProtocol.


(** ** The version counter across the database tools *)

Section Counting.
Variable sw : SafeWriter.t.
Local Abbreviation fh := (SafeWriter.fileHandler sw).








Lemma mapFilename_ne id : mapFilename id ≠ "System.json".
Proof. done. Qed.

Lemma databaseFiles_ne d : LimitTools.databaseFiles d ≠ "System.json".
Proof. by destruct d. Qed.




End Counting.

Section ServerCounts.
Variable projectPath : string.
Variable enginePath : option string.
Local Abbreviation fh := (Server.fileHandler projectPath enginePath).
Local Abbreviation sw := (Server.safeWriter projectPath enginePath).





End ServerCounts.

Section VersionMonotonic.
Variable projectPath : string.
Variable enginePath : option string.


End VersionMonotonic.


(** ** Rejected requests write nothing *)

Lemma handler_read {T} `{Json T} fh p (k : T → M ToolResult) w (x : T) :
  FileHandler.readJson fh p w = (w, Ok x) →
  handler (x <- FileHandler.readJson fh p ;; k x) w = handler (k x) w.
Proof. intros Hr. unfold handler, bind. by rewrite Hr. Qed.

Lemma shrink_populated n (data : list (option entity)) i e :
  (length data - n ≤ i)%nat → data !! i = Some (Some e) →
  ∃ len, LimitTools.shrink n data = inl len.
Proof.
  revert data. induction n as [|n IH]; intros data Hi He.
  - apply lookup_lt_Some in He. lia.
  - simpl. pose proof (lookup_lt_Some _ _ _ He) as Hlt.
    destruct (data !! (length data - 1)%nat) as [[last|]|] eqn:Hlast; [by eauto| |by eauto].
    apply IH.
    + rewrite length_take. lia.
    + assert (i ≠ (length data - 1)%nat) by (intros ->; congruence).
      rewrite lookup_take_lt by lia. done.
Qed.

Section Rejections.
Variable fh : FileHandler.t.
Variable sw : SafeWriter.t.

(** Claim C4 (shrink rejection). When the collection holds a populated
    record at a position at or beyond the new length [limit + 1],
    set_database_limit returns a result with the failure flag and the disk
    is unchanged, so a read after the request yields what a read before
    it did. *)
Theorem shrink_rejection args w (data : list (option entity)) i e :
  FileHandler.readJson fh ("data/" +:+ LimitTools.databaseFiles (LimitTools.sl_database args)) w
    = (w, Ok data) →
  LimitTools.sl_limit args + 1 ≤ Z.of_nat i →
  data !! i = Some (Some e) →
  ∃ out, LimitTools.set_database_limit fh sw args w = (w, out) ∧ isError out = true.
Proof.
  intros Hread Hi He. unfold LimitTools.set_database_limit.
  rewrite (handler_read _ _ _ _ _ Hread). cbv zeta.
  pose proof (lookup_lt_Some _ _ _ He) as Hlt.
  rewrite bool_decide_eq_false_2 by lia.
  rewrite bool_decide_eq_true_2 by lia.
  destruct (shrink_populated
              (Z.to_nat (Z.of_nat (length data) - (LimitTools.sl_limit args + 1))) data i e)
    as [len ->]; [lia|done|].
  eexists. split; reflexivity.
Qed.

(** Claim C9 (update of a missing record). When the id is at or beyond
    the length of the collection, or the slot at that id is null,
    update_item and update_state return a result with the failure flag
    and write nothing: the disk is unchanged. *)
Theorem update_not_found :
  (∀ args w (items : list (option RPGItem)),
     FileHandler.readJson fh "data/Items.json" w = (w, Ok items) →
     (length items ≤ Pos.to_nat (ItemTools.ui_id args))%nat ∨
       items !! Pos.to_nat (ItemTools.ui_id args) = Some None →
     ∃ out, ItemTools.update_item fh sw args w = (w, out) ∧ isError out = true) ∧
  (∀ args w (states : list (option RPGState)),
     FileHandler.readJson fh "data/States.json" w = (w, Ok states) →
     (length states ≤ Pos.to_nat (StateTools.ust_id args))%nat ∨
       states !! Pos.to_nat (StateTools.ust_id args) = Some None →
     ∃ out, StateTools.update_state fh sw args w = (w, out) ∧ isError out = true).
Proof.
  split.
  - intros args w items Hread Hcase. unfold ItemTools.update_item. cbv zeta.
    rewrite (handler_read _ _ _ _ _ Hread).
    destruct Hcase as [Hlen| ->].
    + rewrite bool_decide_eq_true_2 by done. simpl. eexists. split; reflexivity.
    + rewrite orb_true_r. eexists. split; reflexivity.
  - intros args w states Hread Hcase. unfold StateTools.update_state. cbv zeta.
    rewrite (handler_read _ _ _ _ _ Hread).
    destruct Hcase as [Hlen| ->].
    + rewrite bool_decide_eq_true_2 by done. simpl. eexists. split; reflexivity.
    + rewrite orb_true_r. eexists. split; reflexivity.
Qed.

End Rejections.

(** At the boundary of a tool the aborted write shows as a result with
    the failure flag: create_item on an existing items file, when the
    backup copy is refused, reports the failure and leaves the disk as
    it was. *)
Lemma create_item_backup_refused projectPath enginePath args w bs
    (items : list (option RPGItem)) :
  let fh := Server.fileHandler projectPath enginePath in
  let sw := Server.safeWriter projectPath enginePath in
  FileHandler.readJson fh "data/Items.json" w = (w, Ok items) →
  faults w = true :: bs →
  ∃ w' out, ItemTools.create_item fh sw args w = (w', out) ∧
            isError out = true ∧ files w' = files w.
Proof.
  intros fh sw Hread Hfaults.
  pose proof Hread as (_ & d & Hd & _)%readJson_Ok.
  assert (FileHandler.backup fh "data/Items.json" w
          = ({| files := files w; faults := bs |}, Throw (EIO (dataPath fh "Items.json" +:+ ".bak"))))
    as Hbackup.
  { unfold FileHandler.backup, fs_copyFile, bind, next_fault. by rewrite Hfaults. }
  unfold ItemTools.create_item. rewrite (handler_read _ _ _ _ _ Hread).
  unfold handler, SafeWriter.writeToDatabase. unfold bind at 1. unfold bind at 1.
  erewrite (atomicWrite_abort sw); [|by eauto|exact Hbackup].
  eexists _, _. split_and!; reflexivity.
Qed.


Lemma shrink_rejection_witness :
  ∃ out, LimitTools.set_database_limit Sample.fh Sample.sw Sample.shrinkArgs (Sample.world [])
         = (Sample.world [], out) ∧ isError out = true.
Proof.
  apply (shrink_rejection Sample.fh Sample.sw Sample.shrinkArgs (Sample.world [])
           (slot_to_doc <$> Sample.items) 2 (EItem (ItemTools.newItem 2 Sample.potion))).
  - reflexivity.
  - simpl. lia.
  - reflexivity.
Defined.


(** ** Typed views *)

Class EntityLaws (R : Type) `{Entity R} := {
  of_to_entity : ∀ r : R, of_entity (to_entity r) = Some r;
  to_of_entity : ∀ e (r : R), of_entity e = Some r → e = to_entity r;
  entity_id_to_entity : ∀ r : R, entity_id (to_entity r) = Some (ent_id r)
}.

#[export] Instance item_laws : EntityLaws RPGItem.
Proof. split; [done| |done]. intros [] ?; naive_solver. Qed.
#[export] Instance skill_laws : EntityLaws RPGSkill.
Proof. split; [done| |done]. intros [] ?; naive_solver. Qed.
#[export] Instance state_laws : EntityLaws RPGState.
Proof. split; [done| |done]. intros [] ?; naive_solver. Qed.
#[export] Instance weapon_laws : EntityLaws RPGWeapon.
Proof. split; [done| |done]. intros [] ?; naive_solver. Qed.
#[export] Instance armor_laws : EntityLaws RPGArmor.
Proof. split; [done| |done]. intros [] ?; naive_solver. Qed.
#[export] Instance actor_laws : EntityLaws RPGActor.
Proof. split; [done| |done]. intros [] ?; naive_solver. Qed.
#[export] Instance class_laws : EntityLaws RPGClass.
Proof. split; [done| |done]. intros [] ?; naive_solver. Qed.
#[export] Instance enemy_laws : EntityLaws RPGEnemy.
Proof. split; [done| |done]. intros [] ?; naive_solver. Qed.
#[export] Instance mapinfo_laws : EntityLaws RPGMapInfo.
Proof. split; [done| |done]. intros [] ?; naive_solver. Qed.

Section Slots.
Context {R : Type} `{EntityLaws R}.

Lemma slot_of_to_doc (s : option R) : slot_of_doc (slot_to_doc s) = Some s.
Proof. destruct s as [r|]; simpl; [by rewrite of_to_entity|done]. Qed.

Lemma slot_to_of_doc (s : option entity) (x : option R) :
  slot_of_doc s = Some x → s = slot_to_doc x.
Proof.
  destruct s as [e|]; simpl.
  - destruct (of_entity e) as [r|] eqn:E; intros [= <-]. simpl.
    by rewrite (to_of_entity e r).
  - by intros [= <-].
Qed.

(** Serialising and parsing an array gives the array back. *)
Lemma array_of_to_doc (l : list (option R)) : of_doc (to_doc l) = Some l.
Proof.
  simpl. induction l as [|s l IH]; [done|].
  rewrite fmap_cons. cbn [mapM]. rewrite slot_of_to_doc. simpl. by rewrite IH.
Qed.

(** An array that parses at type [R] is the serialisation of what it
    parses to. *)
Lemma array_to_of_doc (d : doc) (l : list (option R)) :
  of_doc d = Some l → d = to_doc l.
Proof.
  destruct d as [a| | |]; simpl; try done. intros Hm. f_equal.
  revert l Hm. induction a as [|s a IH]; intros l Hm.
  - by injection Hm as <-.
  - cbn [mapM] in Hm. destruct (slot_of_doc s) as [x|] eqn:Hs; [|done]. simpl in Hm.
    destruct (mapM slot_of_doc a) as [l'|] eqn:Ha; [|done]. injection Hm as <-.
    rewrite fmap_cons. f_equal; [by apply slot_to_of_doc|by apply IH].
Qed.

Lemma readJson_array fh p w (l : list (option R)) :
  files w !! FileHandler.resolvePath fh p = Some (to_doc l) →
  FileHandler.readJson fh p w = (w, Ok l).
Proof.
  intros Hl. eapply readJson_lookup; [done| |done]. apply array_of_to_doc.
Qed.

Lemma readJson_array_inv fh p w w' (l : list (option R)) :
  FileHandler.readJson fh p w = (w', Ok l) →
  files w !! FileHandler.resolvePath fh p = Some (to_doc l).
Proof.
  intros (_ & d & Hd & Hl)%readJson_Ok. by apply array_to_of_doc in Hl as ->.
Qed.

End Slots.

(** ** Create appends *)

Section Create.
Variable projectPath : string.
Variable enginePath : option string.
Local Abbreviation fh := (Server.fileHandler projectPath enginePath).
Local Abbreviation sw := (Server.safeWriter projectPath enginePath).

Lemma create_generic {R} `{EntityLaws R} file (mk : nat → R)
    (msg : list (option R) → text) l w w' out :
  file ≠ "System.json" → file ≠ "System.json.bak" →
  files w !! dataPath fh file = Some (DArray l) →
  handler (items <- FileHandler.readJson (T := list (option R)) fh ("data/" +:+ file) ;;
           SafeWriter.writeToDatabase sw file (items ++ [Some (mk (length items))]) ;;;
           ret (success (msg items))) w = (w', out) →
  isError out = false →
  files w' !! dataPath fh file = Some (DArray (l ++ [Some (to_entity (mk (length l)))])).
Proof.
  intros Hn1 Hn2 Hl Hrun Hok.
  apply handler_inv in Hrun as [Hrun|(e & _ & ->)]; [|done].
  apply bind_Ok in Hrun as (w1 & items & (-> & d & Hd & Hitems)%readJson_Ok & Hrun).
  apply bind_Ok in Hrun as (w2 & [] & Hw & [= <- _]).
  apply (writeToDatabase_content sw) in Hw; [|done..].
  change (SafeWriter.fileHandler sw) with fh in Hw.
  fold (dataPath fh file) in Hd. rewrite Hl in Hd. injection Hd as <-.
  apply array_to_of_doc in Hitems. simpl in Hitems. injection Hitems as ->.
  rewrite Hw. simpl. rewrite fmap_app, length_fmap. done.
Qed.


End Create.


(** ** Listings *)

Section Named.
Context {R : Type} `{Entity R}.

Lemma keep_listed (slot : option R) :
  keep slot = if decide (listed slot) then slot else None.
Proof.
  destruct slot as [r|]; simpl; [|done].
  by destruct (decide (ent_name r = "")).
Qed.

(** The listing keeps exactly the slots that the rule of the
    specification selects, in their order. *)
Lemma named_filter (arr : list (option R)) : Some <$> named arr = filter listed arr.
Proof.
  unfold named. induction arr as [|slot arr IH]; [done|].
  cbn [omap list_omap]. rewrite keep_listed.
  destruct (decide (listed slot)) as [Hl|Hl].
  - rewrite filter_cons_True by done. destruct Hl as (r & -> & Hr).
    rewrite fmap_cons. by rewrite IH.
  - rewrite filter_cons_False by done. done.
Qed.

Lemma elem_of_named (arr : list (option R)) r :
  r ∈ named arr ↔ Some r ∈ arr ∧ ent_name r ≠ "".
Proof.
  unfold named. rewrite list_elem_of_omap. split.
  - intros (slot & Hin & Hk). rewrite keep_listed in Hk.
    destruct (decide (listed slot)) as [(r' & -> & Hr)|]; [|done].
    by injection Hk as <-.
  - intros [Hin Hr]. exists (Some r). split; [done|]. simpl.
    by rewrite decide_False.
Qed.

Lemma count_filter (arr : list (option R)) :
  DatabaseTools.count arr = length (filter listed arr).
Proof. unfold DatabaseTools.count. by rewrite <-named_filter, length_fmap. Qed.

Lemma named_snoc_nameless (arr : list (option R)) r :
  ent_name r = "" → named (arr ++ [Some r]) = named arr.
Proof.
  intros Hr. unfold named. rewrite omap_app. simpl. rewrite Hr.
  rewrite decide_True by done. by rewrite app_nil_r.
Qed.

End Named.

Section Listings.
Variable projectPath : string.
Variable enginePath : option string.
Local Abbreviation fh := (Server.fileHandler projectPath enginePath).
Local Abbreviation sw := (Server.safeWriter projectPath enginePath).

(** After a create_item that succeeds the file holds the collection with
    the new record at its end. *)
Lemma create_item_content args w w' out (items : list (option RPGItem)) :
  FileHandler.readJson fh "data/Items.json" w = (w, Ok items) →
  ItemTools.create_item fh sw args w = (w', out) →
  isError out = false →
  FileHandler.readJson fh "data/Items.json" w' =
    (w', Ok (items ++ [Some (ItemTools.newItem (Z.of_nat (length items)) args)])).
Proof.
  intros Hread%readJson_array_inv Hcall Hok.
  apply readJson_array.
  pose proof (create_generic projectPath enginePath "Items.json"
                (λ n, ItemTools.newItem (Z.of_nat n) args) _ (slot_to_doc <$> items)
                w w' out ltac:(done) ltac:(done) Hread Hcall Hok) as Hc.
  rewrite length_fmap in Hc. simpl. by rewrite fmap_app.
Qed.

(** Claim C10 (listing rule). get_items, get_skills and get_states list
    the summaries of exactly the slots that are non-null and whose name is
    not empty, in their order; the counts of get_database_info are the
    numbers of such slots; and a record created with an empty name sits
    at the end of the collection and is missing from the listing and
    from the count. *)
Theorem listing_rule :
  (∀ w (items : list (option RPGItem)),
     FileHandler.readJson fh "data/Items.json" w = (w, Ok items) →
     ItemTools.get_items fh w =
       (w, success (Stringified (JArr (ItemTools.itemSummary <$> named items)))) ∧
     Some <$> named items = filter listed items) ∧
  (∀ w (skills : list (option RPGSkill)),
     FileHandler.readJson fh "data/Skills.json" w = (w, Ok skills) →
     SkillTools.get_skills fh w =
       (w, success (Stringified (JArr (SkillTools.skillSummary <$> named skills)))) ∧
     Some <$> named skills = filter listed skills) ∧
  (∀ w (states : list (option RPGState)),
     FileHandler.readJson fh "data/States.json" w = (w, Ok states) →
     StateTools.get_states fh w =
       (w, success (Stringified (JArr (StateTools.stateSummary <$> named states)))) ∧
     Some <$> named states = filter listed states) ∧
  (∀ w (actors : list (option RPGActor)) (classes : list (option RPGClass))
     (items : list (option RPGItem)) (skills : list (option RPGSkill))
     (weapons : list (option RPGWeapon)) (armors : list (option RPGArmor))
     (enemies : list (option RPGEnemy)) (states : list (option RPGState)),
     FileHandler.readJson fh "data/Actors.json" w = (w, Ok actors) →
     FileHandler.readJson fh "data/Classes.json" w = (w, Ok classes) →
     FileHandler.readJson fh "data/Items.json" w = (w, Ok items) →
     FileHandler.readJson fh "data/Skills.json" w = (w, Ok skills) →
     FileHandler.readJson fh "data/Weapons.json" w = (w, Ok weapons) →
     FileHandler.readJson fh "data/Armors.json" w = (w, Ok armors) →
     FileHandler.readJson fh "data/Enemies.json" w = (w, Ok enemies) →
     FileHandler.readJson fh "data/States.json" w = (w, Ok states) →
     DatabaseTools.get_database_info fh w =
       (w, success (Stringified (JObj [
          ("actors", DatabaseTools.countOf (length (filter listed actors)));
          ("classes", DatabaseTools.countOf (length (filter listed classes)));
          ("skills", DatabaseTools.countOf (length (filter listed skills)));
          ("items", DatabaseTools.countOf (length (filter listed items)));
          ("weapons", DatabaseTools.countOf (length (filter listed weapons)));
          ("armors", DatabaseTools.countOf (length (filter listed armors)));
          ("enemies", DatabaseTools.countOf (length (filter listed enemies)));
          ("states", DatabaseTools.countOf (length (filter listed states))) ])))) ∧
  (∀ args w w' out (items : list (option RPGItem)),
     ItemTools.ci_name args = "" →
     FileHandler.readJson fh "data/Items.json" w = (w, Ok items) →
     ItemTools.create_item fh sw args w = (w', out) →
     isError out = false →
     FileHandler.readJson fh "data/Items.json" w' =
       (w', Ok (items ++ [Some (ItemTools.newItem (Z.of_nat (length items)) args)])) ∧
     ItemTools.get_items fh w' =
       (w', success (Stringified (JArr (ItemTools.itemSummary <$> named items)))) ∧
     DatabaseTools.count (items ++ [Some (ItemTools.newItem (Z.of_nat (length items)) args)])
       = DatabaseTools.count items).
Proof.
  split_and!.
  - intros w items Hread. split; [|apply named_filter].
    unfold ItemTools.get_items. by rewrite (handler_read _ _ _ _ _ Hread).
  - intros w skills Hread. split; [|apply named_filter].
    unfold SkillTools.get_skills. by rewrite (handler_read _ _ _ _ _ Hread).
  - intros w states Hread. split; [|apply named_filter].
    unfold StateTools.get_states. by rewrite (handler_read _ _ _ _ _ Hread).
  - intros w actors classes items skills weapons armors enemies states H1 H2 H3 H4 H5 H6 H7 H8.
    unfold DatabaseTools.get_database_info, handler, bind.
    rewrite H1, H2, H3, H4, H5, H6, H7, H8. by rewrite !count_filter.
  - intros args w w' out items Hname Hread Hcall Hok.
    pose proof (create_item_content _ _ _ _ _ Hread Hcall Hok) as Hafter.
    split_and!; [done| |].
    + unfold ItemTools.get_items. rewrite (handler_read _ _ _ _ _ Hafter).
      by rewrite named_snoc_nameless.
    + unfold DatabaseTools.count. by rewrite named_snoc_nameless.
Qed.

End Listings.

Lemma listing_rule_witness :
  ItemTools.get_items Sample.fh
    (Server.call "/game" None (Server.Create_item Sample.nameless) (Sample.world [])).1
  = ((Server.call "/game" None (Server.Create_item Sample.nameless) (Sample.world [])).1,
     success (Stringified (JArr (ItemTools.itemSummary <$> named Sample.items)))).
Proof.
  destruct (listing_rule "/game" None) as (_ & _ & _ & _ & Hcreate).
  destruct (Hcreate Sample.nameless (Sample.world [])
              (Server.call "/game" None (Server.Create_item Sample.nameless) (Sample.world [])).1
              (Server.call "/game" None (Server.Create_item Sample.nameless) (Sample.world [])).2
              Sample.items) as (_ & Hlist & _).
  - reflexivity.
  - reflexivity.
  - vm_compute. reflexivity.
  - vm_compute. reflexivity.
  - exact Hlist.
Defined.


(** ** Map files *)

(** No map file name starts like the index: the character after [Map] is
    a digit or a minus sign. *)

Lemma pretty_N_go_not_I x s : not_I s → not_I (pretty_N_go x s).
Proof.
  revert s. induction (N.lt_wf_0 x) as [x _ IH]; intros s Hs.
  assert (x = 0 ∨ 0 < x)%N as [->|?] by lia.
  - by rewrite pretty_N_go_0.
  - rewrite pretty_N_go_step by done. apply IH.
    { by apply N.div_lt. }
    intros c r [= <- _]. unfold pretty_N_char. by repeat case_match.
Qed.

Lemma pretty_Z_not_I (z : Z) : not_I (pretty z).
Proof.
  destruct z as [|p|p].
  - by intros c r [= <- _].
  - change (pretty (Z.pos p)) with (pretty_N_go (N.pos p) "").
    apply pretty_N_go_not_I. by intros c r.
  - by intros c r [= <- _].
Qed.

Lemma padStart3_not_I s : not_I s → not_I (padStart3 s).
Proof.
  intros Hs. unfold padStart3.
  destruct (String.length s) as [|[|[|n]]]; try done; by intros c r [= <- _].
Qed.

Lemma mapFilename_ne_index id : mapFilename id ≠ "MapInfos.json".
Proof.
  unfold mapFilename. intros Heq.
  apply (inj (String.app "Map")) in Heq.
  pose proof (padStart3_not_I _ (pretty_Z_not_I id)) as Hp.
  destruct (padStart3 (pretty id)) as [|c r] eqn:E.
  - discriminate Heq.
  - injection Heq as -> _. by eapply Hp.
Qed.

(** ** The next map id and order *)

Lemma nextMapId_fold (l : list (option RPGMapInfo)) n s a :
  (a ≤ s)%nat →
  (a ≤ foldl (λ newId i, if is_null (l !! i) then newId else (i + 1)%nat) a (seq s n) ≤ s + n)%nat.
Proof.
  revert s a. induction n as [|n IH]; intros s a Ha; simpl; [lia|].
  specialize (IH (S s) (if is_null (l !! s) then a else (s + 1)%nat)).
  destruct (is_null (l !! s)); lia.
Qed.

Lemma nextMapId_eq (mapInfos : list (option RPGMapInfo)) :
  MapTools.nextMapId mapInfos = (1 `max` length mapInfos)%nat.
Proof.
  unfold MapTools.nextMapId.
  pose proof (nextMapId_fold mapInfos (length mapInfos - 1) 1 1 (le_n _)) as Hb.
  case_decide; lia.
Qed.

Lemma foldr_Zmax_base (l : list Z) a x :
  foldr Z.max (Z.max a x) l = Z.max x (foldr Z.max a l).
Proof. induction l as [|y l IH]; simpl; [lia|]. rewrite IH. lia. Qed.

Lemma or_zero_id x : MapTools.or_zero x = x.
Proof. unfold MapTools.or_zero. by case_decide. Qed.

Lemma maxOrder_eq (mapInfos : list (option RPGMapInfo)) :
  MapTools.maxOrder mapInfos = maxPriorOrder mapInfos.
Proof.
  unfold MapTools.maxOrder, maxPriorOrder.
  generalize (omap id mapInfos) 0. intros ms.
  induction ms as [|m ms IH]; intros a; simpl; [done|].
  rewrite IH, or_zero_id. apply foldr_Zmax_base.
Qed.

Lemma foldr_Zmax_ge (l : list Z) x : x ∈ l → x ≤ foldr Z.max 0 l.
Proof.
  induction 1 as [x l|x y l _ IH]; simpl; lia.
Qed.

Lemma foldr_Zmax_le (l : list Z) b : 0 ≤ b → Forall (λ x, x ≤ b) l → foldr Z.max 0 l ≤ b.
Proof. intros Hb. induction 1 as [|x l Hx _ IH]; simpl; lia. Qed.

(** On an index that obeys the invariant and whose last slot is
    populated, the largest populated id is the last position. *)
Lemma maxPopulatedId_last (mapInfos : list (option RPGMapInfo)) m :
  ids_are_positions mapInfos →
  mapInfos !! (length mapInfos - 1)%nat = Some (Some m) →
  maxPopulatedId mapInfos = Z.of_nat (length mapInfos) - 1.
Proof.
  intros Hids Hlast. unfold maxPopulatedId.
  pose proof (lookup_lt_Some _ _ _ Hlast) as Hlen.
  apply Z.le_antisymm.
  - apply foldr_Zmax_le; [lia|]. apply list.Forall_forall. intros x Hx.
    apply list_elem_of_fmap in Hx as (m' & -> & Hm').
    apply list_elem_of_omap in Hm' as (slot & Hslot & Hs). simpl in Hs. subst slot.
    apply list_elem_of_lookup in Hslot as (i & Hi).
    rewrite (Hids _ _ Hi). apply lookup_lt_Some in Hi. lia.
  - rewrite <-(Nat2Z.inj_sub _ 1) by lia. rewrite <-(Hids _ _ Hlast).
    apply foldr_Zmax_ge. apply list_elem_of_fmap. exists m. split; [done|].
    apply list_elem_of_omap. exists (Some m). split; [|done].
    by eapply list_elem_of_lookup_2.
Qed.

(** ** Where [writeMap] leaves the two files *)

Lemma bak_ne_json p q : last_char q = Some "n"%char → p +:+ ".bak" ≠ q.
Proof.
  intros Hq Heq. apply (f_equal last_char) in Heq.
  rewrite last_char_app, Hq in Heq. done.
Qed.

Lemma last_char_dataPath fh f c :
  last_char f = Some c → last_char (dataPath fh f) = Some c.
Proof.
  intros Hf. rewrite dataPath_eq, !last_char_app, Hf. done.
Qed.

Lemma last_char_mapFilename id : last_char (mapFilename id) = Some "n"%char.
Proof. unfold mapFilename. by rewrite !last_char_app. Qed.

Section WriteMap.
Variable sw : SafeWriter.t.
Local Abbreviation fh := (SafeWriter.fileHandler sw).

Lemma writeMap_content id body entry w w' (mapInfos : list (option RPGMapInfo)) :
  files w !! dataPath fh "MapInfos.json" = Some (to_doc mapInfos) →
  SafeWriter.writeMap sw id body entry w = (w', Ok ()) →
  files w' !! dataPath fh (mapFilename id) = Some (DMap body) ∧
  files w' !! dataPath fh "MapInfos.json" = Some (to_doc (mapInfos ++ [Some entry])).
Proof.
  intros Hidx. unfold SafeWriter.writeMap.
  intros (w1 & [] & Hbody%atomicWrite_json_Ok & Hrest)%bind_Ok.
  apply bind_Ok in Hrest as (w2 & index & Hread & Hrest).
  apply bind_Ok in Hrest as (w3 & [] & Hindex%atomicWrite_json_Ok & [_ Hbump]%bumpVersion_Ok).
  fold (dataPath fh (mapFilename id)) in Hbody.
  fold (dataPath fh "MapInfos.json") in Hindex, Hread.
  assert (dataPath fh (mapFilename id) ≠ dataPath fh "MapInfos.json") as Hne.
  { intros Heq%(dataPath_inj fh). by apply mapFilename_ne_index in Heq. }
  assert (files w1 !! dataPath fh "MapInfos.json" = Some (to_doc mapInfos)) as Hidx1.
  { rewrite Hbody, lookup_insert_ne by done. rewrite backed_up_lookup_ne; [done|].
    apply not_eq_sym, bak_ne_json. by apply last_char_dataPath. }
  assert (index = mapInfos ∧ w2 = w1) as [-> ->].
  { pose proof (readJson_array fh "data/MapInfos.json" w1 mapInfos Hidx1) as Hr.
    rewrite Hr in Hread. by injection Hread. }
  split.
  - rewrite Hbump, Hindex.
    + rewrite lookup_insert_ne by done. rewrite backed_up_lookup_ne.
      * rewrite Hbody. apply lookup_insert_eq.
      * apply not_eq_sym, bak_ne_json. apply last_char_dataPath, last_char_mapFilename.
    + intros Heq%(dataPath_inj fh _ "System.json"). done.
    + rewrite systemPath_bak. intros Heq%(dataPath_inj fh). done.
  - rewrite Hbump, Hindex.
    + apply lookup_insert_eq.
    + intros Heq%(dataPath_inj fh _ "System.json"). done.
    + rewrite systemPath_bak. intros Heq%(dataPath_inj fh). done.
Qed.

End WriteMap.

(** ** create_map *)

Lemma createDefaultMap_Ok width height w :
  0 ≤ width * height * 6 < 2 ^ 32 →
  ∃ d, MapTools.createDefaultMap width height w = (w, Ok d) ∧
       map_data d = replicate (Z.to_nat (width * height * 6)) 0.
Proof.
  intros Hsize. unfold MapTools.createDefaultMap, MapTools.new_Array_fill, bind, ret.
  rewrite bool_decide_eq_true_2 by done. eexists. split; reflexivity.
Qed.

Lemma newMapData_inv args w w' body :
  MapTools.newMapData args w = (w', Ok body) →
  w' = w ∧
  (∃ d, MapTools.createDefaultMap (MapTools.cm_width args) (MapTools.cm_height args) w
          = (w, Ok d) ∧ map_data d = map_data body) ∧
  map_data body =
    replicate (Z.to_nat (MapTools.cm_width args * MapTools.cm_height args * 6)) 0.
Proof.
  unfold MapTools.newMapData, MapTools.createDefaultMap, MapTools.new_Array_fill, bind, ret, throw.
  case_bool_decide; [|done]. intros [= <- <-]. split_and!; [done| |done].
  eexists. split; reflexivity.
Qed.

Section CreateMap.
Variable projectPath : string.
Variable enginePath : option string.
Local Abbreviation fh := (Server.fileHandler projectPath enginePath).
Local Abbreviation sw := (Server.safeWriter projectPath enginePath).

Lemma create_map_inv args w w' out (mapInfos : list (option RPGMapInfo)) :
  FileHandler.readJson fh "data/MapInfos.json" w = (w, Ok mapInfos) →
  MapTools.create_map fh sw args w = (w', out) →
  isError out = false →
  ∃ body,
    MapTools.newMapData args w = (w, Ok body) ∧
    SafeWriter.writeMap sw (Z.of_nat (MapTools.nextMapId mapInfos)) body
      (MapTools.newMapInfo mapInfos args) w = (w', Ok ()).
Proof.
  intros Hread Hcall Hok. unfold MapTools.create_map in Hcall.
  rewrite (handler_read _ _ _ _ _ Hread) in Hcall.
  apply handler_inv in Hcall as [Hrun|(e & _ & ->)]; [|done].
  apply bind_Ok in Hrun as (w1 & body & Hbody & Hrun).
  pose proof (newMapData_inv _ _ _ _ Hbody) as (-> & _).
  apply bind_Ok in Hrun as (w2 & [] & Hw & [= <- _]).
  by exists body.
Qed.

(** Claim C7 (map body). For a width and a height within the bounds of
    the schema, the body that a successful create_map leaves in the map
    file has a [data] array of exactly [width * height * 6] entries, all
    0, the array [createDefaultMap] built. *)
Theorem create_map_data args w w' out (mapInfos : list (option RPGMapInfo)) :
  MapTools.createMapSchema_size args →
  FileHandler.readJson fh "data/MapInfos.json" w = (w, Ok mapInfos) →
  MapTools.create_map fh sw args w = (w', out) →
  isError out = false →
  ∃ body,
    files w' !! dataPath fh (mapFilename (Z.of_nat (MapTools.nextMapId mapInfos)))
      = Some (DMap body) ∧
    Z.of_nat (length (map_data body)) = MapTools.cm_width args * MapTools.cm_height args * 6 ∧
    Forall (λ cell, cell = 0) (map_data body) ∧
    ∃ d, MapTools.createDefaultMap (MapTools.cm_width args) (MapTools.cm_height args) w
           = (w, Ok d) ∧ map_data d = map_data body.
Proof.
  intros [Hw Hh] Hread Hcall Hok.
  destruct (create_map_inv _ _ _ _ _ Hread Hcall Hok) as (body & Hbody & Hwrite).
  apply readJson_array_inv in Hread.
  destruct (writeMap_content sw _ _ _ _ _ _ Hread Hwrite) as [Hfile _].
  apply newMapData_inv in Hbody as (_ & Hdefault & Hdata).
  exists body. split_and!; [done| | |done].
  - rewrite Hdata, length_replicate. nia.
  - rewrite Hdata. apply Forall_replicate. done.
Qed.

(** Claim C6, as amended. A successful create_map appends to the index a
    descriptor whose [id] is the length of the index before the call (1
    on an empty index), and whose [order] is the maximum order among the
    populated descriptors (0 when there is none or when all are negative)
    plus 1. That [id] is the largest populated id plus 1 when the last
    slot of the index is populated and ids are positions. *)
Theorem create_map_descriptor args w w' out (mapInfos : list (option RPGMapInfo)) :
  FileHandler.readJson fh "data/MapInfos.json" w = (w, Ok mapInfos) →
  MapTools.create_map fh sw args w = (w', out) →
  isError out = false →
  let m := MapTools.newMapInfo mapInfos args in
  files w' !! dataPath fh "MapInfos.json" = Some (to_doc (mapInfos ++ [Some m])) ∧
  mapinfo_id m = Z.of_nat (1 `max` length mapInfos) ∧
  mapinfo_order m = maxPriorOrder mapInfos + 1 ∧
  (∀ last, ids_are_positions mapInfos →
           mapInfos !! (length mapInfos - 1)%nat = Some (Some last) →
           mapinfo_id m = maxPopulatedId mapInfos + 1).
Proof.
  intros Hread Hcall Hok m.
  destruct (create_map_inv _ _ _ _ _ Hread Hcall Hok) as (body & Hbody & Hwrite).
  apply readJson_array_inv in Hread.
  destruct (writeMap_content sw _ _ _ _ _ _ Hread Hwrite) as [_ Hindex].
  split_and!; [done| | |].
  - unfold m. simpl. by rewrite nextMapId_eq.
  - unfold m. simpl. by rewrite maxOrder_eq.
  - intros last Hids Hlast. unfold m. simpl.
    rewrite nextMapId_eq, (maxPopulatedId_last _ _ Hids Hlast).
    apply lookup_lt_Some in Hlast. lia.
Qed.

End CreateMap.

Lemma create_map_data_witness :
  ∃ body,
    files (MapTools.create_map Sample.fh Sample.sw Sample.mapArgs (Sample.world [])).1
      !! "/game/data/Map004.json" = Some (DMap body) ∧
    Z.of_nat (length (map_data body)) = 20 * 15 * 6 ∧
    Forall (λ cell, cell = 0) (map_data body).
Proof.
  destruct (create_map_data "/game" None Sample.mapArgs (Sample.world [])
              (MapTools.create_map Sample.fh Sample.sw Sample.mapArgs (Sample.world [])).1
              (MapTools.create_map Sample.fh Sample.sw Sample.mapArgs (Sample.world [])).2
              Sample.mapInfos) as (body & Hfile & Hlen & Hzero & _).
  - split; simpl; lia.
  - reflexivity.
  - vm_compute. reflexivity.
  - vm_compute. reflexivity.
  - exists body. split_and!; [exact Hfile|exact Hlen|exact Hzero].
Defined.

Lemma create_map_descriptor_witness :
  let m := MapTools.newMapInfo Sample.mapInfos Sample.mapArgs in
  files (MapTools.create_map Sample.fh Sample.sw Sample.mapArgs (Sample.world [])).1
    !! "/game/data/MapInfos.json" = Some (to_doc (Sample.mapInfos ++ [Some m])) ∧
  mapinfo_id m = 4 ∧ mapinfo_order m = 3.
Proof.
  destruct (create_map_descriptor "/game" None Sample.mapArgs (Sample.world [])
              (MapTools.create_map Sample.fh Sample.sw Sample.mapArgs (Sample.world [])).1
              (MapTools.create_map Sample.fh Sample.sw Sample.mapArgs (Sample.world [])).2
              Sample.mapInfos) as (Hfile & Hid & Horder & _).
  - reflexivity.
  - vm_compute. reflexivity.
  - vm_compute. reflexivity.
  - split_and!; [exact Hfile|exact Hid|exact Horder].
Defined.

(** On the index [null, map 1, map 2, null] of length 4 the descriptor
    gets id 4, while the largest populated id plus 1 is 3. *)
Lemma create_map_id_counterexample :
  let run := MapTools.create_map Sample.fh Sample.sw Sample.mapArgs (Sample.world []) in
  let m := MapTools.newMapInfo Sample.mapInfos Sample.mapArgs in
  isError run.2 = false ∧
  files run.1 !! dataPath Sample.fh "MapInfos.json" = Some (to_doc (Sample.mapInfos ++ [Some m])) ∧
  length Sample.mapInfos = 4%nat ∧
  mapinfo_id m ≠ maxPopulatedId Sample.mapInfos + 1.
Proof. vm_compute. split_and!; done. Qed.


(** ** install_plugin *)

(** *** The header pattern *)

Lemma string_app_cons c a b : String c a +:+ b = String c (a +:+ b).
Proof. reflexivity. Qed.

Lemma string_app_nil_l b : "" +:+ b = b.
Proof. reflexivity. Qed.

Lemma literal_ci_split word s r :
  PluginTools.literal_ci word s = Some r → ∃ t, s = t +:+ r ∧ same_word word t = true.
Proof.
  revert s. induction word as [|l word IH]; intros s; simpl.
  - intros [= <-]. by exists "".
  - destruct s as [|c s]; [done|].
    destruct (PluginTools.char_ci l c) eqn:Hc; [|done].
    intros (t & -> & Ht)%IH. exists (String c t). split; [done|]. simpl.
    by rewrite Hc, Ht.
Qed.

Lemma literal_ci_join word t r :
  same_word word t = true → PluginTools.literal_ci word (t +:+ r) = Some r.
Proof.
  revert t. induction word as [|l word IH]; intros [|c t]; simpl; try done.
  intros [Hc Ht]%andb_true_iff. rewrite ?string_app_cons; simpl; rewrite Hc. by apply IH.
Qed.

Lemma spaces_split s : ∃ sp, s = sp +:+ PluginTools.spaces s ∧ all_space sp = true.
Proof.
  induction s as [|c s (sp & Hs & Hsp)]; simpl.
  - by exists "".
  - destruct (PluginTools.is_space c) eqn:Hc.
    + exists (String c sp). rewrite ?string_app_cons, <-Hs. simpl. by rewrite Hc, Hsp.
    + by exists "".
Qed.

Lemma spaces_join sp r :
  all_space sp = true → PluginTools.spaces (sp +:+ r) = PluginTools.spaces r.
Proof.
  induction sp as [|c sp IH]; simpl; [done|].
  intros [Hc Hsp]%andb_true_iff. rewrite ?string_app_cons. simpl. rewrite Hc. by apply IH.
Qed.

(** A character that matches a pattern character other than a space is
    not a space. *)
Lemma char_ci_not_space l c :
  PluginTools.char_ci l c = true → PluginTools.is_space l = false →
  PluginTools.is_space c = false.
Proof.
  unfold PluginTools.char_ci. intros Hl%bool_decide_eq_true Hs. subst l.
  destruct (PluginTools.is_space c) eqn:Hc; [|done].
  assert (PluginTools.lower c = c) as Heq; [|by rewrite Heq, Hc in Hs].
  clear Hs. destruct c as [[] [] [] [] [] [] [] []]; try discriminate Hc; reflexivity.
Qed.

(** A pattern character that is not a letter matches itself only. *)
Lemma char_ci_symbol l c :
  l ∈ ["/"; "*"; ":"]%char → PluginTools.char_ci l c = true → c = l.
Proof.
  unfold PluginTools.char_ci. intros Hl Hc%bool_decide_eq_true. subst l.
  destruct c as [[] [] [] [] [] [] [] []]; first
    [ reflexivity
    | exfalso; repeat (apply elem_of_cons in Hl as [Hl|Hl]; [discriminate Hl|]);
      by apply elem_of_nil in Hl ].
Qed.

Lemma spaces_word word t r l word' :
  word = String l word' → PluginTools.is_space l = false →
  same_word word t = true → PluginTools.spaces (t +:+ r) = t +:+ r.
Proof.
  intros -> Hl. destruct t as [|c t]; simpl; [done|].
  intros [Hc _]%andb_true_iff. rewrite ?string_app_cons. simpl.
  by rewrite (char_ci_not_space _ _ Hc Hl).
Qed.

Lemma header_here_spec s :
  PluginTools.header_here s = true ↔
  ∃ sp1 sp2 target sp3 mz after,
    s = "/*:" +:+ sp1 +:+ "*" +:+ sp2 +:+ target +:+ sp3 +:+ mz +:+ after ∧
    all_space sp1 = true ∧ all_space sp2 = true ∧ same_word "@target" target = true ∧
    all_space sp3 = true ∧ sp3 ≠ "" ∧ same_word "mz" mz = true.
Proof.
  unfold PluginTools.header_here. split.
  - destruct (PluginTools.literal_ci "/*:" s) as [s1|] eqn:H1; [|done].
    destruct (PluginTools.literal_ci "*" (PluginTools.spaces s1)) as [s2|] eqn:H2; [|done].
    destruct (PluginTools.literal_ci "@target" (PluginTools.spaces s2)) as [s3|] eqn:H3; [|done].
    destruct (PluginTools.spaces1 s3) as [s4|] eqn:H4; [|done].
    intros [after H5]%bool_decide_eq_true.
    apply literal_ci_split in H1 as (open & -> & Hopen).
    apply literal_ci_split in H2 as (star & Hs1 & Hstar).
    apply literal_ci_split in H3 as (target & Hs2 & Htarget).
    apply literal_ci_split in H5 as (mz & -> & Hmz).
    destruct (spaces_split s1) as (sp1 & Es1 & Hsp1).
    destruct (spaces_split s2) as (sp2 & Es2 & Hsp2).
    assert (open = "/*:") as ->.
    { destruct open as [|a [|b [|c [|d open]]]]; simpl in Hopen;
        rewrite ?andb_false_r in Hopen; try done.
      apply andb_true_iff in Hopen as [Ha [Hb [Hc _]%andb_true_iff]%andb_true_iff].
      apply char_ci_symbol in Ha as ->, Hb as ->, Hc as ->; [done|set_solver..]. }
    assert (star = "*") as ->.
    { destruct star as [|a [|b star]]; simpl in Hstar;
        rewrite ?andb_false_r in Hstar; try done.
      apply andb_true_iff in Hstar as [Ha _].
      apply char_ci_symbol in Ha as ->; [done|set_solver]. }
    destruct s3 as [|c s3]; [done|]. simpl in H4.
    destruct (PluginTools.is_space c) eqn:Hc; [|done]. injection H4 as H4.
    destruct (spaces_split s3) as (sp3 & Es3 & Hsp3). rewrite H4 in Es3.
    exists sp1, sp2, target, (String c sp3), mz, after.
    split_and!; try done; [|simpl; by rewrite Hc, Hsp3].
    change ("/*:" +:+ s1 = "/*:" +:+ sp1 +:+ "*" +:+ sp2 +:+ target +:+
                           String c (sp3 +:+ mz +:+ after)).
    f_equal. etrans; [exact Es1|]. f_equal. rewrite Hs1. f_equal.
    etrans; [exact Es2|]. f_equal. rewrite Hs2. by rewrite <-Es3.
  - intros (sp1 & sp2 & target & sp3 & mz & after & -> & Hsp1 & Hsp2 & Htarget & Hsp3 & Hne & Hmz).
    rewrite (literal_ci_join "/*:" "/*:") by done.
    rewrite (spaces_join sp1) by done.
    change (PluginTools.spaces ("*" +:+ ?x)) with ("*" +:+ x).
    rewrite (literal_ci_join "*" "*") by done.
    rewrite (spaces_join sp2) by done.
    rewrite (spaces_word "@target" target _ "@" "target") by done.
    rewrite (literal_ci_join "@target" target) by done.
    destruct sp3 as [|c sp3]; [done|]. simpl in Hsp3.
    apply andb_true_iff in Hsp3 as [Hc Hsp3].
    rewrite string_app_cons. unfold PluginTools.spaces1. rewrite Hc.
    rewrite (spaces_join sp3) by done.
    rewrite (spaces_word "mz" mz _ "m" "z") by done.
    rewrite (literal_ci_join "mz" mz) by done.
    apply bool_decide_eq_true. eauto.
Qed.

(** [MZ_HEADER_REGEX.test] accepts exactly the code that has the header
    the pattern describes. *)
Lemma MZ_HEADER_REGEX_test_spec code :
  PluginTools.MZ_HEADER_REGEX_test code = true ↔ has_MZ_header code.
Proof.
  unfold has_MZ_header. split.
  - induction code as [|c code IH]; simpl.
    + done.
    + intros [(sp1 & sp2 & t & sp3 & mz & after & H)%header_here_spec|Hrest]%orb_true_iff.
      * exists "". eauto 10.
      * destruct (IH Hrest) as (before & sp1 & sp2 & t & sp3 & mz & after & -> & H).
        exists (String c before). eauto 10.
  - intros (before & sp1 & sp2 & t & sp3 & mz & after & -> & H).
    induction before as [|c before IH].
    + rewrite string_app_nil_l.
      assert (PluginTools.header_here
                ("/*:" +:+ sp1 +:+ "*" +:+ sp2 +:+ t +:+ sp3 +:+ mz +:+ after) = true) as Hh.
      { apply header_here_spec. eauto 10. }
      revert Hh. generalize ("/*:" +:+ sp1 +:+ "*" +:+ sp2 +:+ t +:+ sp3 +:+ mz +:+ after).
      intros s Hs. destruct s as [|c s]; [by vm_compute in Hs|].
      cbn [PluginTools.MZ_HEADER_REGEX_test]. by rewrite Hs.
    + rewrite string_app_cons. cbn [PluginTools.MZ_HEADER_REGEX_test].
      rewrite IH. apply orb_true_r.
Qed.

(** The generated header is one that the pattern detects. *)
Lemma header_detected description author rest :
  PluginTools.MZ_HEADER_REGEX_test
    (PluginTools.createPluginHeader description author +:+ rest) = true.
Proof. reflexivity. Qed.

Lemma finalCode_detected args :
  PluginTools.MZ_HEADER_REGEX_test (PluginTools.finalCode args) = true.
Proof.
  unfold PluginTools.finalCode.
  destruct (PluginTools.MZ_HEADER_REGEX_test (PluginTools.ip_code args)) eqn:E.
  - exact E.
  - exact (header_detected _ _ _).
Qed.

Section WritePlugin.
Variable sw : SafeWriter.t.
Local Abbreviation fh := (SafeWriter.fileHandler sw).







End WritePlugin.

Section InstallPlugin.
Variable projectPath : string.
Variable enginePath : option string.
Variable parse : string → option (list PluginConfig).
Variable splice : string → list PluginConfig → string.
Local Abbreviation fh := (Server.fileHandler projectPath enginePath).
Local Abbreviation sw := (Server.safeWriter projectPath enginePath).



End InstallPlugin.


(** ** The theorems at work on the sample disk *)

Lemma writeToDatabase_backup_fidelity_witness :
  let data := Sample.items ++ [Some (ItemTools.newItem 3 Sample.potion)] in
  let w' := (SafeWriter.writeToDatabase Sample.sw "Items.json" data (Sample.world [])).1 in
  files w' !! "/game/data/Items.json.bak" = Some (to_doc Sample.items).
Proof.
  intros data w'.
  destruct (writeToDatabase_backup_fidelity Sample.sw "Items.json" data
              (Sample.world []) w' (to_doc Sample.items))
    as (w1 & w2 & _ & _ & _ & _ & _ & Hbak).
  - vm_compute. reflexivity.
  - vm_compute. reflexivity.
  - apply Hbak. discriminate.
Defined.

Lemma writeToDatabase_backup_failure_witness :
  let data := Sample.items ++ [Some (ItemTools.newItem 3 Sample.potion)] in
  SafeWriter.writeToDatabase Sample.sw "Items.json" data (Sample.world [true])
    = (Sample.world [], Throw (EIO "/game/data/Items.json.bak")) ∧
  files (Sample.world []) = files (Sample.world [true]).
Proof.
  intros data.
  apply (writeToDatabase_backup_failure Sample.sw "Items.json" data (Sample.world [true])).
  - vm_compute. eauto.
  - vm_compute. reflexivity.
Defined.



Lemma update_not_found_witness :
  (∃ out, ItemTools.update_item Sample.fh Sample.sw Sample.missingItem (Sample.world [])
          = (Sample.world [], out) ∧ isError out = true) ∧
  (∃ out, StateTools.update_state Sample.fh Sample.sw Sample.missingState (Sample.world [])
          = (Sample.world [], out) ∧ isError out = true).
Proof.
  destruct (update_not_found Sample.fh Sample.sw) as [Hitem Hstate]. split.
  - apply (Hitem Sample.missingItem (Sample.world []) Sample.items).
    + reflexivity.
    + left. simpl. lia.
  - apply (Hstate Sample.missingState (Sample.world []) Sample.states).
    + reflexivity.
    + right. reflexivity.
Defined.


(** The end-to-end scenario of the specification: on an items collection
    of length 3, an item with [hpRecoveryPercent=50, addStateId=7] gets id 3,
    one RecoverHP effect of value 0.5 and one AddState effect for state 7. *)
Example end_to_end_item :
  let item := ItemTools.newItem (Z.of_nat (length Sample.items)) Sample.potion in
  item_id item = 3 ∧
  eff_code <$> item_effects item = [EffectCode.RecoverHP; EffectCode.AddState] ∧
  eff_dataId <$> item_effects item = [0; 7] ∧
  eff_value1 <$> item_effects item = [(Qc_of_Z 1 / Qc_of_Z 2)%Qc; 1%Qc] ∧
  length (Sample.items ++ [Some item]) = 4%nat.
Proof.
  split_and!; try reflexivity.
  simpl. f_equal. apply Qc_is_canon. reflexivity.
Qed.

(** * Properties of the code beyond the claims *)

(** ** String methods *)

Lemma startsWith_spec s p : startsWith s p = true ↔ ∃ rest, s = p +:+ rest.
Proof.
  revert s. induction p as [|a p IH]; intros s.
  - split; [|done]. intros _. by exists s.
  - destruct s as [|b s]; simpl.
    + split; [done|]. by intros (rest & [=]).
    + rewrite andb_true_iff, bool_decide_eq_true, IH. split.
      * intros [-> (rest & ->)]. by exists rest.
      * intros (rest & Heq). change (String b s = String a (p +:+ rest)) in Heq.
        injection Heq as -> ->. eauto.
Qed.

Lemma endsWith_spec s p : endsWith s p = true ↔ ∃ pre, s = pre +:+ p.
Proof.
  induction s as [|c s IH]; simpl.
  - rewrite orb_false_r, bool_decide_eq_true. split.
    + intros <-. by exists "".
    + intros ([|] & Heq); [done|]. done.
  - rewrite orb_true_iff, bool_decide_eq_true, IH. split.
    + intros [<-|(pre & ->)]; [by exists ""|]. by exists (String c pre).
    + intros ([|c' pre] & Heq).
      * left. done.
      * right. change (String c s = String c' (pre +:+ p)) in Heq.
        injection Heq as -> ->. eauto.
Qed.

Lemma endsWith_empty s : endsWith s "" = true.
Proof.
  apply endsWith_spec. exists s. induction s as [|c s IH]; [done|].
  change (String c s = String c (s +:+ "")). by f_equal.
Qed.

(** ** FileHandler: what is written is what is read *)

(** The views whose document reads back as the value, and is JSON. *)
Class JsonLaws (T : Type) `{Json T} := {
  of_to_doc : ∀ x : T, of_doc (to_doc x) = Some x;
  to_doc_json : ∀ (x : T) s, to_doc x ≠ DText s
}.

#[export] Instance array_json_laws {R} `{EntityLaws R} : JsonLaws (list (option R)).
Proof. split; [apply array_of_to_doc|done]. Qed.
#[export] Instance unknown_array_json_laws : JsonLaws (list (option entity)).
Proof. by split. Qed.
#[export] Instance map_json_laws : JsonLaws RPGMap.
Proof. by split. Qed.
#[export] Instance system_json_laws : JsonLaws RPGSystem.
Proof. by split. Qed.



(** ** FileHandler: backup *)



(** ** FileHandler: listings *)

Section Listings.
Variable fh : FileHandler.t.
Variable readdir : Readdir.

Lemma listFiles_total dir ext w :
  ∃ names, FileHandler.listFiles fh readdir dir ext w = (w, Ok names).
Proof.
  unfold FileHandler.listFiles, try_catch, bind, fs_readdir, ret.
  destruct (readdir _ w); eauto.
Qed.

Lemma listFiles_extension dir ext w names n :
  ext ≠ "" →
  FileHandler.listFiles fh readdir dir (Some ext) w = (w, Ok names) →
  n ∈ names → ∃ pre, n = pre +:+ ext.
Proof.
  intros Hext. unfold FileHandler.listFiles, try_catch, bind, fs_readdir, ret.
  destruct (readdir _ w) as [entries|e].
  - rewrite decide_False by done. intros [= <-] [Hn _]%list_elem_of_filter.
    by apply endsWith_spec, Is_true_true.
  - intros [= <-] Hn. by apply elem_of_nil in Hn.
Qed.

(** Property X3 (listFiles and listDirs). The two listings never throw
    and change nothing. For a folder that cannot be read both are empty.
    Otherwise they give, in the order of the folder, the names of the
    entries that are files (and end in the extension, when one is given)
    and of the entries that are folders. *)
Theorem listing_never_fails dir ext w :
  ∃ names dirs,
    FileHandler.listFiles fh readdir dir ext w = (w, Ok names) ∧
    FileHandler.listDirs fh readdir dir w = (w, Ok dirs) ∧
    match readdir (FileHandler.resolvePath fh dir) w with
    | Throw _ => names = [] ∧ dirs = []
    | Ok entries =>
        names `sublist_of` (dirent_name <$> entries) ∧
        dirs `sublist_of` (dirent_name <$> entries) ∧
        (∀ n, n ∈ names ↔
              ∃ e, e ∈ entries ∧ dirent_kind e = IsFile ∧ dirent_name e = n ∧
                   ∀ x, ext = Some x → ∃ pre, n = pre +:+ x) ∧
        (∀ n, n ∈ dirs ↔
              ∃ e, e ∈ entries ∧ dirent_kind e = IsDirectory ∧ dirent_name e = n)
    end.
Proof.
  unfold FileHandler.listFiles, FileHandler.listDirs, try_catch, bind, fs_readdir, ret.
  destruct (readdir (FileHandler.resolvePath fh dir) w) as [entries|e]; [|eexists _, _; split_and!; reflexivity].
  eexists _, _. split; [reflexivity|]. split; [reflexivity|].
  assert (∀ e : Dirent, isFile e ↔ dirent_kind e = IsFile) as HisFile.
  { intros [n []]; unfold isFile; simpl; split; done. }
  assert (∀ e : Dirent, isDirectory e ↔ dirent_kind e = IsDirectory) as HisDir.
  { intros [n []]; unfold isDirectory; simpl; split; done. }
  split_and!.
  - transitivity (dirent_name <$> filter (λ e, isFile e) entries).
    + destruct ext as [x|]; [|done]. destruct (decide (x = "")); [done|].
      apply sublist_filter.
    + apply fmap_sublist, sublist_filter.
  - apply fmap_sublist, sublist_filter.
  - intros n. destruct ext as [x|]; [destruct (decide (x = "")) as [->|Hx]|].
    + rewrite list_elem_of_fmap. split.
      * intros (e & -> & [He Hin]%list_elem_of_filter). exists e. split_and!; [done|exact (proj1 (HisFile e) He)|done|].
        intros x [= <-]. apply endsWith_spec, endsWith_empty.
      * intros (e & Hin & Hk & <- & _). exists e. split; [done|].
        apply list_elem_of_filter. split; [exact (proj2 (HisFile e) Hk)|done].
    + rewrite list_elem_of_filter, list_elem_of_fmap. split.
      * intros [Hend (e & -> & [He Hin]%list_elem_of_filter)].
        exists e. split_and!; [done|exact (proj1 (HisFile e) He)|done|].
        intros x' [= <-]. apply endsWith_spec. by apply Is_true_true.
      * intros (e & Hin & Hk & <- & Hext). split.
        -- apply Is_true_true, endsWith_spec. by apply Hext.
        -- exists e. split; [done|]. apply list_elem_of_filter. split; [exact (proj2 (HisFile e) Hk)|done].
    + rewrite list_elem_of_fmap. split.
      * intros (e & -> & [He Hin]%list_elem_of_filter). exists e. split_and!; [done|exact (proj1 (HisFile e) He)|done|done].
      * intros (e & Hin & Hk & <- & _). exists e. split; [done|].
        apply list_elem_of_filter. split; [exact (proj2 (HisFile e) Hk)|done].
  - intros n. rewrite list_elem_of_fmap. split.
    + intros (e & -> & [He Hin]%list_elem_of_filter). exists e. split_and!; [done|exact (proj1 (HisDir e) He)|done].
    + intros (e & Hin & Hk & <-). exists e. split; [done|].
      apply list_elem_of_filter. split; [exact (proj2 (HisDir e) Hk)|done].
Qed.

End Listings.

(** ** Plugins *)

(** Property X4 (the registry entry). Registering an entry puts it in
    the list. A name that is not there yet is appended at the end; a
    name that is there is replaced at its first position, and the list
    of names is as it was. Registering the same entry again changes
    nothing. *)
Theorem register_spec plugins entry :
  let result := PluginTools.register plugins entry in
  entry ∈ result ∧
  (plugin_name entry ∉ plugin_name <$> plugins → result = plugins ++ [entry]) ∧
  (plugin_name entry ∈ plugin_name <$> plugins →
     ∃ i old, plugins !! i = Some old ∧ plugin_name old = plugin_name entry ∧
              (∀ j p, plugins !! j = Some p → (j < i)%nat → plugin_name p ≠ plugin_name entry) ∧
              result = <[i := entry]> plugins) ∧
  plugin_name <$> result =
    (if decide (plugin_name entry ∈ plugin_name <$> plugins)
     then plugin_name <$> plugins else (plugin_name <$> plugins) ++ [plugin_name entry]) ∧
  PluginTools.register result entry = result.
Proof.
  intros result. unfold result, PluginTools.register.
  destruct (list_find _ plugins) as [[i old]|] eqn:Hfind.
  - pose proof Hfind as (Hi & Hname & Hfirst)%list_find_Some.
    pose proof (lookup_lt_Some _ _ _ Hi) as Hlt.
    assert (plugin_name entry ∈ plugin_name <$> plugins) as Hin.
    { apply list_elem_of_fmap. exists old. split; [done|]. by eapply list_elem_of_lookup_2. }
    split_and!.
    + apply list_elem_of_lookup. exists i. by rewrite list_lookup_insert_eq.
    + done.
    + intros _. exists i, old. split_and!; done.
    + rewrite decide_True by done. rewrite list_fmap_insert, <-Hname.
      apply list_insert_id. by rewrite list_lookup_fmap, Hi.
    + assert (list_find (λ p, plugin_name p = plugin_name entry) (<[i := entry]> plugins)
              = Some (i, entry)) as ->.
      { apply list_find_Some. split_and!.
        - by rewrite list_lookup_insert_eq.
        - done.
        - intros j y Hj Hji. rewrite list_lookup_insert_ne in Hj by lia. by apply (Hfirst j y). }
      by rewrite list_insert_insert_eq.
  - pose proof Hfind as Hnone%list_find_None.
    assert (plugin_name entry ∉ plugin_name <$> plugins) as Hnin.
    { intros (p & Hp & Hin)%list_elem_of_fmap.
      rewrite list.Forall_forall in Hnone. by apply (Hnone p). }
    split_and!.
    + apply elem_of_app. right. by left.
    + done.
    + done.
    + rewrite decide_False by done. by rewrite fmap_app.
    + assert (list_find (λ p, plugin_name p = plugin_name entry) (plugins ++ [entry])
              = Some (length plugins, entry)) as ->.
      { apply list_find_Some. split_and!.
        - by rewrite lookup_app_r, Nat.sub_diag.
        - done.
        - intros j y Hj Hji. rewrite lookup_app_l in Hj by done.
          rewrite list.Forall_forall in Hnone. apply Hnone. by eapply list_elem_of_lookup_2. }
      by rewrite insert_app_r_alt, Nat.sub_diag.
Qed.

Lemma has_MZ_header_context a b c : has_MZ_header b → has_MZ_header (a +:+ b +:+ c).
Proof.
  intros (before & sp1 & sp2 & t & sp3 & mz & after & -> & H).
  exists (a +:+ before), sp1, sp2, t, sp3, mz, (after +:+ c). split; [|done].
  by rewrite !string_app_assoc.
Qed.

(** Property X5 (the code that is installed). The code that
    install_plugin writes is a fixed point: installed again, it is
    written as it is, with no second header. And a code that holds an
    MZ header anywhere is written as it is. *)
Theorem finalCode_fixed_points args :
  PluginTools.finalCode (with_code args (PluginTools.finalCode args)) = PluginTools.finalCode args ∧
  (∀ a b c, PluginTools.MZ_HEADER_REGEX_test b = true →
            PluginTools.finalCode (with_code args (a +:+ b +:+ c)) = a +:+ b +:+ c).
Proof.
  split.
  - unfold PluginTools.finalCode at 1. simpl. by rewrite finalCode_detected.
  - intros a b c Hb%MZ_HEADER_REGEX_test_spec.
    unfold PluginTools.finalCode. simpl.
    rewrite (proj2 (MZ_HEADER_REGEX_test_spec _) (has_MZ_header_context a b c Hb)). done.
Qed.

Section Installed.
Variable fh : FileHandler.t.
Variable readdir : Readdir.
Variable parse : string → option (list PluginConfig).

Lemma registryFile_eq :
  FileHandler.resolvePath fh "js/plugins.js" = FileHandler.getProjectPath fh +:+ "/js/plugins.js".
Proof. reflexivity. Qed.

Lemma readRegistered_world w w' r :
  PluginTools.readRegistered fh parse w = (w', r) → w' = w.
Proof.
  unfold PluginTools.readRegistered, try_catch. unfold bind at 1.
  destruct (FileHandler.readJson _ _ w) as [w1 [d|e]] eqn:Hr;
    apply readJson_world in Hr as ->; [|by intros [= <- _]].
  unfold bind, fs_readFile.
  destruct (files w !! _) as [[]|]; by intros [= <- _].
Qed.

(** Property X6 (get_installed_plugins on a registry script). The
    registry is a script, not JSON, so the [readJson] that opens the
    [try] block throws and nothing is taken as registered, whatever the
    script holds: the answer has no registered plugin and lists every
    script of the plugins folder as available, with the first [.js] of
    its name removed. *)
Theorem get_installed_plugins_script script w :
  files w !! (FileHandler.getProjectPath fh +:+ "/js/plugins.js") = Some (DText script) →
  ∃ pluginFiles,
    FileHandler.listFiles fh readdir "js/plugins" (Some ".js") w = (w, Ok pluginFiles) ∧
    PluginTools.get_installed_plugins fh readdir parse w =
      (w, success (Stringified (JObj [
            ("registered", JArr []);
            ("available", JArr (JStr <$> ((λ f, replace f ".js" "") <$> pluginFiles))) ]))).
Proof.
  intros Hscript.
  destruct (listFiles_total fh readdir "js/plugins" (Some ".js") w) as (pluginFiles & Hlist).
  exists pluginFiles. split; [done|].
  unfold PluginTools.get_installed_plugins, handler. unfold bind at 1.
  assert (PluginTools.readRegistered fh parse w = (w, Ok [])) as ->.
  { unfold PluginTools.readRegistered, try_catch. unfold bind at 1.
    unfold FileHandler.readJson, bind, fs_readFile. rewrite registryFile_eq, Hscript. done. }
  unfold bind. rewrite Hlist. simpl.
  assert (∀ names : list string, filter (λ name, name ∉ []) names = names) as ->; [|done].
  intros names. induction names as [|name names IH]; [done|].
  rewrite filter_cons_True by apply not_elem_of_nil. by rewrite IH.
Qed.

End Installed.

Lemma get_installed_plugins_script_witness :
  PluginTools.get_installed_plugins Sample.fh Sample.readdir Sample.registered (Sample.world []) =
    (Sample.world [],
     success (Stringified (JObj [ ("registered", JArr []);
                                  ("available", JArr [JStr "Hello"]) ]))).
Proof.
  destruct (get_installed_plugins_script Sample.fh Sample.readdir Sample.registered
              "var $plugins = [];" (Sample.world [])) as (pluginFiles & Hlist & Hcall).
  - reflexivity.
  - rewrite Hcall. vm_compute in Hlist. injection Hlist as <-. reflexivity.
Defined.


(** ** Resources *)

Section Resources.
Variable fh : FileHandler.t.
Variable readdir : Readdir.

(** Property X7 (scan_resources). scan_resources always answers, and
    without the failure flag: a folder that cannot be read counts as
    empty, and nothing is written. It lists the project only when asked
    for it, and the engine only when asked for it and an engine path is
    set; for plugins it lists names that end in [.js] only. *)
Theorem scan_resources_answers args w :
  ∃ result_project result_engine,
    ResourceTools.scan_resources fh readdir args w =
      (w, success (Stringified (JObj [
            ("project", JArr (JStr <$> result_project));
            ("engine", JArr (JStr <$> result_engine)) ]))) ∧
    (ResourceTools.sr_source args = ResourceTools.engine → result_project = []) ∧
    (ResourceTools.sr_source args = ResourceTools.project → result_engine = []) ∧
    (ResourceTools.configured (FileHandler.getEnginePath fh) = None → result_engine = []) ∧
    (ResourceTools.sr_category args = ResourceTools.plugins →
       ∀ n, n ∈ result_project ++ result_engine → ∃ pre, n = pre +:+ ".js").
Proof.
  unfold ResourceTools.scan_resources, handler. cbv zeta.
  set (category := ResourceTools.category_name (ResourceTools.sr_category args)).
  set (extension := if decide (category = "plugins") then Some ".js" else None).
  set (categoryPath := ResourceTools.getCategoryPath category).
  destruct (listFiles_total fh readdir categoryPath extension w) as (names & Hnames).
  assert (ResourceTools.sr_category args = ResourceTools.plugins → extension = Some ".js")
    as Hext.
  { intros Hc. unfold extension, category. by rewrite Hc. }
  (* the engine part *)
  set (scanEngine :=
         match ResourceTools.configured (FileHandler.getEnginePath fh) with
         | Some enginePath =>
             try_catch
               (entries <- fs_readdir readdir
                             (path_join (path_join enginePath "newdata") categoryPath) ;;
                ret (dirent_name <$>
                     filter (λ e, ResourceTools.hasExtension extension e)
                            (filter (λ e, isFile e) entries)))
               (λ _, ret [])
         | None => ret []
         end).
  assert (∃ found, scanEngine w = (w, Ok found) ∧
            (ResourceTools.configured (FileHandler.getEnginePath fh) = None → found = []) ∧
            (ResourceTools.sr_category args = ResourceTools.plugins →
               ∀ n, n ∈ found → ∃ pre, n = pre +:+ ".js")) as (found & Hfound & Hnone & Hjs).
  { unfold scanEngine.
    destruct (ResourceTools.configured (FileHandler.getEnginePath fh)) as [e|].
    - unfold try_catch, bind, fs_readdir, ret. destruct (readdir _ w) as [entries|err].
      + eexists. split; [done|]. split; [done|].
        intros Hc n (entry & -> & [Hent _]%list_elem_of_filter)%list_elem_of_fmap.
        unfold ResourceTools.hasExtension in Hent. rewrite (Hext Hc) in Hent.
        by apply endsWith_spec, Is_true_true.
      + exists []. split; [done|]. split; [done|]. intros _ n Hn. by apply elem_of_nil in Hn.
    - exists []. split; [done|]. split; [done|]. intros _ n Hn. by apply elem_of_nil in Hn. }
  assert (ResourceTools.sr_category args = ResourceTools.plugins →
          ∀ n, n ∈ names → ∃ pre, n = pre +:+ ".js") as Hjs'.
  { intros Hc n Hn. rewrite (Hext Hc) in Hnames.
    by eapply (listFiles_extension fh readdir categoryPath ".js" w names). }
  fold scanEngine.
  destruct (ResourceTools.sr_source args) eqn:Hsource.
  - exists names, []. split; [unfold bind; by rewrite Hnames|].
    split_and!; try done. intros Hc n Hn. rewrite app_nil_r in Hn. by apply Hjs'.
  - exists [], found. split; [unfold bind; simpl; by rewrite Hfound|].
    split_and!; done.
  - exists names, found. split; [unfold bind; rewrite Hnames, Hfound; done|].
    split_and!; try done.
    intros Hc n [Hn|Hn]%elem_of_app; [by apply Hjs'|by apply Hjs].
Qed.

(** Property X8 (scan_dlc_packages). Without an engine path the answer
    is the failure that asks for it. With one, the packages are the
    folders of [dlc] whose name does not start with a dot; a [dlc]
    folder that cannot be read is a failure. Nothing is written. *)
Theorem scan_dlc_packages_spec w :
  match ResourceTools.configured (FileHandler.getEnginePath fh) with
  | None =>
      ResourceTools.scan_dlc_packages fh readdir w =
        (w, failure (Plain "Error: RPGMAKER_ENGINE_PATH not set"))
  | Some enginePath =>
      match readdir (path_join enginePath "dlc") w with
      | Ok entries =>
          ∃ packages,
            ResourceTools.scan_dlc_packages fh readdir w =
              (w, success (Stringified (JArr (JStr <$> packages)))) ∧
            ∀ n, n ∈ packages ↔
                 ∃ e, e ∈ entries ∧ dirent_kind e = IsDirectory ∧ dirent_name e = n ∧
                      ¬ ∃ rest, n = "." +:+ rest
      | Throw e =>
          ResourceTools.scan_dlc_packages fh readdir w = (w, failure (Caught e))
      end
  end.
Proof.
  unfold ResourceTools.scan_dlc_packages, handler.
  destruct (ResourceTools.configured (FileHandler.getEnginePath fh)) as [enginePath|]; [|done].
  unfold bind, fs_readdir.
  destruct (readdir (path_join enginePath "dlc") w) as [entries|e]; [|done].
  eexists. split; [reflexivity|].
  intros n. rewrite list_elem_of_fmap. split.
  - intros (e & -> & [He Hin]%list_elem_of_filter). exists e.
    apply andb_True in He as [Hd Hdot]. split_and!; [done| |done|].
    + by destruct e as [? []].
    + intros Hrest%startsWith_spec. rewrite Hrest in Hdot. done.
  - intros (e & Hin & Hk & <- & Hdot). exists e. split; [done|].
    apply list_elem_of_filter. split; [|done]. apply andb_True. split.
    + unfold isDirectory. by rewrite Hk.
    + apply negb_True. intros Hs%Is_true_true%startsWith_spec. by apply Hdot.
Qed.

End Resources.

(** ** A record that was created is listed *)

Section CreateListed.
Variable projectPath : string.
Variable enginePath : option string.
Local Abbreviation fh := (Server.fileHandler projectPath enginePath).
Local Abbreviation sw := (Server.safeWriter projectPath enginePath).

(** After a create that succeeds, a read of the file gives the
    collection with the new record at its end. *)
Lemma create_content {R} `{EntityLaws R} file (mk : nat → R)
    (msg : list (option R) → text) (items : list (option R)) w w' out :
  file ≠ "System.json" → file ≠ "System.json.bak" →
  FileHandler.readJson fh ("data/" +:+ file) w = (w, Ok items) →
  handler (items <- FileHandler.readJson (T := list (option R)) fh ("data/" +:+ file) ;;
           SafeWriter.writeToDatabase sw file (items ++ [Some (mk (length items))]) ;;;
           ret (success (msg items))) w = (w', out) →
  isError out = false →
  FileHandler.readJson fh ("data/" +:+ file) w' = (w', Ok (items ++ [Some (mk (length items))])).
Proof.
  intros Hn1 Hn2 Hread%readJson_array_inv Hcall Hok.
  apply readJson_array.
  pose proof (create_generic projectPath enginePath file mk msg (slot_to_doc <$> items)
                w w' out Hn1 Hn2 Hread Hcall Hok) as Hc.
  rewrite length_fmap in Hc. simpl. by rewrite fmap_app.
Qed.

Lemma named_snoc {R} `{Entity R} (arr : list (option R)) r :
  ent_name r ≠ "" → named (arr ++ [Some r]) = named arr ++ [r].
Proof.
  intros Hr. unfold named. rewrite omap_app. simpl. by rewrite decide_False.
Qed.

(** Property X9 (create_item, then get_items). After a create_item
    with a name that is not empty, get_items answers with the summaries
    it would have given before, followed by the summary of the new item:
    its id is the former length of the collection, and its name,
    description, price, icon and type are those of the request. *)
Theorem create_item_listed args w w' out (items : list (option RPGItem)) :
  ItemTools.ci_name args ≠ "" →
  FileHandler.readJson fh "data/Items.json" w = (w, Ok items) →
  ItemTools.create_item fh sw args w = (w', out) →
  isError out = false →
  ItemTools.get_items fh w' =
    (w', success (Stringified (JArr (
       (ItemTools.itemSummary <$> named items) ++
       [ JObj [ ("id", JNum (Z.of_nat (length items)));
                ("name", JStr (ItemTools.ci_name args));
                ("description", JStr (ItemTools.ci_description args));
                ("price", JNum (ItemTools.ci_price args));
                ("iconIndex", JNum (ItemTools.ci_iconIndex args));
                ("type", JStr (match ItemTools.ci_type args with
                               | ItemTools.key => "key"
                               | ItemTools.regular => "regular"
                               end)) ] ])))).
Proof.
  intros Hname Hread Hcall Hok.
  pose proof (create_content "Items.json" (λ n, ItemTools.newItem (Z.of_nat n) args) _ items
                w w' out ltac:(done) ltac:(done) Hread Hcall Hok) as Hafter.
  unfold ItemTools.get_items. rewrite (handler_read _ _ _ _ _ Hafter).
  rewrite named_snoc by done. rewrite fmap_app.
  unfold handler, ret. do 5 f_equal.
  unfold ItemTools.itemSummary, ItemTools.newItem. simpl.
  by destruct (ItemTools.ci_type args).
Qed.

(** Property X10 (create_weapon, then get_weapons). After a
    create_weapon with a name that is not empty, get_weapons answers
    with the former summaries followed by that of the new weapon, whose
    [attack] is the attack of the request. *)
Theorem create_weapon_listed args w w' out (weapons : list (option RPGWeapon)) :
  WeaponTools.cw_name args ≠ "" →
  FileHandler.readJson fh "data/Weapons.json" w = (w, Ok weapons) →
  WeaponTools.create_weapon fh sw args w = (w', out) →
  isError out = false →
  WeaponTools.get_weapons fh w' =
    (w', success (Stringified (JArr (
       (WeaponTools.weaponSummary <$> named weapons) ++
       [ JObj [ ("id", JNum (Z.of_nat (length weapons)));
                ("name", JStr (WeaponTools.cw_name args));
                ("description", JStr (WeaponTools.cw_description args));
                ("price", JNum (WeaponTools.cw_price args));
                ("attack", JNum (WeaponTools.cw_attack args));
                ("wtypeId", JNum (WeaponTools.cw_wtypeId args));
                ("iconIndex", JNum (WeaponTools.cw_iconIndex args)) ] ])))).
Proof.
  intros Hname Hread Hcall Hok.
  pose proof (create_content "Weapons.json" (λ n, WeaponTools.newWeapon (Z.of_nat n) args) _ weapons
                w w' out ltac:(done) ltac:(done) Hread Hcall Hok) as Hafter.
  unfold WeaponTools.get_weapons. rewrite (handler_read _ _ _ _ _ Hafter).
  rewrite named_snoc by done. by rewrite fmap_app.
Qed.

(** Property X11 (create_armor, then get_armors). After a create_armor
    with a name that is not empty, get_armors answers with the former
    summaries followed by that of the new armor, whose [stats] are the
    def, mdf and agi of the request. *)
Theorem create_armor_listed args w w' out (armors : list (option RPGArmor)) :
  ArmorTools.ca_name args ≠ "" →
  FileHandler.readJson fh "data/Armors.json" w = (w, Ok armors) →
  ArmorTools.create_armor fh sw args w = (w', out) →
  isError out = false →
  ArmorTools.get_armors fh w' =
    (w', success (Stringified (JArr (
       (ArmorTools.armorSummary <$> named armors) ++
       [ JObj [ ("id", JNum (Z.of_nat (length armors)));
                ("name", JStr (ArmorTools.ca_name args));
                ("description", JStr (ArmorTools.ca_description args));
                ("price", JNum (ArmorTools.ca_price args));
                ("stats", JObj [ ("def", JNum (ArmorTools.ca_def args));
                                 ("mdf", JNum (ArmorTools.ca_mdf args));
                                 ("agi", JNum (ArmorTools.ca_agi args)) ]);
                ("etypeId", JNum (ArmorTools.ca_etypeId args));
                ("iconIndex", JNum (ArmorTools.ca_iconIndex args)) ] ])))).
Proof.
  intros Hname Hread Hcall Hok.
  pose proof (create_content "Armors.json" (λ n, ArmorTools.newArmor (Z.of_nat n) args) _ armors
                w w' out ltac:(done) ltac:(done) Hread Hcall Hok) as Hafter.
  unfold ArmorTools.get_armors. rewrite (handler_read _ _ _ _ _ Hafter).
  rewrite named_snoc by done. by rewrite fmap_app.
Qed.

(** Property X12 (create_enemy, then get_enemies). After a
    create_enemy with a name that is not empty, get_enemies answers with
    the former summaries followed by that of the new enemy: hp, atk and
    def, exp and gold are those of the request, and the battler is the
    one given, or empty when none or an empty one is given. *)
Theorem create_enemy_listed args w w' out (enemies : list (option RPGEnemy)) :
  EnemyTools.ce_name args ≠ "" →
  FileHandler.readJson fh "data/Enemies.json" w = (w, Ok enemies) →
  EnemyTools.create_enemy fh sw args w = (w', out) →
  isError out = false →
  EnemyTools.get_enemies fh w' =
    (w', success (Stringified (JArr (
       (EnemyTools.enemySummary <$> named enemies) ++
       [ JObj [ ("id", JNum (Z.of_nat (length enemies)));
                ("name", JStr (EnemyTools.ce_name args));
                ("stats", JObj [ ("hp", JNum (EnemyTools.ce_maxHp args));
                                 ("atk", JNum (EnemyTools.ce_atk args));
                                 ("def", JNum (EnemyTools.ce_def args)) ]);
                ("rewards", JObj [ ("exp", JNum (EnemyTools.ce_exp args));
                                   ("gold", JNum (EnemyTools.ce_gold args)) ]);
                ("battler", JStr (default "" (EnemyTools.ce_battlerName args))) ] ])))).
Proof.
  intros Hname Hread Hcall Hok.
  pose proof (create_content "Enemies.json" (λ n, EnemyTools.newEnemy (Z.of_nat n) args) _ enemies
                w w' out ltac:(done) ltac:(done) Hread Hcall Hok) as Hafter.
  unfold EnemyTools.get_enemies. rewrite (handler_read _ _ _ _ _ Hafter).
  rewrite named_snoc by done. rewrite fmap_app.
  unfold handler, ret. do 5 f_equal.
  unfold EnemyTools.enemySummary, EnemyTools.newEnemy. simpl.
  destruct (EnemyTools.ce_battlerName args) as [b|]; simpl; [|done].
  by destruct (decide (b = "")) as [->|].
Qed.

End CreateListed.

Lemma create_item_listed_witness :
  ItemTools.get_items Sample.fh
    (ItemTools.create_item Sample.fh Sample.sw Sample.potion (Sample.world [])).1
  = ((ItemTools.create_item Sample.fh Sample.sw Sample.potion (Sample.world [])).1,
     success (Stringified (JArr (
       (ItemTools.itemSummary <$> named Sample.items) ++
       [ JObj [ ("id", JNum 3); ("name", JStr "Potion"); ("description", JStr "Restores HP");
                ("price", JNum 50); ("iconIndex", JNum 176); ("type", JStr "regular") ] ])))).
Proof.
  apply (create_item_listed "/game" None Sample.potion (Sample.world []) _
           (ItemTools.create_item Sample.fh Sample.sw Sample.potion (Sample.world [])).2
           Sample.items).
  - done.
  - reflexivity.
  - vm_compute. reflexivity.
  - vm_compute. reflexivity.
Defined.

Lemma create_weapon_listed_witness :
  WeaponTools.get_weapons Sample.fh
    (WeaponTools.create_weapon Sample.fh Sample.sw Sample.sword (Sample.stocked [])).1
  = ((WeaponTools.create_weapon Sample.fh Sample.sw Sample.sword (Sample.stocked [])).1,
     success (Stringified (JArr
       [ JObj [ ("id", JNum 1); ("name", JStr "Lascadora"); ("description", JStr "Fire sword");
                ("price", JNum 800); ("attack", JNum 10); ("wtypeId", JNum 2);
                ("iconIndex", JNum 97) ] ]))).
Proof.
  apply (create_weapon_listed "/game" None Sample.sword (Sample.stocked []) _
           (WeaponTools.create_weapon Sample.fh Sample.sw Sample.sword (Sample.stocked [])).2
           [None]).
  - done.
  - reflexivity.
  - vm_compute. reflexivity.
  - vm_compute. reflexivity.
Defined.

Lemma create_armor_listed_witness :
  ArmorTools.get_armors Sample.fh
    (ArmorTools.create_armor Sample.fh Sample.sw Sample.shield (Sample.stocked [])).1
  = ((ArmorTools.create_armor Sample.fh Sample.sw Sample.shield (Sample.stocked [])).1,
     success (Stringified (JArr
       [ JObj [ ("id", JNum 1); ("name", JStr "Test Shield"); ("description", JStr "");
                ("price", JNum 500);
                ("stats", JObj [ ("def", JNum 20); ("mdf", JNum 0); ("agi", JNum 0) ]);
                ("etypeId", JNum 2); ("iconIndex", JNum 0) ] ]))).
Proof.
  apply (create_armor_listed "/game" None Sample.shield (Sample.stocked []) _
           (ArmorTools.create_armor Sample.fh Sample.sw Sample.shield (Sample.stocked [])).2
           [None]).
  - done.
  - reflexivity.
  - vm_compute. reflexivity.
  - vm_compute. reflexivity.
Defined.



Lemma create_enemy_listed_witness :
  EnemyTools.get_enemies Sample.fh
    (EnemyTools.create_enemy Sample.fh Sample.sw Sample.goblin (Sample.stocked [])).1
  = ((EnemyTools.create_enemy Sample.fh Sample.sw Sample.goblin (Sample.stocked [])).1,
     success (Stringified (JArr
       [ JObj [ ("id", JNum 1); ("name", JStr "Test Goblin");
                ("stats", JObj [ ("hp", JNum 500); ("atk", JNum 50); ("def", JNum 10) ]);
                ("rewards", JObj [ ("exp", JNum 100); ("gold", JNum 50) ]);
                ("battler", JStr "") ] ]))).
Proof.
  apply (create_enemy_listed "/game" None Sample.goblin (Sample.stocked []) _
           (EnemyTools.create_enemy Sample.fh Sample.sw Sample.goblin (Sample.stocked [])).2
           [None]).
  - done.
  - reflexivity.
  - vm_compute. reflexivity.
  - vm_compute. reflexivity.
Defined.


(** ** Updates *)

Section Updates.
Variable projectPath : string.
Variable enginePath : option string.
Local Abbreviation fh := (Server.fileHandler projectPath enginePath).
Local Abbreviation sw := (Server.safeWriter projectPath enginePath).

(** What an update that returns without the failure flag has done. *)
Lemma update_generic {R} `{EntityLaws R} file (id : nat) (upd : R → R) (miss : text)
    (msg : R → text) (check : option (option R) → bool) (items : list (option R)) w w' out :
  file ≠ "System.json" → file ≠ "System.json.bak" →
  FileHandler.readJson fh ("data/" +:+ file) w = (w, Ok items) →
  handler (items <- FileHandler.readJson (T := list (option R)) fh ("data/" +:+ file) ;;
           if bool_decide (length items ≤ id)%nat || check (items !! id) then ret (failure miss)
           else match items !! id with
                | Some (Some r) =>
                    SafeWriter.writeToDatabase sw file (<[id := Some (upd r)]> items) ;;;
                    ret (success (msg r))
                | _ => throw TypeError
                end) w = (w', out) →
  isError out = false →
  ∃ r, items !! id = Some (Some r) ∧
       FileHandler.readJson fh ("data/" +:+ file) w' = (w', Ok (<[id := Some (upd r)]> items)).
Proof.
  intros Hn1 Hn2 Hread Hcall Hok.
  rewrite (handler_read _ _ _ _ _ Hread) in Hcall.
  destruct (bool_decide (length items ≤ id)%nat || check (items !! id)).
  { apply handler_inv in Hcall as [[= <- <-]|(e & [=] & _)]. done. }
  destruct (items !! id) as [[r|]|] eqn:Hr.
  2,3: apply handler_inv in Hcall as [[=]|(e & _ & ->)]; done.
  exists r. split; [done|].
  apply handler_inv in Hcall as [Hcall|(e & _ & ->)]; [|done].
  apply bind_Ok in Hcall as (w1 & [] & Hw & [= <- _]).
  apply (writeToDatabase_content sw) in Hw; [|done..].
  by apply readJson_array.
Qed.

(** Property X13 (update_item on an item that is there). After an
    update_item that succeeds, the slot of the id holds the former item
    with the given fields replaced; the collection has the length it
    had and every other slot is as it was; the id, the effects and the
    kind of the item are as they were; and a request that gives no
    field writes the collection back as it was. *)
Theorem update_item_success args w w' out (items : list (option RPGItem)) :
  FileHandler.readJson fh "data/Items.json" w = (w, Ok items) →
  ItemTools.update_item fh sw args w = (w', out) →
  isError out = false →
  ∃ item items',
    items !! Pos.to_nat (ItemTools.ui_id args) = Some (Some item) ∧
    FileHandler.readJson fh "data/Items.json" w' = (w', Ok items') ∧
    items' !! Pos.to_nat (ItemTools.ui_id args) = Some (Some (ItemTools.updatedItem item args)) ∧
    length items' = length items ∧
    (∀ j, j ≠ Pos.to_nat (ItemTools.ui_id args) → items' !! j = items !! j) ∧
    item_id (ItemTools.updatedItem item args) = item_id item ∧
    item_effects (ItemTools.updatedItem item args) = item_effects item ∧
    item_itypeId (ItemTools.updatedItem item args) = item_itypeId item ∧
    (ItemTools.ui_name args = None ∧ ItemTools.ui_description args = None ∧
     ItemTools.ui_price args = None ∧ ItemTools.ui_iconIndex args = None → items' = items).
Proof.
  intros Hread Hcall Hok.
  destruct (update_generic "Items.json" (Pos.to_nat (ItemTools.ui_id args))
              (λ item, ItemTools.updatedItem item args) _ _ is_null items w w' out
              ltac:(done) ltac:(done) Hread Hcall Hok) as (item & Hitem & Hafter).
  exists item, (<[Pos.to_nat (ItemTools.ui_id args) := Some (ItemTools.updatedItem item args)]> items).
  pose proof (lookup_lt_Some _ _ _ Hitem) as Hlt.
  split_and!; try done.
  - by rewrite list_lookup_insert_eq.
  - by rewrite length_insert.
  - intros j Hj. by rewrite list_lookup_insert_ne.
  - intros (Hn & Hd & Hp & Hi). apply list_insert_id.
    rewrite Hitem. do 2 f_equal. unfold ItemTools.updatedItem. rewrite Hn, Hd, Hp, Hi.
    by destruct item.
Qed.

Lemma named_insert_nameless {R} `{Entity R} (l : list (option R)) i r :
  ent_name r = "" → named (<[i := Some r]> l) = named (<[i := None]> l).
Proof.
  intros Hr. unfold named. revert i. induction l as [|x l IH]; intros [|i]; simpl; try done.
  - by rewrite Hr, decide_True.
  - by rewrite IH.
Qed.

(** Property X14 (renaming an item to the empty name). update_item
    accepts the empty string as a name. The item keeps its slot in the
    file, and get_items no longer lists it: the listing is the one of
    the collection with that slot empty. *)
Theorem update_item_hides args w w' out (items : list (option RPGItem)) :
  ItemTools.ui_name args = Some "" →
  FileHandler.readJson fh "data/Items.json" w = (w, Ok items) →
  ItemTools.update_item fh sw args w = (w', out) →
  isError out = false →
  ∃ item items',
    FileHandler.readJson fh "data/Items.json" w' = (w', Ok items') ∧
    items' !! Pos.to_nat (ItemTools.ui_id args) = Some (Some item) ∧
    ItemTools.get_items fh w' =
      (w', success (Stringified (JArr (ItemTools.itemSummary <$> named items')))) ∧
    (item ∉ named items') ∧
    named items' = named (<[Pos.to_nat (ItemTools.ui_id args) := None]> items).
Proof.
  intros Hname Hread Hcall Hok.
  destruct (update_generic "Items.json" (Pos.to_nat (ItemTools.ui_id args))
              (λ item, ItemTools.updatedItem item args) _ _ is_null items w w' out
              ltac:(done) ltac:(done) Hread Hcall Hok) as (item & Hitem & Hafter).
  pose proof (lookup_lt_Some _ _ _ Hitem) as Hlt.
  assert (item_name (ItemTools.updatedItem item args) = "") as Hempty.
  { unfold ItemTools.updatedItem. simpl. by rewrite Hname. }
  eexists _, _. split; [exact Hafter|]. split_and!.
  - by rewrite list_lookup_insert_eq.
  - unfold ItemTools.get_items. by rewrite (handler_read _ _ _ _ _ Hafter).
  - intros [_ Hne]%elem_of_named. by apply Hne.
  - by apply named_insert_nameless.
Qed.

(** Property X15 (update_state, update_actor, update_class on a
    record that is there). After an update that succeeds the file holds
    the former collection with the slot of the id replaced by a record
    of the same [id]; the traits of a state, the equipment of an actor,
    and the parameter curves and learnings of a class are as they
    were. *)
Theorem update_keeps_ids :
  (∀ args w w' out (states : list (option RPGState)),
     FileHandler.readJson fh "data/States.json" w = (w, Ok states) →
     StateTools.update_state fh sw args w = (w', out) →
     isError out = false →
     ∃ state state',
       states !! Pos.to_nat (StateTools.ust_id args) = Some (Some state) ∧
       FileHandler.readJson fh "data/States.json" w'
         = (w', Ok (<[Pos.to_nat (StateTools.ust_id args) := Some state']> states)) ∧
       state_id state' = state_id state ∧ state_traits state' = state_traits state) ∧
  (∀ args w w' out (actors : list (option RPGActor)),
     FileHandler.readJson fh "data/Actors.json" w = (w, Ok actors) →
     ActorTools.update_actor fh sw args w = (w', out) →
     isError out = false →
     ∃ actor actor',
       actors !! Pos.to_nat (ActorTools.uac_id args) = Some (Some actor) ∧
       FileHandler.readJson fh "data/Actors.json" w'
         = (w', Ok (<[Pos.to_nat (ActorTools.uac_id args) := Some actor']> actors)) ∧
       actor_id actor' = actor_id actor ∧ actor_equips actor' = actor_equips actor) ∧
  (∀ args w w' out (classes : list (option RPGClass)),
     FileHandler.readJson fh "data/Classes.json" w = (w, Ok classes) →
     ClassTools.update_class fh sw args w = (w', out) →
     isError out = false →
     ∃ rpgClass rpgClass',
       classes !! Pos.to_nat (ClassTools.ucl_id args) = Some (Some rpgClass) ∧
       FileHandler.readJson fh "data/Classes.json" w'
         = (w', Ok (<[Pos.to_nat (ClassTools.ucl_id args) := Some rpgClass']> classes)) ∧
       class_id rpgClass' = class_id rpgClass ∧
       class_params rpgClass' = class_params rpgClass ∧
       class_learnings rpgClass' = class_learnings rpgClass).
Proof.
  split_and!.
  - intros args w w' out states Hread Hcall Hok.
    destruct (update_generic "States.json" (Pos.to_nat (StateTools.ust_id args))
                (λ state, StateTools.updatedState state args) _
                (λ state, Plain ("Updated state " +:+ dq +:+
                                 state_name (StateTools.updatedState state args) +:+ dq +:+
                                 " (ID " +:+ show_pos (StateTools.ust_id args) +:+ ")"))
                falsy states w w' out
                ltac:(done) ltac:(done) Hread Hcall Hok) as (state & Hstate & Hafter).
    by eexists _, _.
  - intros args w w' out actors Hread Hcall Hok.
    destruct (update_generic "Actors.json" (Pos.to_nat (ActorTools.uac_id args))
                (λ actor, ActorTools.updatedActor actor args) _
                (λ actor, Plain ("Updated actor " +:+ dq +:+
                                 actor_name (ActorTools.updatedActor actor args) +:+ dq +:+
                                 " (ID " +:+ show_pos (ActorTools.uac_id args) +:+ ")"))
                falsy actors w w' out
                ltac:(done) ltac:(done) Hread Hcall Hok) as (actor & Hactor & Hafter).
    by eexists _, _.
  - intros args w w' out classes Hread Hcall Hok.
    destruct (update_generic "Classes.json" (Pos.to_nat (ClassTools.ucl_id args))
                (λ c, ClassTools.updatedClass c args) _
                (λ c, Plain ("Updated class " +:+ dq +:+
                             class_name (ClassTools.updatedClass c args) +:+ dq +:+
                             " (ID " +:+ show_pos (ClassTools.ucl_id args) +:+ ")"))
                falsy classes w w' out
                ltac:(done) ltac:(done) Hread Hcall Hok) as (c & Hc & Hafter).
    by eexists _, _.
Qed.

(** Property X16 (update_actor and update_class on a record that is
    not there). When the id is at or beyond the length of the
    collection, or its slot is null, the answer is the failure that
    names the id, and nothing is written. *)
Theorem update_missing_actor_class :
  (∀ args w (actors : list (option RPGActor)),
     FileHandler.readJson fh "data/Actors.json" w = (w, Ok actors) →
     (length actors ≤ Pos.to_nat (ActorTools.uac_id args))%nat ∨
       actors !! Pos.to_nat (ActorTools.uac_id args) = Some None →
     ActorTools.update_actor fh sw args w =
       (w, failure (Plain ("Error: Actor ID " +:+ show_pos (ActorTools.uac_id args) +:+
                           " not found")))) ∧
  (∀ args w (classes : list (option RPGClass)),
     FileHandler.readJson fh "data/Classes.json" w = (w, Ok classes) →
     (length classes ≤ Pos.to_nat (ClassTools.ucl_id args))%nat ∨
       classes !! Pos.to_nat (ClassTools.ucl_id args) = Some None →
     ClassTools.update_class fh sw args w =
       (w, failure (Plain ("Error: Class ID " +:+ show_pos (ClassTools.ucl_id args) +:+
                           " not found")))).
Proof.
  split.
  - intros args w actors Hread Hcase. unfold ActorTools.update_actor. cbv zeta.
    rewrite (handler_read _ _ _ _ _ Hread).
    destruct Hcase as [Hlen| ->].
    + by rewrite bool_decide_eq_true_2 by done.
    + by rewrite orb_true_r.
  - intros args w classes Hread Hcase. unfold ClassTools.update_class. cbv zeta.
    rewrite (handler_read _ _ _ _ _ Hread).
    destruct Hcase as [Hlen| ->].
    + by rewrite bool_decide_eq_true_2 by done.
    + by rewrite orb_true_r.
Qed.

End Updates.

Lemma update_item_success_witness :
  ∃ items',
    FileHandler.readJson Sample.fh "data/Items.json"
      (ItemTools.update_item Sample.fh Sample.sw Sample.renameItem (Sample.world [])).1
    = ((ItemTools.update_item Sample.fh Sample.sw Sample.renameItem (Sample.world [])).1,
       Ok items') ∧
    items' !! 1%nat =
      Some (Some (ItemTools.updatedItem (ItemTools.newItem 1 Sample.potion) Sample.renameItem)) ∧
    length items' = 3%nat.
Proof.
  destruct (update_item_success "/game" None Sample.renameItem (Sample.world [])
              (ItemTools.update_item Sample.fh Sample.sw Sample.renameItem (Sample.world [])).1
              (ItemTools.update_item Sample.fh Sample.sw Sample.renameItem (Sample.world [])).2
              Sample.items)
    as (item & items' & Hitem & Hread & Hnew & Hlen & _).
  - reflexivity.
  - vm_compute. reflexivity.
  - vm_compute. reflexivity.
  - exists items'.
    change (Some (Some (ItemTools.newItem 1 Sample.potion)) = Some (Some item)) in Hitem.
    injection Hitem as <-.
    split; [exact Hread|]. split; [exact Hnew|exact Hlen].
Defined.



Lemma update_item_hides_witness :
  ItemTools.get_items Sample.fh
    (ItemTools.update_item Sample.fh Sample.sw Sample.unnameItem (Sample.world [])).1
  = ((ItemTools.update_item Sample.fh Sample.sw Sample.unnameItem (Sample.world [])).1,
     success (Stringified (JArr [ItemTools.itemSummary (ItemTools.newItem 2 Sample.potion)]))).
Proof.
  destruct (update_item_hides "/game" None Sample.unnameItem (Sample.world [])
              (ItemTools.update_item Sample.fh Sample.sw Sample.unnameItem (Sample.world [])).1
              (ItemTools.update_item Sample.fh Sample.sw Sample.unnameItem (Sample.world [])).2
              Sample.items)
    as (item & items' & _ & _ & Hlist & _ & Hnamed).
  - reflexivity.
  - reflexivity.
  - vm_compute. reflexivity.
  - vm_compute. reflexivity.
  - change (Server.fileHandler "/game" None) with Sample.fh in Hlist.
    rewrite Hlist, Hnamed. reflexivity.
Defined.



Lemma update_keeps_ids_witness :
  ∃ state',
    FileHandler.readJson Sample.fh "data/States.json"
      (StateTools.update_state Sample.fh Sample.sw Sample.renameState (Sample.world [])).1
    = ((StateTools.update_state Sample.fh Sample.sw Sample.renameState (Sample.world [])).1,
       Ok [None; Some state'; None]) ∧
    state_id state' = 1.
Proof.
  destruct (update_keeps_ids "/game" None) as (Hstate & _ & _).
  destruct (Hstate Sample.renameState (Sample.world [])
              (StateTools.update_state Sample.fh Sample.sw Sample.renameState (Sample.world [])).1
              (StateTools.update_state Sample.fh Sample.sw Sample.renameState (Sample.world [])).2
              Sample.states)
    as (state & state' & Hold & Hread & Hid & _).
  - reflexivity.
  - vm_compute. reflexivity.
  - vm_compute. reflexivity.
  - exists state'. split; [exact Hread|]. injection Hold as <-. exact Hid.
Defined.



Lemma update_missing_actor_class_witness :
  ActorTools.update_actor Sample.fh Sample.sw Sample.missingActor (Sample.stocked []) =
    (Sample.stocked [], failure (Plain "Error: Actor ID 5 not found")).
Proof.
  destruct (update_missing_actor_class "/game" None) as (Hactor & _).
  apply (Hactor Sample.missingActor (Sample.stocked []) Sample.actors).
  - reflexivity.
  - left. simpl. lia.
Defined.


(** ** Records without a name *)

Lemma named_sublist {R} `{Entity R} (arr : list (option R)) :
  named arr `sublist_of` omap id arr.
Proof.
  unfold named. induction arr as [|[r|] arr IH]; simpl; [done| |done].
  destruct (decide (ent_name r = "")); by constructor.
Qed.

Lemma named_length_all {R} `{Entity R} (arr : list (option R)) :
  length (named arr) = length (omap id arr) ↔ ∀ r, Some r ∈ arr → ent_name r ≠ "".
Proof.
  induction arr as [|[r|] arr IH].
  - split; [|done]. intros _ r Hr. by apply elem_of_nil in Hr.
  - pose proof (sublist_length _ _ (named_sublist arr)) as Hle.
    unfold named in *. simpl. destruct (decide (ent_name r = "")) as [Hr|Hr].
    + split.
      { intros Heq. change (length (omap keep arr) = S (length (omap id arr))) in Heq. lia. }
      intros Hall. destruct (Hall r); [left|done].
    + simpl. split.
      * intros Heq r' [[= <-]|Hin]%elem_of_cons; [done|].
        change (S (length (omap keep arr)) = S (length (omap id arr))) in Heq.
        apply IH; [lia|done].
      * intros Hall. change (S (length (omap keep arr)) = S (length (omap id arr))).
        f_equal. apply IH. intros r' Hin. apply Hall. by right.
  - unfold named in *. change (length (omap keep arr) = length (omap id arr) ↔ ∀ r, Some r ∈ None :: arr → ent_name r ≠ ""). rewrite IH. split.
    + intros Hall r [[=]|Hin]%elem_of_cons. by apply Hall.
    + intros Hall r Hin. apply Hall. by right.
Qed.

Section Unnamed.
Variable fh : FileHandler.t.

(** Property X17 (records without a name). get_actors and get_maps
    list every slot that holds a record, also a record whose name is
    empty, which the other listings leave out and get_database_info
    does not count: the count of actors is at most the number of actors
    listed, and equal to it exactly when no actor has an empty name. *)
Theorem unnamed_records_listed :
  (∀ w (actors : list (option RPGActor)),
     FileHandler.readJson fh "data/Actors.json" w = (w, Ok actors) →
     ActorTools.get_actors fh w =
       (w, success (Stringified (JArr (ActorTools.actorSummary <$> omap id actors)))) ∧
     (DatabaseTools.count actors ≤ length (omap id actors))%nat ∧
     (DatabaseTools.count actors = length (omap id actors) ↔
        ∀ a, Some a ∈ actors → actor_name a ≠ "")) ∧
  (∀ w (mapInfos : list (option RPGMapInfo)),
     FileHandler.readJson fh "data/MapInfos.json" w = (w, Ok mapInfos) →
     MapTools.get_maps fh w =
       (w, success (Stringified (JArr (MapTools.mapSummary <$> omap id mapInfos)))) ∧
     (∀ m, Some m ∈ mapInfos → m ∈ omap id mapInfos)).
Proof.
  split.
  - intros w actors Hread. split_and!.
    + unfold ActorTools.get_actors. by rewrite (handler_read _ _ _ _ _ Hread).
    + apply sublist_length, named_sublist.
    + exact (named_length_all actors).
  - intros w mapInfos Hread. split.
    + unfold MapTools.get_maps. by rewrite (handler_read _ _ _ _ _ Hread).
    + intros m Hm. apply list_elem_of_omap. by exists (Some m).
Qed.

End Unnamed.

Lemma unnamed_records_listed_witness :
  ActorTools.get_actors Sample.fh (Sample.stocked []) =
    (Sample.stocked [],
     success (Stringified (JArr [ActorTools.actorSummary (ActorTools.newActor 1 Sample.hero)]))) ∧
  DatabaseTools.count Sample.actors = 0%nat.
Proof.
  destruct (unnamed_records_listed Sample.fh) as [Hactors _].
  destruct (Hactors (Sample.stocked []) Sample.actors)
    as (Hlist & _ & _).
  - reflexivity.
  - split; [exact Hlist|reflexivity].
Defined.

(** ** The limits of the databases *)

Lemma snoc_last {A} (l : list A) x :
  l !! (length l - 1)%nat = Some x → l = take (length l - 1) l ++ [x].
Proof.
  intros Hx. pose proof (lookup_lt_Some _ _ _ Hx) as Hlt.
  rewrite <-(take_drop (length l - 1) l) at 1. f_equal.
  apply list_eq. intros i. destruct i as [|i].
  - rewrite lookup_drop, Nat.add_0_r. done.
  - rewrite lookup_drop. simpl. rewrite lookup_ge_None_2 by lia. done.
Qed.

Lemma shrink_inv n (data : list (option entity)) :
  (n ≤ length data)%nat →
  match LimitTools.shrink n data with
  | inr kept =>
      kept = take (length data - n) data ∧
      Forall (λ slot, slot = None) (drop (length data - n) data)
  | inl len =>
      (length data - n < len ≤ length data)%nat ∧
      (∃ e, data !! (len - 1)%nat = Some (Some e)) ∧
      Forall (λ slot, slot = None) (drop len data)
  end.
Proof.
  revert data. induction n as [|n IH]; intros data Hn.
  - simpl. rewrite Nat.sub_0_r, take_ge, drop_ge by lia. done.
  - simpl. destruct (data !! (length data - 1)%nat) as [[e|]|] eqn:Hlast.
    + split; [lia|]. split; [by eauto|]. by rewrite drop_ge by lia.
    + pose proof (lookup_lt_Some _ _ _ Hlast) as Hlt.
      pose proof (snoc_last _ _ Hlast) as Hdata.
      remember (take (length data - 1) data) as pre eqn:Hpre.
      assert (length pre = (length data - 1)%nat) as Hlen' by (subst pre; rewrite length_take; lia).
      specialize (IH pre ltac:(lia)). rewrite Hlen' in IH.
      replace (length data - 1 - n)%nat with (length data - S n)%nat in IH by lia.
      destruct (LimitTools.shrink n pre) as [len|kept].
      * destruct IH as (Hlen & (e & He) & Hnull). split; [lia|]. split.
        -- exists e. rewrite Hdata. rewrite lookup_app_l; [done|]. by eapply lookup_lt_Some.
        -- rewrite Hdata, drop_app_le by lia.
           apply Forall_app. split; [done|]. by constructor.
      * destruct IH as (-> & Hnull).
        assert (length data - S n ≤ length pre)%nat as Hk by lia.
        revert Hk Hnull. generalize (length data - S n)%nat. intros k Hk Hnull.
        rewrite Hdata. split.
        -- by rewrite take_app_le.
        -- rewrite drop_app_le by done.
           apply Forall_app. split; [done|]. by constructor.
    + apply lookup_ge_None in Hlast. lia.
Qed.

(** Property X18 (the loop that shrinks). Asked to cut an array down
    to its first [t] slots, the loop hands back exactly those slots
    when every slot from [t] on is null; otherwise it stops at the last
    slot that holds a record, which lies at or beyond [t], and reports
    the length up to it. *)
Theorem shrink_spec (data : list (option entity)) (t : nat) :
  (t ≤ length data)%nat →
  match LimitTools.shrink (length data - t) data with
  | inr kept =>
      kept = take t data ∧ Forall (λ slot, slot = None) (drop t data)
  | inl len =>
      (t < len ≤ length data)%nat ∧
      (∃ e, data !! (len - 1)%nat = Some (Some e)) ∧
      (∀ i, (len ≤ i < length data)%nat → data !! i = Some None)
  end.
Proof.
  intros Ht. pose proof (shrink_inv (length data - t) data ltac:(lia)) as Hs.
  replace (length data - (length data - t))%nat with t in Hs by lia.
  destruct (LimitTools.shrink (length data - t) data) as [len|kept]; [|done].
  destruct Hs as (Hlen & He & Hnull). split; [lia|]. split; [done|].
  intros i Hi. rewrite list.Forall_forall in Hnull.
  destruct (data !! i) as [slot|] eqn:Hslot.
  - f_equal. apply Hnull. apply list_elem_of_lookup. exists (i - len)%nat.
    rewrite lookup_drop. rewrite <-Hslot. f_equal. lia.
  - apply lookup_ge_None in Hslot. lia.
Qed.

Lemma shrink_spec_witness :
  match LimitTools.shrink (4 - 2) [None; Some (EOther "a"); None; None] with
  | inr kept => kept = [None; Some (EOther "a")]
  | inl _ => False
  end.
Proof.
  pose proof (shrink_spec [None; Some (EOther "a"); None; None] 2 ltac:(simpl; lia)) as Hs.
  change (length [None; Some (EOther "a"); None; None])%nat with 4%nat in Hs.
  destruct (LimitTools.shrink (4 - 2) [None; Some (EOther "a"); None; None]) as [len|kept].
  - destruct Hs as (Hlen & (e & He) & _).
    assert (len = 3 ∨ len = 4)%nat as [-> | ->] by lia; done.
  - by destruct Hs as [-> _].
Defined.

Lemma databaseFiles_ne_bak d : LimitTools.databaseFiles d ≠ "System.json.bak".
Proof. by destruct d. Qed.

Lemma for_of_pure {A B} (l : list A) (body : A → M B) (f : A → B) w :
  (∀ a, body a w = (w, Ok (f a))) → for_of l body w = (w, Ok (f <$> l)).
Proof.
  intros Hbody. induction l as [|a l IH]; [done|].
  simpl. unfold bind. rewrite Hbody, IH. done.
Qed.

Lemma limitOf_spec fh d w : LimitTools.limitOf fh d w = (w, Ok (limitIn fh w d)).
Proof.
  unfold LimitTools.limitOf, try_catch, bind, limitIn.
  destruct (FileHandler.readJson fh _ w) as [w1 [data|e]] eqn:Hr.
  - apply readJson_Ok in Hr as (-> & doc & Hdoc & Hdata).
    fold (dataPath fh (LimitTools.databaseFiles d)) in Hdoc. rewrite Hdoc.
    destruct doc; simplify_eq/=. done.
  - pose proof (readJson_world _ _ _ _ _ Hr) as ->. unfold ret. do 2 f_equal.
    revert Hr. unfold FileHandler.readJson, bind, fs_readFile, JSON_parse.
    fold (dataPath fh (LimitTools.databaseFiles d)).
    destruct (files w !! dataPath fh (LimitTools.databaseFiles d)) as [[]|]; simpl; done.
Qed.

Lemma elem_of_databases d : d ∈ LimitTools.databases.
Proof. unfold LimitTools.databases. destruct d; set_solver. Qed.

Lemma get_database_limits_eq fh w :
  LimitTools.get_database_limits fh w =
    (w, success (Stringified (JObj
          ((λ d, (LimitTools.database_name d, JNum (limitIn fh w d))) <$> LimitTools.databases)))).
Proof.
  unfold LimitTools.get_database_limits, handler. unfold bind at 1.
  rewrite (for_of_pure _ _ (λ d, (LimitTools.database_name d, JNum (limitIn fh w d)))); [done|].
  intros d. unfold bind. by rewrite limitOf_spec.
Qed.

Section Limits.
Variable sw : SafeWriter.t.
Local Abbreviation fh := (SafeWriter.fileHandler sw).

(** What a set_database_limit that succeeds has written. *)
Lemma set_database_limit_Ok args w w' out (data : list (option entity)) :
  LimitTools.setLimitSchema_limit args →
  FileHandler.readJson fh ("data/" +:+ LimitTools.databaseFiles (LimitTools.sl_database args)) w
    = (w, Ok data) →
  LimitTools.set_database_limit fh sw args w = (w', out) →
  isError out = false →
  Forall (λ slot, slot = None) (drop (Z.to_nat (LimitTools.sl_limit args + 1)) data) ∧
  files w' !! dataPath fh (LimitTools.databaseFiles (LimitTools.sl_database args))
    = Some (DArray (resized data (LimitTools.sl_limit args))).
Proof.
  intros Hschema Hread Hcall Hok. unfold LimitTools.setLimitSchema_limit in Hschema.
  unfold LimitTools.set_database_limit in Hcall.
  rewrite (handler_read _ _ _ _ _ Hread) in Hcall. cbv zeta in Hcall.
  set (file := LimitTools.databaseFiles (LimitTools.sl_database args)) in *.
  set (limit := LimitTools.sl_limit args) in *.
  assert (∀ data' : list (option entity),
            handler (SafeWriter.writeToDatabase sw file data' ;;;
                     ret (success (Plain (LimitTools.database_name (LimitTools.sl_database args)
                            +:+ " limit changed from " +:+ pretty (Z.of_nat (length data) - 1)
                            +:+ " to " +:+ pretty limit)))) w = (w', out) →
            files w' !! dataPath fh file = Some (DArray data')) as Hfinish.
  { intros data' Hrun. apply handler_inv in Hrun as [Hrun|(e & _ & ->)]; [|done].
    apply bind_Ok in Hrun as (w1 & [] & Hw & [= <- _]).
    by apply (writeToDatabase_content sw) in Hw;
      [|apply databaseFiles_ne|apply databaseFiles_ne_bak]. }
  unfold resized. fold limit.
  destruct (bool_decide (Z.of_nat (length data) < limit + 1)) eqn:Hlt.
  - apply bool_decide_eq_true in Hlt. split.
    { rewrite drop_ge by lia. constructor. }
    rewrite (Hfinish _ Hcall). do 2 f_equal. unfold LimitTools.expand.
    rewrite take_ge.
    + do 2 f_equal. lia.
    + rewrite length_app, length_replicate. lia.
  - apply bool_decide_eq_false in Hlt.
    destruct (bool_decide (limit + 1 < Z.of_nat (length data))) eqn:Hgt.
    + apply bool_decide_eq_true in Hgt.
      pose proof (shrink_inv (Z.to_nat (Z.of_nat (length data) - (limit + 1))) data
                    ltac:(lia)) as Hs.
      replace (length data - Z.to_nat (Z.of_nat (length data) - (limit + 1)))%nat
        with (Z.to_nat (limit + 1)) in Hs by lia.
      destruct (LimitTools.shrink _ data) as [len|kept].
      { apply handler_inv in Hcall as [[= <- <-]|(e & [=] & _)]. done. }
      destruct Hs as [-> Hnull]. split; [done|].
      rewrite (Hfinish _ Hcall). do 2 f_equal.
      replace (Z.to_nat (limit + 1) - length data)%nat with 0%nat by lia.
      simpl. by rewrite app_nil_r.
    + apply bool_decide_eq_false in Hgt. split.
      { rewrite drop_ge by lia. constructor. }
      rewrite (Hfinish _ Hcall). do 2 f_equal.
      replace (Z.to_nat (limit + 1) - length data)%nat with 0%nat by lia.
      simpl. rewrite app_nil_r, take_ge by lia. done.
Qed.

(** Property X19 (set_database_limit that succeeds). After a
    set_database_limit that succeeds the file holds an array of length
    [limit + 1], and the records are those of before, each at its
    index: none is lost, moved or made up. *)
Theorem set_database_limit_success args w w' out (data : list (option entity)) :
  LimitTools.setLimitSchema_limit args →
  FileHandler.readJson fh ("data/" +:+ LimitTools.databaseFiles (LimitTools.sl_database args)) w
    = (w, Ok data) →
  LimitTools.set_database_limit fh sw args w = (w', out) →
  isError out = false →
  ∃ data',
    files w' !! dataPath fh (LimitTools.databaseFiles (LimitTools.sl_database args))
      = Some (DArray data') ∧
    Z.of_nat (length data') = LimitTools.sl_limit args + 1 ∧
    (∀ i e, data !! i = Some (Some e) → data' !! i = Some (Some e)) ∧
    (∀ i e, data' !! i = Some (Some e) → data !! i = Some (Some e)).
Proof.
  intros Hschema Hread Hcall Hok.
  destruct (set_database_limit_Ok _ _ _ _ _ Hschema Hread Hcall Hok) as [Hnull Hfile].
  unfold LimitTools.setLimitSchema_limit in Hschema.
  exists (resized data (LimitTools.sl_limit args)). split; [done|].
  unfold resized. set (t := Z.to_nat (LimitTools.sl_limit args + 1)) in *.
  split_and!.
  - rewrite length_take, length_app, length_replicate. lia.
  - intros i e He. pose proof (lookup_lt_Some _ _ _ He) as Hi.
    assert (i < t)%nat as Hit.
    { destruct (decide (i < t)%nat) as [|Hge]; [done|].
      rewrite list.Forall_forall in Hnull.
      assert (Some e = None :> option entity); [|done].
      apply Hnull, list_elem_of_lookup. exists (i - t)%nat.
      rewrite lookup_drop, <-He. f_equal. lia. }
    rewrite lookup_take_lt by done. by rewrite lookup_app_l by done.
  - intros i e He. apply lookup_take_Some in He as [He Hit].
    destruct (decide (i < length data)%nat) as [Hi|Hi].
    + by rewrite lookup_app_l in He by done.
    + rewrite lookup_app_r in He by lia. by apply lookup_replicate in He as [[=] _].
Qed.

(** Property X20 (a limit raised and set back). Raising the limit of a
    database and then setting it back to what it was leaves the file
    with the array it held at the start. *)
Theorem set_database_limit_there_and_back args back w w1 w2 out1 out2
    (data : list (option entity)) :
  LimitTools.setLimitSchema_limit args →
  LimitTools.sl_database back = LimitTools.sl_database args →
  LimitTools.sl_limit back = Z.of_nat (length data) - 1 →
  Z.of_nat (length data) - 1 ≤ LimitTools.sl_limit args →
  (2 ≤ length data)%nat →
  FileHandler.readJson fh ("data/" +:+ LimitTools.databaseFiles (LimitTools.sl_database args)) w
    = (w, Ok data) →
  LimitTools.set_database_limit fh sw args w = (w1, out1) →
  isError out1 = false →
  LimitTools.set_database_limit fh sw back w1 = (w2, out2) →
  isError out2 = false →
  files w2 !! dataPath fh (LimitTools.databaseFiles (LimitTools.sl_database args))
    = Some (DArray data).
Proof.
  intros Hschema Hdb Hlimit Hle Hlen Hread Hcall1 Hok1 Hcall2 Hok2.
  destruct (set_database_limit_Ok _ _ _ _ _ Hschema Hread Hcall1 Hok1) as [_ Hfile1].
  assert (FileHandler.readJson fh
            ("data/" +:+ LimitTools.databaseFiles (LimitTools.sl_database back)) w1
          = (w1, Ok (resized data (LimitTools.sl_limit args)))) as Hread1.
  { rewrite Hdb. eapply readJson_lookup; [exact Hfile1|done|done]. }
  assert (LimitTools.setLimitSchema_limit back) as Hschema2.
  { unfold LimitTools.setLimitSchema_limit in *. lia. }
  destruct (set_database_limit_Ok _ _ _ _ _ Hschema2 Hread1 Hcall2 Hok2) as [_ Hfile2].
  rewrite Hdb in Hfile2. rewrite Hfile2. do 2 f_equal.
  unfold resized. rewrite Hlimit.
  replace (Z.to_nat (Z.of_nat (length data) - 1 + 1)) with (length data) by lia.
  unfold LimitTools.setLimitSchema_limit in Hschema.
  rewrite length_take, length_app, length_replicate.
  replace (length data - _)%nat with 0%nat by lia. simpl. rewrite app_nil_r.
  rewrite take_take. replace (length data `min` _)%nat with (length data) by lia.
  by rewrite take_app_length.
Qed.

(** Property X21 (get_database_limits). get_database_limits always
    answers, and without the failure flag, and writes nothing: one
    limit for each of the twelve databases, in the order of the table.
    The limit is the length of the array less one, and 0 for a file
    that is missing or is not JSON. *)
Theorem get_database_limits_answers w :
  ∃ limits,
    LimitTools.get_database_limits fh w = (w, success (Stringified (JObj limits))) ∧
    limits.*1 = LimitTools.database_name <$> LimitTools.databases ∧
    NoDup limits.*1 ∧
    ∀ d,
      (∀ l, files w !! dataPath fh (LimitTools.databaseFiles d) = Some (DArray l) →
            (LimitTools.database_name d, JNum (Z.of_nat (length l) - 1)) ∈ limits) ∧
      (files w !! dataPath fh (LimitTools.databaseFiles d) = None →
         (LimitTools.database_name d, JNum 0) ∈ limits) ∧
      (∀ s, files w !! dataPath fh (LimitTools.databaseFiles d) = Some (DText s) →
            (LimitTools.database_name d, JNum 0) ∈ limits).
Proof.
  eexists. split; [apply get_database_limits_eq|].
  assert (∀ d v, limitIn fh w d = v →
            (LimitTools.database_name d, JNum v) ∈
              (λ d, (LimitTools.database_name d, JNum (limitIn fh w d))) <$> LimitTools.databases)
    as Hin.
  { intros d v <-. apply list_elem_of_fmap. exists d. split; [done|]. apply elem_of_databases. }
  split_and!.
  - by rewrite <-list_fmap_compose.
  - rewrite <-list_fmap_compose. apply (bool_decide_unpack _). vm_compute. exact I.
  - intros d. split_and!.
    + intros l Hl. apply Hin. unfold limitIn. by rewrite Hl.
    + intros Hl. apply Hin. unfold limitIn. by rewrite Hl.
    + intros s Hl. apply Hin. unfold limitIn. by rewrite Hl.
Qed.

(** Property X22 (a limit that was set is the limit reported). After a
    set_database_limit that succeeds, get_database_limits reports the
    new limit for that database. *)
Theorem set_database_limit_reported args w w' out (data : list (option entity)) :
  LimitTools.setLimitSchema_limit args →
  FileHandler.readJson fh ("data/" +:+ LimitTools.databaseFiles (LimitTools.sl_database args)) w
    = (w, Ok data) →
  LimitTools.set_database_limit fh sw args w = (w', out) →
  isError out = false →
  ∃ limits,
    LimitTools.get_database_limits fh w' = (w', success (Stringified (JObj limits))) ∧
    (LimitTools.database_name (LimitTools.sl_database args), JNum (LimitTools.sl_limit args))
      ∈ limits.
Proof.
  intros Hschema Hread Hcall Hok.
  destruct (set_database_limit_Ok _ _ _ _ _ Hschema Hread Hcall Hok) as [_ Hfile].
  eexists. split; [apply get_database_limits_eq|].
  apply list_elem_of_fmap. exists (LimitTools.sl_database args).
  split; [|apply elem_of_databases]. do 2 f_equal.
  unfold limitIn. rewrite Hfile. unfold resized.
  unfold LimitTools.setLimitSchema_limit in Hschema.
  rewrite length_take, length_app, length_replicate. lia.
Qed.

End Limits.

Lemma set_database_limit_success_witness :
  ∃ data',
    files (LimitTools.set_database_limit Sample.fh Sample.sw Sample.expandArgs (Sample.world [])).1
      !! "/game/data/Items.json" = Some (DArray data') ∧
    Z.of_nat (length data') = 6.
Proof.
  destruct (set_database_limit_success Sample.sw Sample.expandArgs (Sample.world [])
              (LimitTools.set_database_limit Sample.fh Sample.sw Sample.expandArgs
                 (Sample.world [])).1
              (LimitTools.set_database_limit Sample.fh Sample.sw Sample.expandArgs
                 (Sample.world [])).2
              (slot_to_doc <$> Sample.items))
    as (data' & Hfile & Hlen & _).
  - unfold LimitTools.setLimitSchema_limit. simpl. lia.
  - reflexivity.
  - vm_compute. reflexivity.
  - vm_compute. reflexivity.
  - exists data'. split; [exact Hfile|exact Hlen].
Defined.

Lemma set_database_limit_there_and_back_witness :
  files (LimitTools.set_database_limit Sample.fh Sample.sw Sample.backArgs
           (LimitTools.set_database_limit Sample.fh Sample.sw Sample.expandArgs
              (Sample.world [])).1).1
    !! "/game/data/Items.json" = Some (to_doc Sample.items).
Proof.
  apply (set_database_limit_there_and_back Sample.sw Sample.expandArgs Sample.backArgs
           (Sample.world [])
           (LimitTools.set_database_limit Sample.fh Sample.sw Sample.expandArgs
              (Sample.world [])).1
           (LimitTools.set_database_limit Sample.fh Sample.sw Sample.backArgs
              (LimitTools.set_database_limit Sample.fh Sample.sw Sample.expandArgs
                 (Sample.world [])).1).1
           (LimitTools.set_database_limit Sample.fh Sample.sw Sample.expandArgs
              (Sample.world [])).2
           (LimitTools.set_database_limit Sample.fh Sample.sw Sample.backArgs
              (LimitTools.set_database_limit Sample.fh Sample.sw Sample.expandArgs
                 (Sample.world [])).1).2
           (slot_to_doc <$> Sample.items)).
  - unfold LimitTools.setLimitSchema_limit. simpl. lia.
  - reflexivity.
  - reflexivity.
  - simpl. lia.
  - simpl. lia.
  - reflexivity.
  - vm_compute. reflexivity.
  - vm_compute. reflexivity.
  - vm_compute. reflexivity.
  - vm_compute. reflexivity.
Defined.

Lemma set_database_limit_reported_witness :
  ∃ limits,
    LimitTools.get_database_limits Sample.fh
      (LimitTools.set_database_limit Sample.fh Sample.sw Sample.expandArgs (Sample.world [])).1
    = ((LimitTools.set_database_limit Sample.fh Sample.sw Sample.expandArgs (Sample.world [])).1,
       success (Stringified (JObj limits))) ∧
    ("items", JNum 5) ∈ limits.
Proof.
  apply (set_database_limit_reported Sample.sw Sample.expandArgs (Sample.world [])
           (LimitTools.set_database_limit Sample.fh Sample.sw Sample.expandArgs
              (Sample.world [])).1
           (LimitTools.set_database_limit Sample.fh Sample.sw Sample.expandArgs
              (Sample.world [])).2
           (slot_to_doc <$> Sample.items)).
  - unfold LimitTools.setLimitSchema_limit. simpl. lia.
  - reflexivity.
  - vm_compute. reflexivity.
  - vm_compute. reflexivity.
Defined.

(** ** Maps *)

(** The decimal digits of a positive number do not start with a zero. *)
Lemma pretty_N_go_first x s :
  (0 < x)%N → ∃ c r, pretty_N_go x s = String c r ∧ c ≠ "0"%char.
Proof.
  revert s. induction (N.lt_wf_0 x) as [x _ IH]; intros s Hx.
  rewrite pretty_N_go_step by done.
  destruct (N.eq_0_gt_0_cases (x `div` 10)) as [Hd|Hd].
  - rewrite Hd, pretty_N_go_0. eexists _, _. split; [done|].
    assert (x < 10)%N as Hlt by (by apply N.div_small_iff in Hd).
    rewrite N.mod_small by done.
    assert (x = 1 ∨ x = 2 ∨ x = 3 ∨ x = 4 ∨ x = 5 ∨ x = 6 ∨ x = 7 ∨ x = 8 ∨ x = 9)%N
      as Hcases by lia.
    destruct Hcases as [->|[->|[->|[->|[->|[->|[->|[->| ->]]]]]]]]; done.
  - apply IH; [|done]. by apply N.div_lt.
Qed.

Lemma pretty_first (z : Z) c r : 0 ≤ z → pretty z = String c r → c = "0"%char → z = 0.
Proof.
  intros Hz Hp ->. destruct z as [|p|p]; [done| |lia].
  change (pretty (Z.pos p)) with (pretty_N_go (N.pos p) "") in Hp.
  destruct (pretty_N_go_first (N.pos p) "" ltac:(lia)) as (c & r' & Hc & Hne).
  congruence.
Qed.

Lemma padStart3_inj a b :
  0 ≤ a → 0 ≤ b → padStart3 (pretty a) = padStart3 (pretty b) → pretty a = pretty b.
Proof.
  intros Ha Hb. unfold padStart3.
  assert (∀ z, 0 ≤ z → pretty z ≠ "") as Hne.
  { intros z Hz Hp. destruct z as [|p|p]; [done| |lia].
    change (pretty (Z.pos p)) with (pretty_N_go (N.pos p) "") in Hp.
    destruct (pretty_N_go_first (N.pos p) "" ltac:(lia)) as (c & r' & Hc & _). congruence. }
  assert (∀ z c r, 0 ≤ z → pretty z = String c r → c = "0"%char → r = "") as Hzero.
  { intros z c r Hz Hp Hc. rewrite (pretty_first z c r Hz Hp Hc) in Hp. by injection Hp. }
  pose proof (Hne a Ha) as Hna. pose proof (Hne b Hb) as Hnb.
  pose proof (Hzero a) as Hza. pose proof (Hzero b) as Hzb.
  destruct (pretty a) as [|a1 [|a2 [|a3 sa]]], (pretty b) as [|b1 [|b2 [|b3 sb]]];
    try done; cbn [String.length]; intros Heq; try (by simplify_eq/=).
  all: cbv [String.app] in Heq; simplify_eq/=.
  all: try (by specialize (Hza _ _ Ha eq_refl eq_refl)).
  all: try (by specialize (Hzb _ _ Hb eq_refl eq_refl)).
Qed.

Lemma pretty_padStart3_inj a b :
  0 ≤ a → 0 ≤ b → padStart3 (pretty a) +:+ ".json" = padStart3 (pretty b) +:+ ".json" → a = b.
Proof.
  intros Ha Hb Heq%string_app_inj_r.
  apply padStart3_inj in Heq; [|done..]. by apply (inj pretty).
Qed.

(** Property X23 (the body files of two maps). The padding of the id to
    three digits keeps the names apart: two maps with different ids
    never share a body file, also when an id has more than three
    digits. *)
Theorem mapFilename_inj a b : 0 ≤ a → 0 ≤ b → a ≠ b → mapFilename a ≠ mapFilename b.
Proof.
  intros Ha Hb Hab Heq. apply Hab. unfold mapFilename in Heq.
  apply (inj (String.app "Map")) in Heq.
  by apply pretty_padStart3_inj.
Qed.

Lemma mapFilename_inj_witness :
  mapFilename 7 = "Map007.json" ∧ mapFilename 70 = "Map070.json" ∧
  mapFilename 7 ≠ mapFilename 70.
Proof.
  split; [reflexivity|]. split; [reflexivity|].
  apply (mapFilename_inj 7 70); lia.
Defined.

(** Property X24 (the descriptor of a new map). On an index whose ids
    are positions, the descriptor that create_map makes has an id and
    an order of at least 1, both larger than those of every descriptor
    of the index, and its body file is the body file of no map of the
    index. *)
Theorem newMapInfo_fresh (mapInfos : list (option RPGMapInfo)) args :
  ids_are_positions mapInfos →
  let m := MapTools.newMapInfo mapInfos args in
  1 ≤ mapinfo_id m ∧ 1 ≤ mapinfo_order m ∧
  (∀ m', Some m' ∈ mapInfos →
         mapinfo_id m' < mapinfo_id m ∧ mapinfo_order m' < mapinfo_order m ∧
         mapFilename (mapinfo_id m') ≠ mapFilename (mapinfo_id m)).
Proof.
  intros Hids m. unfold m, MapTools.newMapInfo. simpl.
  rewrite nextMapId_eq, maxOrder_eq.
  assert (0 ≤ maxPriorOrder mapInfos) as Hord.
  { unfold maxPriorOrder. generalize (mapinfo_order <$> omap id mapInfos).
    intros l. induction l; simpl; lia. }
  split_and!; [lia|lia|]. intros m' Hm'.
  assert (mapinfo_id m' < Z.of_nat (1 `max` length mapInfos)) as Hid.
  { apply list_elem_of_lookup in Hm' as (i & Hi). rewrite (Hids _ _ Hi).
    apply lookup_lt_Some in Hi. lia. }
  split_and!; [done| |].
  - assert (mapinfo_order m' ≤ maxPriorOrder mapInfos); [|lia].
    apply foldr_Zmax_ge. apply list_elem_of_fmap. exists m'. split; [done|].
    apply list_elem_of_omap. by exists (Some m').
  - unfold mapFilename. intros Heq. apply (inj (String.app "Map")) in Heq.
    apply pretty_padStart3_inj in Heq; [lia| |lia].
    apply list_elem_of_lookup in Hm' as (i & Hi). rewrite (Hids _ _ Hi). lia.
Qed.

Lemma newMapInfo_fresh_witness :
  mapinfo_id (MapTools.newMapInfo Sample.mapInfos Sample.mapArgs) = 4 ∧
  ∀ m', Some m' ∈ Sample.mapInfos →
        mapinfo_id m' < 4 ∧
        mapinfo_order m' < mapinfo_order (MapTools.newMapInfo Sample.mapInfos Sample.mapArgs) ∧
        mapFilename (mapinfo_id m') ≠ "Map004.json".
Proof.
  split; [reflexivity|].
  assert (ids_are_positions Sample.mapInfos) as Hids.
  { intros [|[|[|[|[|i]]]]] m; simpl; intros [= <-]; reflexivity. }
  exact (proj2 (proj2 (newMapInfo_fresh Sample.mapInfos Sample.mapArgs Hids))).
Defined.

Lemma mapFilename_ne_bak id : mapFilename id ≠ "System.json.bak".
Proof. done. Qed.

Section UpdateMap.
Variable projectPath : string.
Variable enginePath : option string.
Local Abbreviation fh := (Server.fileHandler projectPath enginePath).
Local Abbreviation sw := (Server.safeWriter projectPath enginePath).

(** Property X25 (update_map on a map without a body file). The answer
    is the failure that names the id, and the disk is as it was. *)
Theorem update_map_not_found args w :
  files w !! dataPath fh (mapFilename (Z.pos (MapTools.um_id args))) = None →
  MapTools.update_map fh sw args w =
    (w, failure (Plain ("Error: Map with ID " +:+ show_pos (MapTools.um_id args) +:+ " not found"))).
Proof.
  intros Hmissing. unfold MapTools.update_map, handler. cbv zeta. unfold bind at 1.
  rewrite exists_spec. fold (dataPath fh (mapFilename (Z.pos (MapTools.um_id args)))).
  rewrite Hmissing. rewrite bool_decide_eq_false_2 by (by intros [? ?]). done.
Qed.

(** Property X26 (update_map on a map that is there). After an
    update_map that succeeds, the body file holds the former body with
    the display name, the tileset and the encounter steps that were
    given replaced; the tiles, the size and the events of the map are
    as they were, and a request that gives no field writes the body
    back as it was. *)
Theorem update_map_success args w w' out body :
  files w !! dataPath fh (mapFilename (Z.pos (MapTools.um_id args))) = Some (DMap body) →
  MapTools.update_map fh sw args w = (w', out) →
  isError out = false →
  ∃ body',
    files w' !! dataPath fh (mapFilename (Z.pos (MapTools.um_id args))) = Some (DMap body') ∧
    map_displayName body' = default (map_displayName body) (MapTools.um_displayName args) ∧
    map_tilesetId body' = default (map_tilesetId body) (MapTools.um_tilesetId args) ∧
    map_encounterStep body' = default (map_encounterStep body) (MapTools.um_encounterSteps args) ∧
    map_data body' = map_data body ∧
    map_width body' = map_width body ∧ map_height body' = map_height body ∧
    map_events body' = map_events body ∧
    (MapTools.um_displayName args = None → MapTools.um_tilesetId args = None →
     MapTools.um_encounterSteps args = None → body' = body).
Proof.
  intros Hbody Hcall Hok.
  exists (MapTools.updatedMap body args).
  unfold MapTools.update_map, handler in Hcall. cbv zeta in Hcall. unfold bind at 1 in Hcall.
  rewrite exists_spec in Hcall.
  fold (dataPath fh (mapFilename (Z.pos (MapTools.um_id args)))) in Hcall.
  rewrite Hbody in Hcall. rewrite bool_decide_eq_true_2 in Hcall by eauto.
  cbn [negb] in Hcall. unfold bind at 1 in Hcall.
  rewrite (readJson_lookup fh _ w (DMap body) body) in Hcall; [|done..].
  split_and!; try done.
  - destruct (bind _ _ w) as [w1 [r|e]] eqn:Hrun; [|by simplify_eq/=].
    apply bind_Ok in Hrun as (w2 & [] & Hw & [= <- _]). injection Hcall as <- _.
    apply (writeToDatabase_content sw) in Hw;
      [done|apply mapFilename_ne|apply mapFilename_ne_bak].
  - intros H1 H2 H3. unfold MapTools.updatedMap. rewrite H1, H2, H3. by destruct body.
Qed.

End UpdateMap.

Lemma update_map_not_found_witness :
  MapTools.update_map Sample.fh Sample.sw Sample.mapUpdate (Sample.world []) =
    (Sample.world [], failure (Plain "Error: Map with ID 4 not found")).
Proof.
  apply (update_map_not_found "/game" None Sample.mapUpdate (Sample.world [])).
  reflexivity.
Defined.

Lemma update_map_success_witness :
  ∃ body',
    files (MapTools.update_map Sample.fh Sample.sw Sample.mapUpdate
             (MapTools.create_map Sample.fh Sample.sw Sample.mapArgs (Sample.world [])).1).1
      !! "/game/data/Map004.json" = Some (DMap body') ∧
    map_displayName body' = "The Cave" ∧ map_tilesetId body' = 1 ∧
    map_encounterStep body' = 20 ∧ Z.of_nat (length (map_data body')) = 20 * 15 * 6.
Proof.
  assert (∃ body,
            files (MapTools.create_map Sample.fh Sample.sw Sample.mapArgs (Sample.world [])).1
              !! "/game/data/Map004.json" = Some (DMap body) ∧
            map_tilesetId body = 1 ∧ length (map_data body) = 1800%nat)
    as (body & Hbody & Htileset & Hdata).
  { vm_compute. eexists. split; [reflexivity|]. split; reflexivity. }
  destruct (update_map_success "/game" None Sample.mapUpdate
              (MapTools.create_map Sample.fh Sample.sw Sample.mapArgs (Sample.world [])).1
              (MapTools.update_map Sample.fh Sample.sw Sample.mapUpdate
                 (MapTools.create_map Sample.fh Sample.sw Sample.mapArgs (Sample.world [])).1).1
              (MapTools.update_map Sample.fh Sample.sw Sample.mapUpdate
                 (MapTools.create_map Sample.fh Sample.sw Sample.mapArgs (Sample.world [])).1).2
              body)
    as (body' & Hfile & Hname & Hts & Hsteps & Hd & _).
  - exact Hbody.
  - reflexivity.
  - vm_compute. reflexivity.
  - exists body'. split; [exact Hfile|]. split; [exact Hname|].
    split; [by rewrite Hts|]. split; [exact Hsteps|]. rewrite Hd, Hdata. reflexivity.
Defined.

(** ** What a request leaves alone *)

Section Frames.
Variable sw : SafeWriter.t.
Local Abbreviation fh := (SafeWriter.fileHandler sw).










End Frames.

Section ServerFrames.
Variable projectPath : string.
Variable enginePath : option string.
Local Abbreviation fh := (Server.fileHandler projectPath enginePath).
Local Abbreviation sw := (Server.safeWriter projectPath enginePath).



End ServerFrames.


(** ** The tools that only read *)

Lemma handler_world (body : M ToolResult) w :
  (∀ w' r, body w = (w', r) → w' = w) → (handler body w).1 = w.
Proof.
  intros Hbody. unfold handler. specialize (Hbody (body w).1 (body w).2).
  destruct (body w) as [w' r]. simpl in Hbody. rewrite Hbody by done. by destruct r.
Qed.

Lemma read_world {T A} `{Json T} fh p (k : T → M A) w :
  (∀ x w' r, k x w = (w', r) → w' = w) →
  ∀ w' r, (x <- FileHandler.readJson fh p ;; k x) w = (w', r) → w' = w.
Proof.
  intros Hk w' r. unfold bind.
  destruct (FileHandler.readJson fh p w) as [w1 [x|e]] eqn:Hr;
    apply readJson_world in Hr as ->.
  - apply Hk.
  - by intros [= <- _].
Qed.

Lemma ret_world {A} (a : A) w w' r : ret a w = (w', r) → w' = w.
Proof. by intros [= <- _]. Qed.

Section ReadOnly.
Variable fh : FileHandler.t.
Variable readdir : Readdir.
Variable parse : string → option (list PluginConfig).

(** Property X28 (the tools that only read). The listings, the counts,
    the limits and the list of plugins leave the disk and everything
    else as it was, whatever they answer: on a good collection, on a
    missing file and on a file that is not JSON. *)
Theorem listing_tools_write_nothing w :
  (ItemTools.get_items fh w).1 = w ∧
  (SkillTools.get_skills fh w).1 = w ∧
  (StateTools.get_states fh w).1 = w ∧
  (WeaponTools.get_weapons fh w).1 = w ∧
  (ArmorTools.get_armors fh w).1 = w ∧
  (EnemyTools.get_enemies fh w).1 = w ∧
  (ActorTools.get_actors fh w).1 = w ∧
  (ClassTools.get_classes fh w).1 = w ∧
  (MapTools.get_maps fh w).1 = w ∧
  (DatabaseTools.get_database_info fh w).1 = w ∧
  (LimitTools.get_database_limits fh w).1 = w ∧
  (PluginTools.get_installed_plugins fh readdir parse w).1 = w.
Proof.
  split_and!;
    try (apply handler_world; repeat (apply read_world; intros ?); apply ret_world).
  - by rewrite get_database_limits_eq.
  - apply handler_world. intros w' r. unfold bind at 1.
    destruct (PluginTools.readRegistered fh parse w) as [w1 [registered|e]] eqn:Hr;
      apply readRegistered_world in Hr as ->; [|by intros [= <- _]].
    unfold bind.
    destruct (listFiles_total fh readdir "js/plugins" (Some ".js") w) as (names & ->).
    by intros [= <- _].
Qed.

(** Property X29 (get_database_info with a file missing). The counts
    need all of the eight files: when one of them is missing the answer
    is a failure, whatever the others hold, and nothing is written. *)
Theorem get_database_info_missing file w :
  file ∈ ["Actors.json"; "Classes.json"; "Items.json"; "Skills.json";
          "Weapons.json"; "Armors.json"; "Enemies.json"; "States.json"] →
  files w !! dataPath fh file = None →
  ∃ out, DatabaseTools.get_database_info fh w = (w, out) ∧ isError out = true.
Proof.
  intros Hfile Hmissing.
  unfold DatabaseTools.get_database_info, handler, bind.
  repeat match goal with
  | |- context [@FileHandler.readJson ?h ?T ?I ?p w] =>
      let Hr := fresh "Hr" in
      destruct (@FileHandler.readJson h T I p w) as [? [?|?]] eqn:Hr;
      [apply readJson_Ok in Hr as (-> & ? & ? & _)
      |apply readJson_world in Hr as ->; eexists; split; reflexivity]
  end.
  unfold dataPath in Hmissing.
  rewrite !elem_of_cons in Hfile.
  repeat (destruct Hfile as [->|Hfile];
          [match type of Hmissing with
           | context [?a +:+ ?b] =>
               let c := eval vm_compute in (a +:+ b) in change (a +:+ b) with c in Hmissing
           end; congruence|]).
  by apply elem_of_nil in Hfile.
Qed.

End ReadOnly.

Lemma get_database_info_missing_witness :
  ∃ out, DatabaseTools.get_database_info Sample.fh (Sample.world []) = (Sample.world [], out) ∧
         isError out = true.
Proof.
  apply (get_database_info_missing Sample.fh "Weapons.json" (Sample.world [])).
  - set_solver.
  - reflexivity.
Defined.

(** ** The effects of a new item *)

Lemma percent_rate (x : Qc) :
  (0 ≤ x ≤ Qc_of_Z 100)%Qc → (0 ≤ x / Qc_of_Z 100 ≤ 1)%Qc.
Proof.
  intros [H0 H100]. unfold Qcdiv.
  assert (0 < Qc_of_Z 100)%Qc as Hpos by done.
  pose proof (Qcinv_pos _ Hpos) as Hinv. split.
  - apply Qcmult_nonneg_nonneg; [done|]. by apply Qclt_le_weak.
  - rewrite <-(Qcmult_inv_r (Qc_of_Z 100)) by done.
    apply Qcmult_le_mono_nonneg_r; [|done]. by apply Qclt_le_weak.
Qed.

(** Property X30 (the effects of a new item). For arguments within the
    bounds of the schema, a new item has at most the three effects of
    HP, MP and state, in this order; every rate lies between 0 and 1
    and no amount is negative; and it has no effect exactly when none
    was asked for. Its scope and occasion are those of the default item,
    whatever the arguments. *)
Theorem newItem_effects newId args :
  ItemTools.createItemSchema_recovery args →
  let item := ItemTools.newItem newId args in
  eff_code <$> item_effects item `sublist_of`
    [EffectCode.RecoverHP; EffectCode.RecoverMP; EffectCode.AddState] ∧
  Forall (λ e, (0 ≤ eff_value1 e ≤ 1)%Qc ∧ 0 ≤ eff_value2 e ∧ 0 ≤ eff_dataId e)
         (item_effects item) ∧
  (item_effects item = [] ↔
     ItemTools.ci_hpRecoveryPercent args = 0%Qc ∧ ItemTools.ci_hpRecoveryFixed args = 0 ∧
     ItemTools.ci_mpRecoveryPercent args = 0%Qc ∧ ItemTools.ci_mpRecoveryFixed args = 0 ∧
     ItemTools.ci_addStateId args = 0) ∧
  item_scope item = Scope.OneAlly ∧ item_occasion item = Occasion.Always.
Proof.
  intros (Hhp & Hhf & Hmp & Hmf & Hst) item.
  unfold item, ItemTools.newItem. cbn [item_effects item_scope item_occasion].
  cbn [ItemTools.createDefaultItem item_effects item_scope item_occasion app].
  unfold ItemTools.recoveryEffects.
  pose proof (percent_rate _ Hhp) as Hr1. pose proof (percent_rate _ Hmp) as Hr2.
  assert (∀ x : Qc, (0 ≤ x)%Qc → ¬ (0 < x)%Qc → x = 0%Qc) as Hq.
  { intros x H0 Hn. apply Qcle_antisym; [by apply Qcnot_lt_le|done]. }
  assert (∀ x : Qc, (0 < x)%Qc → x ≠ 0%Qc) as Hq'.
  { intros x Hx ->. by apply (Qclt_not_eq 0 0). }
  set (P := λ e : RPGEffect, (0 ≤ eff_value1 e ≤ 1)%Qc ∧ 0 ≤ eff_value2 e ∧ 0 ≤ eff_dataId e).
  assert (P {| eff_code := EffectCode.RecoverHP; eff_dataId := 0;
               eff_value1 := (ItemTools.ci_hpRecoveryPercent args / Qc_of_Z 100)%Qc;
               eff_value2 := ItemTools.ci_hpRecoveryFixed args |}) as Php by done.
  assert (P {| eff_code := EffectCode.RecoverMP; eff_dataId := 0;
               eff_value1 := (ItemTools.ci_mpRecoveryPercent args / Qc_of_Z 100)%Qc;
               eff_value2 := ItemTools.ci_mpRecoveryFixed args |}) as Pmp by done.
  assert (P {| eff_code := EffectCode.AddState; eff_dataId := ItemTools.ci_addStateId args;
               eff_value1 := 1%Qc; eff_value2 := 0 |}) as Pst by done.
  clearbody P.
  destruct (bool_decide (0 < ItemTools.ci_hpRecoveryPercent args)%Qc) eqn:E1;
    [apply bool_decide_eq_true in E1|apply bool_decide_eq_false in E1];
  (destruct (bool_decide (0 < ItemTools.ci_hpRecoveryFixed args)) eqn:E2;
    [apply bool_decide_eq_true in E2|apply bool_decide_eq_false in E2]);
  (destruct (bool_decide (0 < ItemTools.ci_mpRecoveryPercent args)%Qc) eqn:E3;
    [apply bool_decide_eq_true in E3|apply bool_decide_eq_false in E3]);
  (destruct (bool_decide (0 < ItemTools.ci_mpRecoveryFixed args)) eqn:E4;
    [apply bool_decide_eq_true in E4|apply bool_decide_eq_false in E4]);
  (destruct (bool_decide (0 < ItemTools.ci_addStateId args)) eqn:E5;
    [apply bool_decide_eq_true in E5|apply bool_decide_eq_false in E5]);
  cbn [orb app length fmap list_fmap];
  (split_and!;
   [ simpl; repeat first [apply sublist_nil | apply sublist_skip | apply sublist_cons]
   | repeat (constructor; [assumption|]); constructor
   | split;
     [ first [done | intros _; split_and!; first [lia | apply Hq; tauto]]
     | intros (H1 & H2 & H3 & H4 & H5);
       first [done | lia | exfalso; exact (Hq' _ E1 H1) | exfalso; exact (Hq' _ E3 H3)] ]
   | done | done ]).
Qed.

Lemma newItem_effects_witness :
  eff_code <$> item_effects (ItemTools.newItem 3 Sample.potion) `sublist_of`
    [EffectCode.RecoverHP; EffectCode.RecoverMP; EffectCode.AddState] ∧
  item_scope (ItemTools.newItem 3 Sample.potion) = Scope.OneAlly.
Proof.
  destruct (newItem_effects 3 Sample.potion) as (Hcodes & _ & _ & Hscope & _).
  - unfold ItemTools.createItemSchema_recovery. simpl. split_and!; done.
  - split; [exact Hcodes|exact Hscope].
Defined.
